(** * A shallow embedding of the block-update gateway

    The development follows three source files:

    - [src/services/monad.js]: the retry governor ([executeWithRetry]) and
      the two cached reads ([getLatestBlockNumber], [getData]);
    - [src/index.js]: the SSE / MCP-SSE endpoints and the shared poll loop
      ([startBlockPolling], [poll], [stopBlockPolling]);
    - [src/services/websocket.js]: the WebSocket service
      ([startBlockHeaderSubscription], [handleNewBlock], [broadcast]).

    Conventions.  Every [await] resumes with a settled promise, written
    [Settled A].  Time is a millisecond counter that only [setTimeout] and
    upstream round trips advance.  Each handler runs to completion before
    the next one starts: two handlers interleaving at an [await] are not
    part of the model. *)

From Stdlib Require Import ZArith NArith List Sorted String Ascii Bool Lia.
From Stdlib Require Import DecimalString DecimalN.
Import ListNotations.

Set Implicit Arguments.

(* ================================================================== *)
(** * JavaScript values used by the sources *)
(* ================================================================== *)

Module Js.

(** An [Error] object; only [error.message] is ever read. *)
Record Error : Type := mkError { message : string }.

(** A settled promise, or the completion of a [try] block. *)
Inductive Settled (A : Type) : Type :=
| Resolved (a : A)
| Rejected (e : Error).
Arguments Resolved {A} a.
Arguments Rejected {A} e.

(** [n.toString()] for a block number, a timestamp, a gas amount. *)
Definition toString (n : N) : string :=
  NilZero.string_of_uint (N.to_uint n).

(** [BigInt(s)] on a decimal literal; [None] is the [SyntaxError].  The
    other spellings [BigInt] accepts (the empty string, blanks, a radix
    prefix, a sign) do not occur: every argument is the [toString] of a
    block number. *)
Definition BigInt (s : string) : option N :=
  option_map N.of_uint (NilZero.uint_of_string s).

(** [s.includes(sub)]. *)
Definition includes (s sub : string) : bool :=
  match index 0 sub s with
  | Some _ => true
  | None => false
  end.

(** Truthiness of the values stored in the cache: [0] / [0n] and the
    empty string are falsy, and so is [null]. *)
Definition truthyN (v : option N) : bool :=
  match v with
  | Some n => negb (n =? 0)%N
  | None => false
  end.

Definition truthyStr (v : option string) : bool :=
  match v with
  | Some s => negb (s =? EmptyString)%string
  | None => false
  end.

(** [a > b] on two strings: code-unit lexicographic order. *)
Definition strGt (a b : string) : bool := String.ltb b a.

(** ** The async monad: state plus rejection

    A computation takes the state it starts in and gives the settled
    result together with the state it leaves behind; a rejection keeps
    the mutations made before the [throw]. *)

Definition M (S A : Type) : Type := S -> Settled A * S.

Definition ret {S A} (a : A) : M S A := fun s => (Resolved a, s).
Definition throw {S A} (e : Error) : M S A := fun s => (Rejected e, s).

(** [await p] for a promise that has settled as [p]. *)
Definition await {S A} (p : Settled A) : M S A := fun s => (p, s).

Definition bind {S A B} (m : M S A) (k : A -> M S B) : M S B :=
  fun s =>
    match m s with
    | (Resolved a, s') => k a s'
    | (Rejected e, s') => (Rejected e, s')
    end.

(** [try { body } catch (error) { handler }]. *)
Definition tryCatch {S A} (body : M S A) (handler : Error -> M S A)
  : M S A :=
  fun s =>
    match body s with
    | (Resolved a, s') => (Resolved a, s')
    | (Rejected e, s') => handler e s'
    end.

(** [xs.forEach(f)]: a throw inside [f] leaves the loop. *)
Fixpoint forEach {S A} (xs : list A) (f : A -> M S unit) : M S unit :=
  match xs with
  | [] => ret tt
  | x :: rest => bind (f x) (fun _ => forEach rest f)
  end.

Definition gets {S A} (f : S -> A) : M S A := fun s => (Resolved (f s), s).
Definition modify {S} (f : S -> S) : M S unit := fun s => (Resolved tt, f s).

(** A JavaScript [Set]: insertion order, no duplicates. *)
Definition setAdd (x : nat) (xs : list nat) : list nat :=
  if existsb (Nat.eqb x) xs then xs else xs ++ [x].

Definition setDelete (x : nat) (xs : list nat) : list nat :=
  filter (fun y => negb (Nat.eqb x y)) xs.

End Js.
Import Js.

Declare Scope js_scope.
Delimit Scope js_scope with js.
Notation "x <- m ;; k" := (bind m (fun x => k))
  (at level 61, m at next level, right associativity) : js_scope.
Notation "m ;; k" := (bind m (fun _ => k))
  (at level 61, right associativity) : js_scope.

(* ================================================================== *)
(** * monad.js: retry governor and result cache *)
(* ================================================================== *)

Module MonadService.

Local Open Scope Z_scope.
Local Open Scope js_scope.

(** Constructor constants (monad.js:26-28); never reassigned. *)
Definition minRequestInterval : Z := 1000.
Definition maxRetries : nat := 3.
Definition retryDelay : Z := 2000.

(** [this.cache.<key>] (monad.js:34-45). *)
Record CacheEntry (T : Type) : Type :=
  mkEntry { value : option T; timestamp : Z; ttl : Z }.

Record Cache : Type :=
  mkCache { latestBlock : CacheEntry N; greeting : CacheEntry string }.

(** What a test double would record: timer waits and outbound calls,
    oldest first.  [Call t] is an upstream request issued at time [t]. *)
Inductive Effect : Type :=
| Sleep (ms : Z)
| Call (at_ : Z).

Record State : Type := mkState {
  now : Z;                  (* Date.now() *)
  lastRequestTime : Z;      (* this.lastRequestTime *)
  cache : Cache;            (* this.cache *)
  rpcCalls : nat;           (* outbound calls issued so far *)
  trace : list Effect
}.

(** The chain as the service sees it: the answer to the [k]-th outbound
    call and the time that call takes. *)
Record Upstream : Type := mkUpstream {
  blockNumberAt : nat -> Settled N;      (* web3.eth.getBlockNumber() *)
  greetingAt : nat -> Settled string;    (* contract.methods.greeting().call() *)
  rtt : nat -> N
}.

(** State after the constructor ran. *)
Definition initial (t0 : Z) : State :=
  mkState t0 0
    (mkCache (mkEntry None 0 2000) (mkEntry None 0 5000))
    0 [].

(** ** Primitive reads and writes *)

Definition M : Type -> Type := Js.M State.

Definition dateNow : M Z := fun s => (Resolved (now s), s).

Definition readLastRequestTime : M Z :=
  fun s => (Resolved (lastRequestTime s), s).

Definition writeLastRequestTime (t : Z) : M unit :=
  fun s => (Resolved tt, mkState (now s) t (cache s) (rpcCalls s) (trace s)).

Definition readCache : M Cache := fun s => (Resolved (cache s), s).

Definition writeCache (c : Cache) : M unit :=
  fun s =>
    (Resolved tt,
     mkState (now s) (lastRequestTime s) c (rpcCalls s) (trace s)).

(** [await new Promise(resolve => setTimeout(resolve, ms))]. *)
Definition sleep (ms : Z) : M unit :=
  fun s =>
    (Resolved tt,
     mkState (now s + Z.max 0 ms) (lastRequestTime s) (cache s)
       (rpcCalls s) (trace s ++ [Sleep ms])).

(** Time passing while a timer is pending. *)
Definition elapse (ms : Z) (s : State) : State :=
  mkState (now s + Z.max 0 ms) (lastRequestTime s) (cache s) (rpcCalls s)
    (trace s).

(** One outbound request: the [k]-th one gets the [k]-th answer. *)
Definition rpc {A} (answer : nat -> Settled A) (lat : nat -> N) : M A :=
  fun s =>
    let k := rpcCalls s in
    (answer k,
     mkState (now s + Z.of_N (lat k)) (lastRequestTime s) (cache s)
       (S k) (trace s ++ [Call (now s)])).

(** ** executeWithRetry (monad.js:392-413) *)

Inductive Iteration (A : Type) : Type :=
| Done (a : A)        (* return await operation() *)
| Continue.           (* continue *)
Arguments Done {A} a.
Arguments Continue {A}.

(** Lines 396-402: wait until [minRequestInterval] has passed since the
    previous request, then stamp [lastRequestTime]. *)
Definition pace : M unit :=
  t <- dateNow ;;
  last <- readLastRequestTime ;;
  let timeSinceLastRequest := t - last in
  (if timeSinceLastRequest <? minRequestInterval
   then sleep (minRequestInterval - timeSinceLastRequest)
   else ret tt) ;;
  t' <- dateNow ;;
  writeLastRequestTime t'.

(** The state in which [operation] is invoked. *)
Definition paced (s : State) : State := snd (pace s).

(** The body of one loop iteration, [try] and [catch] together. *)
Definition attemptOnce {A} (operation : M A) (retries attempt : nat)
  : M (Iteration A) :=
  tryCatch
    (pace ;;
     v <- operation ;;
     ret (Done v))
    (fun error =>
       if includes (message error) "request limit reached"
          && (attempt <? retries)%nat
       then sleep (retryDelay * Z.of_nat attempt) ;; ret Continue
       else throw error).

(** [for (let attempt = ...; attempt <= retries; attempt++)]: [fuel] is
    the number of iterations left, [retries + 1 - attempt].  Falling off
    the loop returns [undefined], here [None]. *)
Fixpoint retryLoop {A} (operation : M A) (retries attempt fuel : nat)
  : M (option A) :=
  match fuel with
  | O => ret None
  | S fuel' =>
      c <- attemptOnce operation retries attempt ;;
      match c with
      | Done v => ret (Some v)
      | Continue => retryLoop operation retries (S attempt) fuel'
      end
  end.

Definition executeWithRetry {A} (operation : M A) (retries : nat)
  : M (option A) :=
  retryLoop operation retries 1 retries.

(** ** getLatestBlockNumber (monad.js:415-434) *)

Definition fetchBlockNumber (u : Upstream) : M string :=
  blockNumber <- rpc (blockNumberAt u) (rtt u) ;;
  c <- readCache ;;
  t <- dateNow ;;
  writeCache
    (mkCache (mkEntry (Some blockNumber) t (ttl (latestBlock c)))
       (greeting c)) ;;
  ret (toString blockNumber).

Definition getLatestBlockNumber (u : Upstream) : M (option string) :=
  c <- readCache ;;
  t <- dateNow ;;
  if truthyN (value (latestBlock c))
     && (t - timestamp (latestBlock c) <? ttl (latestBlock c))
  then ret (option_map toString (value (latestBlock c)))
  else executeWithRetry (fetchBlockNumber u) maxRetries.

(** ** getData (monad.js:436-455) *)

Definition fetchGreeting (u : Upstream) : M string :=
  g <- rpc (greetingAt u) (rtt u) ;;
  c <- readCache ;;
  t <- dateNow ;;
  writeCache
    (mkCache (latestBlock c) (mkEntry (Some g) t (ttl (greeting c)))) ;;
  ret g.

Definition getData (u : Upstream) : M (option string) :=
  c <- readCache ;;
  t <- dateNow ;;
  if truthyStr (value (greeting c))
     && (t - timestamp (greeting c) <? ttl (greeting c))
  then ret (value (greeting c))
  else executeWithRetry (fetchGreeting u) maxRetries.

(** The times of the outbound calls in a trace. *)
Definition callTimes (tr : list Effect) : list Z :=
  flat_map (fun e => match e with Call t => [t] | Sleep _ => [] end) tr.

(** An operation that is one outbound request as far as the clock, the
    pacing stamp, the call counter and the trace go: invoked as the [k]-th
    request it settles as [answer k] after [lat k] ms.  It may do more,
    such as refreshing the cache. *)
Definition issues (A : Type) (operation : M A) (answer : nat -> Settled A)
    (lat : nat -> N) : Prop :=
  forall s,
    fst (operation s) = answer (rpcCalls s) /\
    now (snd (operation s)) = now s + Z.of_N (lat (rpcCalls s)) /\
    lastRequestTime (snd (operation s)) = lastRequestTime s /\
    rpcCalls (snd (operation s)) = S (rpcCalls s) /\
    trace (snd (operation s)) = trace s ++ [Call (now s)].

(** An operation that issues exactly one outbound request per invocation. *)
Definition oneRequest (A : Type) (operation : M A) : Prop :=
  forall s, rpcCalls (snd (operation s)) = S (rpcCalls s).

End MonadService.


(* ================================================================== *)
(** * JSON.stringify on the objects the server sends *)
(* ================================================================== *)

Module Json.

Local Open Scope string_scope.

#[warnings="-register-all"] Inductive value : Type :=
| Str (s : string)
| Num (n : Z)
| Obj (members : list (string * value)).

Definition dquote : ascii := ascii_of_nat 34.
Definition backslash : ascii := ascii_of_nat 92.
Definition newline : string := String (ascii_of_nat 10) EmptyString.

Definition hexDigit (n : nat) : ascii :=
  match n with
  | 0 => "0" | 1 => "1" | 2 => "2" | 3 => "3" | 4 => "4" | 5 => "5"
  | 6 => "6" | 7 => "7" | 8 => "8" | 9 => "9" | 10 => "a" | 11 => "b"
  | 12 => "c" | 13 => "d" | 14 => "e" | _ => "f"
  end%char.

(** The escape of one code unit inside a JSON string literal. *)
Definition escape (c : ascii) : string :=
  let n := nat_of_ascii c in
  if (n =? 34)%nat then String backslash (String dquote EmptyString)
  else if (n =? 92)%nat then String backslash (String backslash EmptyString)
  else if (n =? 8)%nat then String backslash "b"
  else if (n =? 9)%nat then String backslash "t"
  else if (n =? 10)%nat then String backslash "n"
  else if (n =? 12)%nat then String backslash "f"
  else if (n =? 13)%nat then String backslash "r"
  else if (n <? 32)%nat then
    String backslash
      ("u00" ++ String (hexDigit (n / 16))
                  (String (hexDigit (n mod 16)) EmptyString))
  else String c EmptyString.

Fixpoint escapeAll (s : string) : string :=
  match s with
  | EmptyString => EmptyString
  | String c rest => escape c ++ escapeAll rest
  end.

Definition quote (s : string) : string :=
  String dquote (escapeAll s ++ String dquote EmptyString).

Fixpoint stringify (v : value) : string :=
  match v with
  | Str s => quote s
  | Num n => NilZero.string_of_int (Z.to_int n)
  | Obj members =>
      "{" ++
      (fix go (ms : list (string * value)) : string :=
         match ms with
         | [] => EmptyString
         | (k, x) :: rest =>
             quote k ++ ":" ++ stringify x ++
             match rest with
             | [] => EmptyString
             | _ :: _ => "," ++ go rest
             end
         end) members
      ++ "}"
  end.

End Json.

(* ================================================================== *)
(** * Blocks and the provider *)
(* ================================================================== *)

Module Chain.

Local Open Scope string_scope.

(** A block (or block header) as web3 hands it over. *)
Record Block : Type := mkBlock {
  number : N;
  hash : string;
  timestamp : N;
  gasUsed : option N;
  miner : string;
  baseFeePerGas : option N;
  difficulty : option N;
  totalDifficulty : option N;
  transactions : list string
}.

(** [(x || '0').toString()] and [x ? x.toString() : '0']. *)
Definition orZero (x : option N) : string :=
  match x with
  | Some n => if truthyN x then toString n else "0"
  | None => "0"
  end.

(** What one tick of a tracker gets back from its two awaits:
    [monadService.getLatestBlockNumber()] (a decimal string, or
    [undefined]) and [monadService.web3.eth.getBlock(n, true)]. *)
Record Tick : Type := mkTick {
  latestBlockNumber : Settled (option string);
  getBlock : string -> Settled (option Block)
}.

(** The tick delivers head [n]. *)
Definition delivers (t : Tick) (n : N) : Prop :=
  latestBlockNumber t = Resolved (Some (toString n)).

(** What the tick hands over as the head, if anything, is the decimal
    string of a number. *)
Definition decimalHead (t : Tick) : Prop :=
  forall str,
    latestBlockNumber t = Resolved (Some str) -> exists n, str = toString n.

(** The provider answers a lookup with the block that was asked for. *)
Definition honest (t : Tick) : Prop :=
  forall s b, getBlock t s = Resolved (Some b) -> s = toString (number b).

(** Chunks delivered to one sink, oldest first. *)
Definition received (c : nat) (wire : list (nat * string)) : list string :=
  map snd (filter (fun p => Nat.eqb (fst p) c) wire).

(** [c] is in the set [cs]. *)
Definition member (c : nat) (cs : list nat) : bool := existsb (Nat.eqb c) cs.

Inductive Level : Type := Info | Warn | Err.

Record LogEntry : Type := mkLog { level : Level; text : string; detail : string }.

End Chain.
Import Chain.

(* ================================================================== *)
(** * index.js: SSE and MCP-SSE endpoints, shared poll loop *)
(* ================================================================== *)

Module Gateway.

Import Json.
Local Open Scope string_scope.
Local Open Scope js_scope.

(** index.js:121-123 *)
Definition MAX_CONSECUTIVE_ERRORS : nat := 3.
Definition POLLING_INTERVAL : Z := 2000.
Definition ERROR_POLLING_INTERVAL : Z := 5000.

(** Module-level variables of index.js, the listeners registered on
    [monadService], and what the process has written so far.  A response
    object is named by a number.  [blockPollingInterval] holds the delay
    of the pending [setTimeout(poll, _)], [restartTimers] counts pending
    [setTimeout(startBlockPolling, _)] timers, which nothing can cancel. *)
Record State : Type := mkState {
  sseClients : list nat;
  mcpClients : list nat;
  blockPollingInterval : option Z;
  lastBlock : option string;
  consecutiveErrors : nat;
  restartTimers : nat;
  newBlockListeners : list nat;
  wire : list (nat * string);
  log : list LogEntry
}.

Definition initial : State := mkState [] [] None None 0 0 [] [] [].

Definition setSseClients v s :=
  mkState v (mcpClients s) (blockPollingInterval s) (lastBlock s)
    (consecutiveErrors s) (restartTimers s) (newBlockListeners s)
    (wire s) (log s).
Definition setMcpClients v s :=
  mkState (sseClients s) v (blockPollingInterval s) (lastBlock s)
    (consecutiveErrors s) (restartTimers s) (newBlockListeners s)
    (wire s) (log s).
Definition setBlockPollingInterval v s :=
  mkState (sseClients s) (mcpClients s) v (lastBlock s)
    (consecutiveErrors s) (restartTimers s) (newBlockListeners s)
    (wire s) (log s).
Definition setLastBlock v s :=
  mkState (sseClients s) (mcpClients s) (blockPollingInterval s) v
    (consecutiveErrors s) (restartTimers s) (newBlockListeners s)
    (wire s) (log s).
Definition setConsecutiveErrors v s :=
  mkState (sseClients s) (mcpClients s) (blockPollingInterval s)
    (lastBlock s) v (restartTimers s) (newBlockListeners s)
    (wire s) (log s).
Definition setRestartTimers v s :=
  mkState (sseClients s) (mcpClients s) (blockPollingInterval s)
    (lastBlock s) (consecutiveErrors s) v (newBlockListeners s)
    (wire s) (log s).
Definition setNewBlockListeners v s :=
  mkState (sseClients s) (mcpClients s) (blockPollingInterval s)
    (lastBlock s) (consecutiveErrors s) (restartTimers s) v
    (wire s) (log s).
Definition setWire v s :=
  mkState (sseClients s) (mcpClients s) (blockPollingInterval s)
    (lastBlock s) (consecutiveErrors s) (restartTimers s)
    (newBlockListeners s) v (log s).
Definition setLog v s :=
  mkState (sseClients s) (mcpClients s) (blockPollingInterval s)
    (lastBlock s) (consecutiveErrors s) (restartTimers s)
    (newBlockListeners s) (wire s) v.

Definition logger (lv : Level) (text detail : string) : M State unit :=
  modify (fun s => setLog (log s ++ [mkLog lv text detail]) s).

(** [`data: ${payload}\n\n`] *)
Definition sseData (payload : string) : string :=
  "data: " ++ payload ++ newline ++ newline.

(** index.js:137-146 *)
Definition blockInfo (block : Block) : value :=
  Obj [ ("number", Str (toString (number block)));
        ("hash", Str (hash block));
        ("timestamp", Str (toString (timestamp block)));
        ("gasUsed", Str (orZero (gasUsed block)));
        ("miner", Str (miner block));
        ("baseFeePerGas", Str (orZero (baseFeePerGas block)));
        ("difficulty", Str (orZero (difficulty block)));
        ("totalDifficulty", Str (orZero (totalDifficulty block))) ].

(** index.js:148-151 *)
Definition newBlockEvent (block : Block) : value :=
  Obj [ ("type", Str "newBlock"); ("data", blockInfo block) ].

(** index.js:168-171 *)
Definition errorEvent : value :=
  Obj [ ("type", Str "error");
        ("data",
         Obj [ ("message",
                Str "Experiencing temporary issues with block updates") ]) ].


(** index.js:226-238 *)
Definition initMessage (clientId : string) : value :=
  Obj [ ("jsonrpc", Str "2.0");
        ("id", Num 0);
        ("result",
         Obj [ ("status", Str "connected");
               ("clientId", Str clientId);
               ("serverInfo",
                Obj [ ("name", Str "pikimon-mcp-server");
                      ("version", Str "2.0");
                      ("transport", Str "sse") ]) ]) ].

(** [x.toString()] where [x] may be [undefined]. *)
Definition toStringOf (x : option string) : M State string :=
  match x with
  | Some s => ret s
  | None =>
      throw (mkError "Cannot read properties of undefined (reading 'toString')")
  end.

(** [BigInt(x)] where [x] may be [null]. *)
Definition bigInt (x : option string) : M State N :=
  match x with
  | Some s =>
      match BigInt s with
      | Some n => ret n
      | None => throw (mkError ("Cannot convert " ++ s ++ " to a BigInt"))
      end
  | None => throw (mkError "Cannot convert null to a BigInt")
  end.

Section Handlers.

(** Whether the socket behind a response is still there.  Node's
    [res.write(chunk)] never throws on a string: with the socket gone
    it returns [false] and the chunk is lost. *)
Variable alive : nat -> bool.

Definition write (res : nat) (chunk : string) : M State unit :=
  modify (fun s =>
            if alive res then setWire (wire s ++ [(res, chunk)]) s else s).

(** [poll] (index.js:131-179) *)
Definition poll (t : Tick) : M State unit :=
  tryCatch
    (r <- await (latestBlockNumber t) ;;
     currentBlock <- toStringOf r ;;
     c <- bigInt (Some currentBlock) ;;
     last <- gets lastBlock ;;
     l <- bigInt last ;;
     (if (l <? c)%N
      then
        block <- await (getBlock t currentBlock) ;;
        match block with
        | Some b =>
            let eventData := stringify (newBlockEvent b) in
            clients <- gets sseClients ;;
            forEach clients
              (fun client => write client (sseData eventData)) ;;
            modify (setLastBlock (Some currentBlock)) ;;
            logger Info "New block broadcast to SSE clients:"
              (toString (number b))
        | None => ret tt
        end
      else ret tt) ;;
     modify (setConsecutiveErrors 0) ;;
     modify (setBlockPollingInterval (Some POLLING_INTERVAL)))
    (fun error =>
       logger Err "Error in SSE block polling:" (message error) ;;
       modify (fun s => setConsecutiveErrors (S (consecutiveErrors s)) s) ;;
       n <- gets consecutiveErrors ;;
       (if (MAX_CONSECUTIVE_ERRORS <=? n)%nat
        then
          clients <- gets sseClients ;;
          forEach clients
            (fun client => write client (sseData (stringify errorEvent)))
        else ret tt) ;;
       modify (setBlockPollingInterval (Some ERROR_POLLING_INTERVAL))).

(** [startBlockPolling] (index.js:125-187): [baseline] settles the
    first [getLatestBlockNumber()], [first] feeds the [await poll()]. *)
Definition startBlockPolling (baseline : Settled (option string))
    (first : Tick) : M State unit :=
  timer <- gets blockPollingInterval ;;
  match timer with
  | Some _ => ret tt
  | None =>
      tryCatch
        (r <- await baseline ;;
         head <- toStringOf r ;;
         modify (setLastBlock (Some head)) ;;
         poll first ;;
         logger Info "SSE block polling started" EmptyString)
        (fun error =>
           logger Err "Error starting SSE block polling:" (message error) ;;
           modify (fun s => setRestartTimers (S (restartTimers s)) s))
  end.

(** [stopBlockPolling] (index.js:189-196) *)
Definition stopBlockPolling : M State unit :=
  timer <- gets blockPollingInterval ;;
  match timer with
  | Some _ =>
      modify (setBlockPollingInterval None) ;;
      modify (setConsecutiveErrors 0) ;;
      logger Info "SSE block polling stopped" EmptyString
  | None => ret tt
  end.

(** /sse, after the initial data went out (index.js:95-100). *)
Definition sseOpen (res : nat) (baseline : Settled (option string))
    (first : Tick) : M State unit :=
  modify (fun s => setSseClients (setAdd res (sseClients s)) s) ;;
  logger Info "New SSE client connected" EmptyString ;;
  clients <- gets sseClients ;;
  if (List.length clients =? 1)%nat
  then startBlockPolling baseline first
  else ret tt.

(** /sse, [req.on('close', ...)] (index.js:102-109). *)
Definition sseClose (res : nat) : M State unit :=
  modify (fun s => setSseClients (setDelete res (sseClients s)) s) ;;
  logger Info "SSE client disconnected" EmptyString ;;
  clients <- gets sseClients ;;
  if (List.length clients =? 0)%nat
  then stopBlockPolling
  else ret tt.

(** /mcp-sse (index.js:222-239, 291-297, 314). *)
Definition mcpOpen (res : nat) (clientId : string)
    (baseline : Settled (option string)) (first : Tick) : M State unit :=
  modify (fun s => setMcpClients (setAdd res (mcpClients s)) s) ;;
  write res (sseData (stringify (initMessage clientId))) ;;
  modify (fun s => setNewBlockListeners (newBlockListeners s ++ [res]) s) ;;
  clients <- gets mcpClients ;;
  (if (List.length clients =? 1)%nat
   then startBlockPolling baseline first
   else ret tt) ;;
  logger Info "MCP SSE client connected:" clientId.

(** /mcp-sse, [req.on('close', ...)] (index.js:300-312). *)
Definition mcpClose (res : nat) (clientId : string) : M State unit :=
  modify (fun s => setMcpClients (setDelete res (mcpClients s)) s) ;;
  modify (fun s =>
            setNewBlockListeners (setDelete res (newBlockListeners s)) s) ;;
  clients <- gets mcpClients ;;
  (if (List.length clients =? 0)%nat
   then stopBlockPolling
   else ret tt) ;;
  logger Info "MCP SSE client disconnected:" clientId.


(** What can happen to the process.  No action delivers a ['newBlock']
    event to the listeners: the sources never emit one. *)
Inductive Action : Type :=
| SseOpen (res : nat) (baseline : Settled (option string)) (first : Tick)
| SseClose (res : nat)
| McpOpen (res : nat) (clientId : string)
    (baseline : Settled (option string)) (first : Tick)
| McpClose (res : nat) (clientId : string)
| PollTimer (t : Tick)
| RestartTimer (baseline : Settled (option string)) (first : Tick).

Definition handler (a : Action) : M State unit :=
  match a with
  | SseOpen res baseline first => sseOpen res baseline first
  | SseClose res => sseClose res
  | McpOpen res clientId baseline first =>
      mcpOpen res clientId baseline first
  | McpClose res clientId => mcpClose res clientId
  | PollTimer t =>
      timer <- gets blockPollingInterval ;;
      match timer with
      | Some _ => poll t
      | None => ret tt
      end
  | RestartTimer baseline first =>
      n <- gets restartTimers ;;
      match n with
      | S n' =>
          modify (setRestartTimers n') ;;
          startBlockPolling baseline first
      | O => ret tt
      end
  end.

Definition step (a : Action) (s : State) : State := snd (handler a s).

Definition run (actions : list Action) (s : State) : State :=
  fold_left (fun s a => step a s) actions s.

(** The poll loop of one polling session: one timer firing per tick. *)
Definition pollLoop (ticks : list Tick) (s : State) : State :=
  fold_left (fun s t => snd (poll t s)) ticks s.

End Handlers.

(** Chunks that announce a block, as a subscriber tells them apart. *)
Definition newBlockPrefix : string :=
  "data: {" ++ quote "type" ++ ":" ++ quote "newBlock".

Definition isNewBlockChunk (chunk : string) : bool :=
  prefix newBlockPrefix chunk.

(** The chunk [poll] writes for a block, and the one for trouble. *)
Definition newBlockChunk (b : Block) : string :=
  sseData (stringify (newBlockEvent b)).

Definition errorChunk : string := sseData (stringify errorEvent).

(** The tracker is running: a poll is scheduled. *)
Definition tracking (s : State) : bool :=
  match blockPollingInterval s with
  | Some _ => true
  | None => false
  end.

Definition subscribers (s : State) : nat :=
  List.length (sseClients s) + List.length (mcpClients s).

(** ** The state a tick leaves, case by case *)

(** The [catch] block of [poll] ran with [error]. *)
Definition caught (alive : nat -> bool) (error : Error) (s : State) : State :=
  let n := S (consecutiveErrors s) in
  mkState (sseClients s) (mcpClients s) (Some ERROR_POLLING_INTERVAL)
    (lastBlock s) n (restartTimers s) (newBlockListeners s)
    (wire s ++
     if (MAX_CONSECUTIVE_ERRORS <=? n)%nat
     then map (fun c => (c, sseData (stringify errorEvent)))
            (filter alive (sseClients s))
     else [])
    (log s ++ [mkLog Err "Error in SSE block polling:" (message error)]).

(** [poll] announced [block], fetched for head [currentBlock]. *)
Definition announced (alive : nat -> bool) (currentBlock : string)
    (block : Block) (s : State) : State :=
  mkState (sseClients s) (mcpClients s) (Some POLLING_INTERVAL)
    (Some currentBlock) 0 (restartTimers s) (newBlockListeners s)
    (wire s ++
     map (fun c => (c, sseData (stringify (newBlockEvent block))))
       (filter alive (sseClients s)))
    (log s ++
     [mkLog Info "New block broadcast to SSE clients:"
        (toString (number block))]).

(** [poll] had nothing to announce. *)
Definition quiet (s : State) : State :=
  mkState (sseClients s) (mcpClients s) (Some POLLING_INTERVAL)
    (lastBlock s) 0 (restartTimers s) (newBlockListeners s)
    (wire s) (log s).

Definition undefinedToString : Error :=
  mkError "Cannot read properties of undefined (reading 'toString')".

Definition notBigInt (s : string) : Error :=
  mkError ("Cannot convert " ++ s ++ " to a BigInt").

Definition nullBigInt : Error := mkError "Cannot convert null to a BigInt".

End Gateway.

(* ================================================================== *)
(** * services/websocket.js: the WebSocket service *)
(* ================================================================== *)

Module WebSocketService.

Import Json.
Local Open Scope string_scope.
Local Open Scope js_scope.

Inductive ReadyState : Type := CONNECTING | OPEN | CLOSING | CLOSED.

Definition isOpen (r : ReadyState) : bool :=
  match r with
  | OPEN => true
  | _ => false
  end.

(** A client socket as the service meets it: its [readyState] and
    whether [send] throws on it. *)
Record Socket : Type := mkSocket {
  readyState : ReadyState;
  sendFailure : option Error
}.

(** [this.subscription]: the polling descriptor of lines 123-140 with the
    [lastBlock] its closure captured, or the handle web3 returned. *)
Inductive Subscription : Type :=
| Polling (active : bool) (lastBlock : option string)
| Pushed.

Record State : Type := mkState {
  wss : bool;                        (* this.wss is set *)
  clients : list nat;                (* this.clients *)
  subscription : option Subscription;
  wire : list (nat * string);
  log : list LogEntry
}.

(** After [new WebSocketService()]. *)
Definition initial : State := mkState false [] None [] [].

Definition setWss v s :=
  mkState v (clients s) (subscription s) (wire s) (log s).
Definition setClients v s :=
  mkState (wss s) v (subscription s) (wire s) (log s).
Definition setSubscription v s :=
  mkState (wss s) (clients s) v (wire s) (log s).
Definition setWire v s :=
  mkState (wss s) (clients s) (subscription s) v (log s).
Definition setLog v s :=
  mkState (wss s) (clients s) (subscription s) (wire s) v.

Definition logger (lv : Level) (text detail : string) : M State unit :=
  modify (fun s => setLog (log s ++ [mkLog lv text detail]) s).

(** [a > b] where either side may be [undefined]. *)
Definition jsGt (a b : option string) : bool :=
  match a, b with
  | Some x, Some y => strGt x y
  | _, _ => false
  end.

(** websocket.js:183-189 *)
Definition blockInfo (blockHeader : Block) : value :=
  Obj [ ("number", Str (toString (number blockHeader)));
        ("hash", Str (hash blockHeader));
        ("timestamp", Str (toString (timestamp blockHeader)));
        ("gasUsed", Str (orZero (gasUsed blockHeader)));
        ("miner", Str (miner blockHeader)) ].

(** websocket.js:191-194, the object handed to [JSON.stringify]. *)
Definition newBlockEvent (blockHeader : Block) : value :=
  Obj [ ("type", Str "newBlock"); ("data", blockInfo blockHeader) ].

(** websocket.js:45-49 *)
Definition connectionMessage (now : Z) : value :=
  Obj [ ("type", Str "connection");
        ("status", Str "connected");
        ("timestamp", Num now) ].

Section Handlers.

Variable sockets : nat -> Socket.

(** [client.send(data)] *)
Definition send (client : nat) (data : string) : M State unit :=
  match sendFailure (sockets client) with
  | Some error => throw error
  | None => modify (fun s => setWire (wire s ++ [(client, data)]) s)
  end.

(** [broadcast] (websocket.js:229-244) *)
Definition broadcast (message : value) : M State unit :=
  up <- gets wss ;;
  if negb up
  then logger Warn "WebSocket server not initialized" EmptyString
  else
    cs <- gets clients ;;
    forEach cs
      (fun client =>
         if isOpen (readyState (sockets client))
         then
           tryCatch
             (send client (stringify message))
             (fun error =>
                logger Err "Error broadcasting to client:"
                  (Js.message error))
         else ret tt).

(** [handleNewBlock] (websocket.js:181-197) *)
Definition handleNewBlock (blockHeader : Block) : M State unit :=
  broadcast (Str (stringify (newBlockEvent blockHeader))) ;;
  logger Info "New block received:" (toString (number blockHeader)).

(** The polling branch of [startBlockHeaderSubscription]
    (websocket.js:119-144), once [getLatestBlockNumber()] resolved
    with [baseline]. *)
Definition startPolling (baseline : option string) : M State unit :=
  logger Info "Starting block header polling" EmptyString ;;
  modify (setSubscription (Some (Polling true baseline))) ;;
  logger Info "Block header polling started successfully" EmptyString.

(** The [setInterval] callback (websocket.js:126-139). *)
Definition intervalCallback (t : Tick) : M State unit :=
  sub <- gets subscription ;;
  match sub with
  | Some (Polling active lastBlock) =>
      tryCatch
        (currentBlock <- await (latestBlockNumber t) ;;
         if jsGt currentBlock lastBlock
         then
           match currentBlock with
           | Some n =>
               block <- await (getBlock t n) ;;
               match block with
               | Some b =>
                   handleNewBlock b ;;
                   modify (setSubscription
                             (Some (Polling active currentBlock)))
               | None => ret tt
               end
           | None => ret tt
           end
         else ret tt)
        (fun error =>
           logger Err "Error in block polling:" (message error))
  | _ => ret tt
  end.


(** [stopBlockHeaderSubscription] (websocket.js:199-227); the provider's
    answer to [unsubscribe] only reaches the log. *)
Definition stopBlockHeaderSubscription : M State unit :=
  sub <- gets subscription ;;
  match sub with
  | None => ret tt
  | Some d =>
      logger Info "Stopping block header subscription/polling"
        EmptyString ;;
      match d with
      | Polling _ _ => logger Info "Block header polling stopped" EmptyString
      | Pushed => ret tt
      end ;;
      modify (setSubscription None)
  end.


(** The ['connection'] handler (websocket.js:20-50). *)
Definition connection (ws : nat) (now : Z) : M State unit :=
  modify (fun s => setClients (setAdd ws (clients s)) s) ;;
  logger Info "WebSocket client connected" EmptyString ;;
  send ws (stringify (connectionMessage now)).

(** The ['close'] handler of one client (websocket.js:34-37). *)
Definition close (ws : nat) : M State unit :=
  modify (fun s => setClients (setDelete ws (clients s)) s) ;;
  logger Info "WebSocket client disconnected" EmptyString.

(** Interval callbacks of one polling subscription, one per tick. *)
Definition pollLoop (ticks : list Tick) (s : State) : State :=
  fold_left (fun s t => snd (intervalCallback t s)) ticks s.


(** The clients a broadcast reaches. *)
Definition reachable (client : nat) : bool :=
  isOpen (readyState (sockets client))
  && match sendFailure (sockets client) with
     | Some _ => false
     | None => true
     end.

End Handlers.

(** What [handleNewBlock] puts on the wire for one header. *)
Definition newBlockFrame (blockHeader : Block) : string :=
  stringify (Str (stringify (newBlockEvent blockHeader))).

(** ** The state a broadcast leaves *)

(** Log entries of the [catch] inside [broadcast], in client order. *)
Definition sendErrors (sockets : nat -> Socket) (cs : list nat)
  : list LogEntry :=
  flat_map
    (fun c =>
       if isOpen (readyState (sockets c))
       then match sendFailure (sockets c) with
            | Some e => [mkLog Err "Error broadcasting to client:" (Js.message e)]
            | None => []
            end
       else [])
    cs.

Definition broadcasted (sockets : nat -> Socket) (message : value)
    (s : State) : State :=
  if wss s
  then mkState true (clients s) (subscription s)
         (wire s ++
          map (fun c => (c, stringify message))
            (filter (reachable sockets) (clients s)))
         (log s ++ sendErrors sockets (clients s))
  else setLog (log s ++ [mkLog Warn "WebSocket server not initialized"
                           EmptyString]) s.

(** The state [handleNewBlock] leaves. *)
Definition relayed (sockets : nat -> Socket) (blockHeader : Block)
    (s : State) : State :=
  let s' := broadcasted sockets (Str (stringify (newBlockEvent blockHeader))) s in
  setLog (log s' ++ [mkLog Info "New block received:"
                       (toString (number blockHeader))]) s'.

End WebSocketService.

(* ================================================================== *)
(** * The process: index.js with its WebSocket service *)
(* ================================================================== *)

Module Process.

Record State : Type := mkState {
  http : Gateway.State;
  ws : WebSocketService.State
}.


Inductive Event : Type :=
| Http (a : Gateway.Action)
| WsConnection (client : nat) (now : Z)
| WsClose (client : nat).

Section Run.

Variable alive : nat -> bool.
Variable sockets : nat -> WebSocketService.Socket.

Definition step (e : Event) (s : State) : State :=
  match e with
  | Http a => mkState (Gateway.step alive a (http s)) (ws s)
  | WsConnection client now =>
      mkState (http s)
        (snd (WebSocketService.connection sockets client now (ws s)))
  | WsClose client =>
      mkState (http s) (snd (WebSocketService.close client (ws s)))
  end.

Definition run (events : list Event) (s : State) : State :=
  fold_left (fun s e => step e s) events s.

(** The poll timer fires with the real service behind [poll]: the delay
    of the timer has passed, [getLatestBlockNumber] runs against the
    upstream [u], and [poll] goes on with what it settled as. *)
Definition pollWithService (u : MonadService.Upstream)
    (chain : string -> Settled (option Block))
    (s : MonadService.State * Gateway.State)
  : MonadService.State * Gateway.State :=
  let wait := match Gateway.blockPollingInterval (snd s) with
              | Some d => d
              | None => 0%Z
              end in
  let r := MonadService.getLatestBlockNumber u
             (MonadService.elapse wait (fst s)) in
  (snd r, snd (Gateway.poll alive (mkTick (fst r) chain) (snd s))).

Definition serviceLoop (u : MonadService.Upstream)
    (chains : list (string -> Settled (option Block)))
    (s : MonadService.State * Gateway.State)
  : MonadService.State * Gateway.State :=
  fold_left (fun s chain => pollWithService u chain s) chains s.

End Run.

End Process.

(* ================================================================== *)
(** * monad.js: what the governor leaves in the trace *)
(* ================================================================== *)

Module Governor.

Import MonadService.
Local Open Scope Z_scope.

(** An answer of the rate-limit class (monad.js:405). *)
Definition rateLimited {A} (r : Settled A) : bool :=
  match r with
  | Resolved _ => false
  | Rejected e => includes (message e) "request limit reached"
  end.

(** How [executeWithRetry] settles when the operation settled as [r]. *)
Definition settle {A} (r : Settled A) : Settled (option A) :=
  match r with
  | Resolved v => Resolved (Some v)
  | Rejected e => Rejected e
  end.

(** The trace of [j] retries after a first call at time [t]: the call of
    attempt [a] is followed by a wait of [retryDelay * a], and the next
    call goes out when the answer and the wait are over. *)
Fixpoint schedule (lat : nat -> N) (attempt j : nat) (t : Z) (k : nat)
  : list Effect :=
  match j with
  | O => [Call t]
  | S j' =>
      Call t :: Sleep (retryDelay * Z.of_nat attempt)
      :: schedule lat (S attempt) j'
           (t + Z.of_N (lat k) + retryDelay * Z.of_nat attempt) (S k)
  end.

(** Call times at least [minRequestInterval] apart, oldest first. *)
Fixpoint spaced (ts : list Z) : Prop :=
  match ts with
  | [] => True
  | a :: rest =>
      match rest with
      | [] => True
      | b :: _ => a + minRequestInterval <= b /\ spaced rest
      end
  end.

(** What a caller does with the service: one of the two reads, or
    nothing for a while. *)
Inductive Use : Type :=
| ReadBlockNumber
| ReadGreeting
| Idle (ms : Z).

Definition serve (u : Upstream) (x : Use) (s : State) : State :=
  match x with
  | ReadBlockNumber => snd (getLatestBlockNumber u s)
  | ReadGreeting => snd (getData u s)
  | Idle ms => elapse ms s
  end.

Definition session (u : Upstream) (uses : list Use) (s : State) : State :=
  fold_left (fun s x => serve u x s) uses s.

(** The pacing invariant of a service state: the requests sent so far are
    spaced, and none is later than the recorded [lastRequestTime]. *)
Definition pacedSoFar (s : State) : Prop :=
  spaced (callTimes (trace s)) /\
  Forall (fun t => t <= lastRequestTime s) (callTimes (trace s)).

End Governor.

(* ================================================================== *)
(** * index.js: what the poll loop keeps *)
(* ================================================================== *)

Module Tracker.

Import Gateway.

(** A fetch of [poll] fails on this tick while the last seen head is [l]:
    the head number, or the block of a head above [l]. *)
Definition fetchFails (l : N) (t : Tick) : Prop :=
  (exists e, latestBlockNumber t = Rejected e) \/
  (exists c e,
     delivers t c /\ (l < c)%N /\ getBlock t (toString c) = Rejected e).

(** What every state of index.js satisfies: the two client sets hold no
    response twice, a stopped tracker has a clean error count, and a
    running tracker has a last seen head. *)
Definition consistent (s : State) : Prop :=
  NoDup (sseClients s) /\
  NoDup (mcpClients s) /\
  (tracking s = false -> consecutiveErrors s = 0) /\
  (tracking s = true -> lastBlock s <> None).

End Tracker.

(* ================================================================== *)
(** * Framing of what goes out *)
(* ================================================================== *)

Module Framing.

(** The string holds no line feed and no carriage return. *)
Definition singleLine (s : string) : bool :=
  forallb
    (fun c =>
       negb (nat_of_ascii c =? 10)%nat && negb (nat_of_ascii c =? 13)%nat)
    (list_ascii_of_string s).

End Framing.

(* ================================================================== *)
(** * Decimal numerals *)
(* ================================================================== *)

Module Digits.

(** The numerals [00...0] and [99...9] of [k] digits. *)
Fixpoint zeros (k : nat) : Decimal.uint :=
  match k with
  | O => Decimal.Nil
  | S k' => Decimal.D0 (zeros k')
  end.

Fixpoint nines (k : nat) : Decimal.uint :=
  match k with
  | O => Decimal.Nil
  | S k' => Decimal.D9 (nines k')
  end.

End Digits.

(* ================================================================== *)
(** * index.js: the JSON-RPC endpoint [POST /mcp] *)
(* ================================================================== *)

Module McpEndpoint.

Import MonadService.
Local Open Scope string_scope.
Local Open Scope js_scope.

(** A parsed JSON value.  Numbers are the integers. *)
#[local] Unset Elimination Schemes.
Inductive JsValue : Type :=
| JNull
| JBool (b : bool)
| JNum (n : Z)
| JStr (s : string)
| JArr (items : list JsValue)
| JObj (fields : list (string * JsValue)).
#[local] Set Elimination Schemes.

(** [req.body] behind [express.json()] and [express.urlencoded()]: an
    object, or an array; [{}] when the request had no body. *)
Inductive Body : Type :=
| ObjectBody (fields : list (string * JsValue))
| ArrayBody (items : list JsValue).

(** Truthiness; [None] is [undefined]. *)
Definition truthy (v : option JsValue) : bool :=
  match v with
  | None => false
  | Some JNull => false
  | Some (JBool b) => b
  | Some (JNum n) => negb (n =? 0)%Z
  | Some (JStr s) => negb (s =? EmptyString)%string
  | Some (JArr _) => true
  | Some (JObj _) => true
  end.

(** The value a key has after [JSON.parse]: the last one given. *)
Fixpoint lookup (key : string) (fields : list (string * JsValue))
  : option JsValue :=
  match fields with
  | [] => None
  | (k, v) :: rest =>
      match lookup key rest with
      | Some later => Some later
      | None => if (k =? key)%string then Some v else None
      end
  end.

(** [request.key], for the keys read here: an array has none of them. *)
Definition prop (key : string) (request : Body) : option JsValue :=
  match request with
  | ObjectBody fields => lookup key fields
  | ArrayBody _ => None
  end.

(** ['key' in request] *)
Definition has (key : string) (request : Body) : bool :=
  match prop key request with
  | Some _ => true
  | None => false
  end.

(** [v === 'text'] *)
Definition isString (v : option JsValue) (text : string) : bool :=
  match v with
  | Some (JStr s) => (s =? text)%string
  | _ => false
  end.

(** [v || null] *)
Definition orNull (v : option JsValue) : option JsValue :=
  if truthy v then v else Some JNull.

(** [greeting || ''] *)
Definition orEmpty (greeting : option string) : string :=
  match greeting with
  | Some g => g
  | None => EmptyString
  end.

(** An object literal as [res.json] serialises it: a key whose value is
    [undefined] is left out. *)
Fixpoint json (fields : list (string * option JsValue))
  : list (string * JsValue) :=
  match fields with
  | [] => []
  | (k, Some v) :: rest => (k, v) :: json rest
  | (_, None) :: rest => json rest
  end.

(** [res.status(code).json(body)] *)
Record Response : Type := mkResponse { status : nat; body : JsValue }.

(** The service behind the endpoint, and the log. *)
Definition State : Type := (MonadService.State * list LogEntry)%type.

Definition service {A} (m : Js.M MonadService.State A) : Js.M State A :=
  fun s =>
    match m (fst s) with
    | (r, s') => (r, (s', snd s))
    end.

Definition logger (lv : Level) (text detail : string) : Js.M State unit :=
  modify (fun s : State => (fst s, (snd s ++ [mkLog lv text detail])%list)).

(** [blockNumber.toString()] on what [getLatestBlockNumber] resolved
    with. *)
Definition toStringOf (x : option string) : Js.M State string :=
  match x with
  | Some s => ret s
  | None =>
      throw (mkError "Cannot read properties of undefined (reading 'toString')")
  end.

(** The validation of index.js:322. *)
Definition invalid (request : Body) : bool :=
  negb (truthy (prop "jsonrpc" request))
  || negb (isString (prop "jsonrpc" request) "2.0")
  || negb (truthy (prop "method" request))
  || negb (has "id" request).

(** [app.post('/mcp', ...)] (index.js:318-382) *)
Definition mcpPost (u : Upstream) (request : Body) : Js.M State Response :=
  if invalid request
  then
    ret (mkResponse 400
           (JObj (json [ ("jsonrpc", Some (JStr "2.0"));
                         ("id", orNull (prop "id" request));
                         ("error",
                          Some (JObj [ ("code", JNum (-32600));
                                       ("message", JStr "Invalid Request") ]))
                       ])))
  else
    tryCatch
      (response <-
         (if isString (prop "method" request) "block/latest"
          then
            blockNumber <- service (getLatestBlockNumber u) ;;
            text <- toStringOf blockNumber ;;
            ret (JObj (json [ ("jsonrpc", Some (JStr "2.0"));
                              ("id", prop "id" request);
                              ("result",
                               Some (JObj [ ("blockNumber", JStr text) ])) ]))
          else if isString (prop "method" request) "greeting/get"
          then
            greeting <- service (getData u) ;;
            ret (JObj (json [ ("jsonrpc", Some (JStr "2.0"));
                              ("id", prop "id" request);
                              ("result",
                               Some (JObj [ ("greeting",
                                             JStr (orEmpty greeting)) ])) ]))
          else
            ret (JObj (json [ ("jsonrpc", Some (JStr "2.0"));
                              ("id", prop "id" request);
                              ("error",
                               Some (JObj [ ("code", JNum (-32601));
                                            ("message",
                                             JStr "Method not found") ])) ])))
         ;;
       ret (mkResponse 200 response))
      (fun error =>
         logger Err "Error handling MCP request:" (message error) ;;
         ret (mkResponse 500
                (JObj (json [ ("jsonrpc", Some (JStr "2.0"));
                              ("id", prop "id" request);
                              ("error",
                               Some (JObj [ ("code", JNum (-32000));
                                            ("message",
                                             JStr "Server error") ])) ])))).

(** A member of a response body. *)
Definition field (key : string) (v : JsValue) : option JsValue :=
  match v with
  | JObj fields => lookup key fields
  | _ => None
  end.

(** The JSON-RPC error object with this code and message. *)
Definition rpcError (code : Z) (text : string) : JsValue :=
  JObj [ ("code", JNum code); ("message", JStr text) ].

End McpEndpoint.

(* ================================================================== *)
(** * index.js: the initial data of [GET /sse] *)
(* ================================================================== *)

Module SseEndpoint.

Import Json.
Local Open Scope string_scope.
Local Open Scope js_scope.

(** The service, index.js, and the responses for which a
    [setTimeout(sendInitialData, 5000)] is pending; nothing cancels one. *)
Record State : Type := mkState {
  service : MonadService.State;
  gateway : Gateway.State;
  initialRetries : list nat
}.

Definition onService {A} (m : Js.M MonadService.State A) : Js.M State A :=
  fun s =>
    match m (service s) with
    | (r, s') => (r, mkState s' (gateway s) (initialRetries s))
    end.

Definition onGateway {A} (m : Js.M Gateway.State A) : Js.M State A :=
  fun s =>
    match m (gateway s) with
    | (r, g') => (r, mkState (service s) g' (initialRetries s))
    end.

(** index.js:67-70 *)
Definition currentBlock (blockNumber : string) : value :=
  Obj [ ("type", Str "current_block");
        ("data", Obj [ ("blockNumber", Str blockNumber) ]) ].

(** index.js:74-77 *)
Definition currentGreeting (greeting : string) : value :=
  Obj [ ("type", Str "current_greeting");
        ("data", Obj [ ("greeting", Str greeting) ]) ].

(** index.js:81-84 *)
Definition initialError : value :=
  Obj [ ("type", Str "error");
        ("data",
         Obj [ ("message",
                Str "Failed to fetch initial data, will retry shortly") ]) ].

Section Handlers.

Variable alive : nat -> bool.
Variable u : MonadService.Upstream.

(** [sendInitialData] of the response [res] (index.js:64-87) *)
Definition sendInitialData (res : nat) : Js.M State unit :=
  tryCatch
    (r <- onService (MonadService.getLatestBlockNumber u) ;;
     blockNumber <- onGateway (Gateway.toStringOf r) ;;
     onGateway
       (Gateway.write alive res
          (Gateway.sseData (stringify (currentBlock blockNumber)))) ;;
     greeting <- onService (MonadService.getData u) ;;
     match greeting with
     | Some g =>
         if truthyStr greeting
         then onGateway
                (Gateway.write alive res
                   (Gateway.sseData (stringify (currentGreeting g))))
         else ret tt
     | None => ret tt
     end)
    (fun error =>
       onGateway
         (Gateway.logger Err "Error sending initial SSE data:"
            (message error)) ;;
       onGateway
         (Gateway.write alive res
            (Gateway.sseData (stringify initialError))) ;;
       modify (fun s =>
                 mkState (service s) (gateway s)
                   (initialRetries s ++ [res]))).

(** One occurrence of [res] taken out of the pending timers. *)
Fixpoint fired (res : nat) (pending : list nat) : list nat :=
  match pending with
  | [] => []
  | x :: rest => if Nat.eqb x res then rest else x :: fired res rest
  end.

(** The timer of [res] fires, 5000 ms after it was set. *)
Definition initialRetry (res : nat) : Js.M State unit :=
  pending <- gets initialRetries ;;
  if member res pending
  then
    modify (fun s =>
              mkState (MonadService.elapse 5000 (service s)) (gateway s)
                (fired res pending)) ;;
    sendInitialData res
  else ret tt.

(** The timer of [res] fires [n] times in a row. *)
Fixpoint retrying (res : nat) (n : nat) (s : State) : State :=
  match n with
  | O => s
  | S n' => retrying res n' (snd (initialRetry res s))
  end.

End Handlers.

(** The three chunks. *)
Definition blockChunk (blockNumber : string) : string :=
  Gateway.sseData (stringify (currentBlock blockNumber)).

Definition greetingChunk (greeting : string) : string :=
  Gateway.sseData (stringify (currentGreeting greeting)).

Definition failureChunk : string :=
  Gateway.sseData (stringify initialError).

(** index.js after [chunks] were written to [res]. *)
Definition delivered (alive : nat -> bool) (res : nat) (chunks : list string)
    (g : Gateway.State) : Gateway.State :=
  Gateway.setWire
    (Gateway.wire g ++
     if alive res then map (fun c => (res, c)) chunks else [])%list
    g.

(** index.js after the [catch] block logged [error]. *)
Definition logged (error : Error) (g : Gateway.State) : Gateway.State :=
  Gateway.setLog
    (Gateway.log g ++
     [mkLog Err "Error sending initial SSE data:" (message error)])%list
    g.

End SseEndpoint.

(* ================================================================== *)
(** * monad.js [storeData] and services/chain.js *)
(* ================================================================== *)

(** The [logger] calls of these functions only write to the log and are
    left out, as in [MonadService]. *)

Module ChainService.

Import MonadService.
Local Open Scope string_scope.
Local Open Scope Z_scope.
Local Open Scope js_scope.

(** monad.js:54-55; never reassigned. *)
Definition defaultGasPrice : string := "1000000000".
Definition defaultGasLimit : string := "100000".

(** What [setGreeting(greeting).send(...)] settles as, and after how many
    milliseconds. *)
Record Receipt : Type := mkReceipt {
  receiptHash : string;
  receiptBlock : N
}.

Record Sent : Type := mkSent { outcome : Settled Receipt; took : Z }.

(** A transaction handed to the node: the greeting and the options of
    [send] (monad.js:365-369). *)
Record Send : Type := mkSend {
  sendGreeting : string;
  sendFrom : string;
  sendGas : string;
  sendGasPrice : string
}.

(** The service, and the transactions sent so far, oldest first.  A send
    does not pass through [executeWithRetry]: it is neither paced nor
    counted among the requests of the reads. *)
Record State : Type := mkState {
  service : MonadService.State;
  sends : list Send
}.

Definition onService {A} (m : Js.M MonadService.State A) : Js.M State A :=
  fun s =>
    match m (service s) with
    | (r, s') => (r, mkState s' (sends s))
    end.

(** monad.js:373-377 *)
Record StoreResult : Type := mkStoreResult {
  transactionHash : string;
  blockNumber : string;
  greeting : string
}.

(** [storeData] (monad.js:351-390).  [Promise.race] with the 30 s timer:
    the send wins when it settles before the timer fires. *)
Definition storeData (sent : Sent) (greeting fromAddress : string)
  : Js.M State StoreResult :=
  tryCatch
    ((if negb (truthyStr (Some defaultGasPrice))
         || negb (truthyStr (Some defaultGasLimit))
      then throw (mkError "Gas settings are undefined")
      else ret tt) ;;
     modify (fun s =>
               mkState (service s)
                 (sends s ++
                  [mkSend greeting fromAddress defaultGasLimit
                     defaultGasPrice])%list) ;;
     transaction <-
       (if took sent <? 30000
        then onService (modify (elapse (took sent))) ;; await (outcome sent)
        else onService (modify (elapse 30000)) ;;
             throw (mkError "Transaction timed out")) ;;
     ret (mkStoreResult (receiptHash transaction)
            (toString (receiptBlock transaction)) greeting))
    (fun error => throw error).

(** What [analyzeBlock] resolves with (monad.js:747-763). *)
Record TxAnalysis : Type := mkTx {
  hash : string;
  from : string;
  to : string;
  value : string;
  gasUsed : string
}.

Record BlockAnalysis : Type := mkAnalysis {
  analysedNumber : string;
  analysedTimestamp : string;
  transactionCount : nat;
  totalGasUsed : string;
  transactions : list TxAnalysis
}.

(** chain.js:26-39 *)
Record ChainResult : Type := mkChainResult {
  storedValue : string;
  storedTransactionHash : string;
  storedBlockNumber : string;
  retrievedValue : option string;
  blockGasUsed : string;
  transactionGasUsed : option string
}.

(** chain.js:89-94 *)
Record Summary : Type := mkSummary {
  summaryNumber : string;
  summaryTimestamp : string;
  summaryCount : nat;
  summaryGasUsed : string
}.

Section Chain.

Variable u : Upstream.

(** [monadService.analyzeBlock(blockNumber)], as it settles. *)
Variable analyzeBlock : string -> Settled BlockAnalysis.

(** [executeChain] (chain.js:5-52) *)
Definition executeChain (sent : Sent) (value fromAddress : string)
  : Js.M State ChainResult :=
  tryCatch
    (storeResult <- storeData sent value fromAddress ;;
     retrieved <- onService (getData u) ;;
     blockAnalysis <- await (analyzeBlock (blockNumber storeResult)) ;;
     let ourTransaction :=
       find (fun tx => (hash tx =? transactionHash storeResult)%string)
         (transactions blockAnalysis) in
     ret (mkChainResult value (transactionHash storeResult)
            (blockNumber storeResult) retrieved
            (totalGasUsed blockAnalysis)
            (option_map gasUsed ourTransaction)))
    (fun error => throw error).

(** [BigInt(latestBlock)] on what [getLatestBlockNumber] resolved with. *)
Definition bigInt (x : option string) : M Z :=
  match x with
  | Some s =>
      match BigInt s with
      | Some n => ret (Z.of_N n)
      | None => throw (mkError ("Cannot convert " ++ s ++ " to a BigInt"))
      end
  | None => throw (mkError "Cannot convert undefined to a BigInt")
  end.

(** [num.toString()] on a BigInt that is not negative. *)
Definition bigIntToString (num : Z) : string := toString (Z.to_N num).

(** [analyzeBlock(blockNumber).catch(error => null)] *)
Definition analysed (blockNumber : string) : option BlockAnalysis :=
  match analyzeBlock blockNumber with
  | Resolved a => Some a
  | Rejected _ => None
  end.

(** [results.filter(result => result !== null)] *)
Fixpoint notNull {A} (results : list (option A)) : list A :=
  match results with
  | [] => []
  | Some a :: rest => a :: notNull rest
  | None :: rest => notNull rest
  end.

(** [parallelBlockAnalysis] (chain.js:54-107) *)
Definition parallelBlockAnalysis : M (list Summary) :=
  tryCatch
    (latestBlock <- getLatestBlockNumber u ;;
     latestBlockNum <- bigInt latestBlock ;;
     let blockNumbers :=
       map bigIntToString
         (filter (fun num => 0 <=? num)
            [latestBlockNum; latestBlockNum - 1; latestBlockNum - 2]) in
     let results := map analysed blockNumbers in
     let validResults :=
       map (fun block =>
              mkSummary (analysedNumber block) (analysedTimestamp block)
                (transactionCount block) (totalGasUsed block))
         (notNull results) in
     ret validResults)
    (fun error => throw error).

End Chain.

(** The state after a send of [greeting] that took [ms]. *)
Definition stored (greeting fromAddress : string) (ms : Z) (s : State)
  : State :=
  mkState (elapse ms (service s))
    (sends s ++ [mkSend greeting fromAddress defaultGasLimit defaultGasPrice])%list.

(** The summary of one analysis. *)
Definition summary (block : BlockAnalysis) : Summary :=
  mkSummary (analysedNumber block) (analysedTimestamp block)
    (transactionCount block) (totalGasUsed block).

(** The block numbers from [n] down, at most three, none below 0. *)
Definition lastThree (n : N) : list N :=
  map (fun k => (n - N.of_nat k)%N) (seq 0 (Nat.min 3 (S (N.to_nat n)))).

End ChainService.

(* ================================================================== *)
(** * websocket.js: shutting the service down *)
(* ================================================================== *)

Module WsShutdown.

Import WebSocketService.
Local Open Scope string_scope.
Local Open Scope js_scope.

(** The service together with what its [close()] does to the outside:
    the clients whose [close()] went through, oldest first, and the number
    of [wss.close(...)] calls. *)
Record State : Type := mkState {
  ws : WebSocketService.State;
  closedClients : list nat;
  serverCloses : nat
}.

Definition onService {A} (m : Js.M WebSocketService.State A) : Js.M State A :=
  fun s =>
    match m (ws s) with
    | (r, w') => (r, mkState w' (closedClients s) (serverCloses s))
    end.

Section Handlers.

(** What [client.close()] throws, if it throws. *)
Variable closeFailure : nat -> option Error.

(** [client.close()] *)
Definition closeClient (client : nat) : Js.M State unit :=
  match closeFailure client with
  | Some error => throw error
  | None =>
      modify (fun s =>
                mkState (ws s) (closedClients s ++ [client])
                  (serverCloses s))
  end.

(** [close] of the service (websocket.js:252-269) *)
Definition close : Js.M State unit :=
  onService stopBlockHeaderSubscription ;;
  up <- gets (fun s => wss (ws s)) ;;
  if up
  then
    cs <- gets (fun s => clients (ws s)) ;;
    forEach cs
      (fun client =>
         tryCatch
           (closeClient client)
           (fun error =>
              onService
                (logger Err "Error closing client connection:"
                   (message error)))) ;;
    onService (modify (setClients [])) ;;
    modify (fun s =>
              mkState (ws s) (closedClients s) (S (serverCloses s))) ;;
    onService (modify (setWss false))
  else ret tt.

(** The callback handed to [wss.close], when the server has closed. *)
Definition serverClosed : Js.M State unit :=
  onService (logger Info "WebSocket server closed" EmptyString).

End Handlers.

(** The clients whose [close()] does not throw. *)
Definition closable (closeFailure : nat -> option Error) (client : nat)
  : bool :=
  match closeFailure client with
  | Some _ => false
  | None => true
  end.

End WsShutdown.

(* ================================================================== *)
(** * websocket.js: starting the block header subscription *)
(* ================================================================== *)

Module WsSubscribe.

Import WebSocketService.
Local Open Scope string_scope.
Local Open Scope js_scope.

(** What [web3Ws.eth.subscribe(...)] resolved with: nothing ([null] or
    [undefined]), an object without an [unsubscribe] function, or a
    subscription. *)
Inductive Handle : Type := NoHandle | Invalid | Valid.

(** What one pass through the [try] block meets: whether a WebSocket
    provider is used ([monadService.web3Ws] set and not the Monad testnet),
    what [getLatestBlockNumber()] settles as, and what [subscribe]
    settles as. *)
Record Attempt : Type := mkAttempt {
  pushAvailable : bool;
  head : Settled (option string);
  handle : Settled Handle
}.

(** The service; [invalidHandle] says that [this.subscription] holds an
    object without [unsubscribe] and without [isPolling], which
    [WebSocketService.Subscription] has no constructor for. *)
Record State : Type := mkState {
  ws : WebSocketService.State;
  invalidHandle : bool
}.

Definition onService {A} (m : Js.M WebSocketService.State A) : Js.M State A :=
  fun s =>
    match m (ws s) with
    | (r, w') => (r, mkState w' (invalidHandle s))
    end.

(** [this.subscription] is truthy. *)
Definition subscribed (s : State) : bool :=
  invalidHandle s
  || match subscription (ws s) with
     | Some _ => true
     | None => false
     end.

(** [this.subscription.isPolling] is truthy. *)
Definition isPolling (s : State) : bool :=
  negb (invalidHandle s)
  && match subscription (ws s) with
     | Some (Polling _ _) => true
     | _ => false
     end.

(** [stopBlockHeaderSubscription] (websocket.js:199-227), also for an
    object that is neither a polling descriptor nor a subscription. *)
Definition stop : Js.M State unit :=
  invalid <- gets invalidHandle ;;
  if invalid
  then
    onService
      (logger Info "Stopping block header subscription/polling"
         EmptyString) ;;
    modify (fun s => mkState (setSubscription None (ws s)) false)
  else onService stopBlockHeaderSubscription.

(** The [try] block of [startBlockHeaderSubscription]
    (websocket.js:112-166). *)
Definition attempt (a : Attempt) : Js.M State unit :=
  existing <- gets subscribed ;;
  (if existing
   then
     onService
       (logger Warn
          "Block header subscription already exists, stopping previous subscription"
          EmptyString) ;;
     stop
   else ret tt) ;;
  if negb (pushAvailable a)
  then
    onService (logger Info "Starting block header polling" EmptyString) ;;
    lastBlock <- await (head a) ;;
    onService (modify (setSubscription (Some (Polling true lastBlock)))) ;;
    onService
      (logger Info "Block header polling started successfully" EmptyString)
  else
    onService
      (logger Info "Starting block header subscription via WebSocket"
         EmptyString) ;;
    h <- await (handle a) ;;
    match h with
    | Valid =>
        onService (modify (setSubscription (Some Pushed))) ;;
        onService
          (logger Info
             "Block header subscription started successfully via WebSocket"
             EmptyString)
    | Invalid =>
        modify (fun s => mkState (setSubscription None (ws s)) true) ;;
        throw (mkError "Failed to create valid subscription")
    | NoHandle =>
        onService (modify (setSubscription None)) ;;
        throw (mkError "Failed to create valid subscription")
    end.

(** [startBlockHeaderSubscription] (websocket.js:111-179).  The [catch]
    block calls the function again; [fuel] bounds the depth of these
    calls, and [None] says that the bound was reached.  The [k]-th pass
    meets [attempts k]. *)
Fixpoint startBlockHeaderSubscription (fuel : nat) (attempts : nat -> Attempt)
    (k : nat) (s : State) : option (Settled unit * State) :=
  match fuel with
  | O => None
  | S fuel' =>
      match attempt (attempts k) s with
      | (Resolved _, s1) => Some (Resolved tt, s1)
      | (Rejected error, s1) =>
          let s2 :=
            snd (onService
                   (logger Err "Error starting block header subscription:"
                      (message error)) s1) in
          if negb (subscribed s2) || negb (isPolling s2)
          then
            startBlockHeaderSubscription fuel' attempts (S k)
              (snd (onService
                      (logger Info
                         "Falling back to polling due to subscription error"
                         EmptyString) s2))
          else
            Some (Rejected error,
                  mkState (setSubscription None (ws s2)) false)
      end
  end.

(** The pass ends without an error. *)
Definition succeeds (a : Attempt) : bool :=
  if pushAvailable a
  then match handle a with
       | Resolved Valid => true
       | _ => false
       end
  else match head a with
       | Resolved _ => true
       | Rejected _ => false
       end.

(** What [this.subscription] is after a pass that succeeded. *)
Definition started (a : Attempt) : option Subscription :=
  if pushAvailable a
  then Some Pushed
  else match head a with
       | Resolved lastBlock => Some (Polling true lastBlock)
       | Rejected _ => None
       end.

End WsSubscribe.

(* ================================================================== *)
(** * services/stdioService.js: the stdio transport *)
(* ================================================================== *)

Module StdioService.

Import Json.
Local Open Scope string_scope.
Local Open Scope js_scope.

(** stdioService.js:9-10 *)
Definition POLLING_INTERVAL : Z := 2000.
Definition ERROR_POLLING_INTERVAL : Z := 5000.

(** The fields of the service, the pending
    [setTimeout(() => this.startBlockPolling(), _)] timers, which nothing
    cancels, and what was written to standard output, one entry per
    [process.stdout.write]. *)
Record State : Type := mkState {
  isPolling : bool;
  lastBlock : option string;
  pollingInterval : option Z;
  restartTimers : nat;
  stdout : list string;
  log : list LogEntry
}.

Definition initial : State := mkState false None None 0 [] [].

Definition setIsPolling v s :=
  mkState v (lastBlock s) (pollingInterval s) (restartTimers s) (stdout s)
    (log s).
Definition setLastBlock v s :=
  mkState (isPolling s) v (pollingInterval s) (restartTimers s) (stdout s)
    (log s).
Definition setPollingInterval v s :=
  mkState (isPolling s) (lastBlock s) v (restartTimers s) (stdout s) (log s).
Definition setRestartTimers v s :=
  mkState (isPolling s) (lastBlock s) (pollingInterval s) v (stdout s)
    (log s).
Definition setStdout v s :=
  mkState (isPolling s) (lastBlock s) (pollingInterval s) (restartTimers s)
    v (log s).
Definition setLog v s :=
  mkState (isPolling s) (lastBlock s) (pollingInterval s) (restartTimers s)
    (stdout s) v.

Definition logger (lv : Level) (text detail : string) : Js.M State unit :=
  modify (fun s => setLog (log s ++ [mkLog lv text detail])%list s).

(** The line [sendMessage] writes at time [now]. *)
Definition line (now : Z) (type : string) (data : value) : string :=
  stringify (Obj [ ("type", Str type); ("data", data); ("timestamp", Num now) ])
  ++ newline.

(** [sendMessage] (stdioService.js:106-113) *)
Definition sendMessage (now : Z) (type : string) (data : value)
  : Js.M State unit :=
  modify (fun s => setStdout (stdout s ++ [line now type data])%list s).

(** [sendError] (stdioService.js:115-117) *)
Definition sendError (now : Z) (message : string) : Js.M State unit :=
  sendMessage now "error" (Obj [ ("message", Str message) ]).

(** What the two reads of [handleCommand] settle as. *)
Record Reads : Type := mkReads {
  blockNumber : Settled (option string);
  greeting : Settled (option string)
}.

(** [String(v)], as a template literal converts: [None] is [undefined].
    Numbers are the integers. *)
Fixpoint templateString (v : McpEndpoint.JsValue) : string :=
  match v with
  | McpEndpoint.JNull => "null"
  | McpEndpoint.JBool true => "true"
  | McpEndpoint.JBool false => "false"
  | McpEndpoint.JNum n => NilZero.string_of_int (Z.to_int n)
  | McpEndpoint.JStr s => s
  | McpEndpoint.JArr items =>
      (fix join (xs : list McpEndpoint.JsValue) : string :=
         match xs with
         | [] => EmptyString
         | x :: rest =>
             match x with
             | McpEndpoint.JNull => EmptyString
             | _ => templateString x
             end ++
             match rest with
             | [] => EmptyString
             | _ :: _ => "," ++ join rest
             end
         end) items
  | McpEndpoint.JObj _ => "[object Object]"
  end.

Definition template (v : option McpEndpoint.JsValue) : string :=
  match v with
  | Some x => templateString x
  | None => "undefined"
  end.

(** [x.key] where [x] may be anything: reading a property of [undefined]
    or [null] throws. *)
Definition read (key : string) (x : option McpEndpoint.JsValue)
  : Js.M State (option McpEndpoint.JsValue) :=
  match x with
  | None =>
      throw (mkError ("Cannot read properties of undefined (reading '"
                      ++ key ++ "')"))
  | Some McpEndpoint.JNull =>
      throw (mkError ("Cannot read properties of null (reading '"
                      ++ key ++ "')"))
  | Some (McpEndpoint.JObj fields) => ret (McpEndpoint.lookup key fields)
  | Some _ => ret None
  end.

(** [blockNumber.toString()] *)
Definition toStringOf (x : option string) : Js.M State string :=
  match x with
  | Some s => ret s
  | None =>
      throw (mkError "Cannot read properties of undefined (reading 'toString')")
  end.

(** [{ greeting }] as [JSON.stringify] sees it. *)
Definition greetingData (greeting : option string) : value :=
  match greeting with
  | Some g => Obj [ ("greeting", Str g) ]
  | None => Obj []
  end.

Section Handlers.

Variable now : Z.
Variable reads : Reads.

(** [handleCommand] (stdioService.js:42-59) *)
Definition handleCommand (command : option McpEndpoint.JsValue)
  : Js.M State unit :=
  tryCatch
    (action <- read "action" command ;;
     if McpEndpoint.isString action "getBlock"
     then
       r <- await (blockNumber reads) ;;
       text <- toStringOf r ;;
       sendMessage now "blockNumber" (Obj [ ("number", Str text) ])
     else if McpEndpoint.isString action "getGreeting"
     then
       g <- await (greeting reads) ;;
       sendMessage now "greeting" (greetingData g)
     else sendError now ("Unknown command: " ++ template action))
    (fun error => sendError now (message error)).

(** [handleInput] (stdioService.js:31-40); [parsed] is what
    [JSON.parse(data)] gives. *)
Definition handleInput (parsed : Settled McpEndpoint.JsValue)
  : Js.M State unit :=
  tryCatch
    (message <- await parsed ;;
     type <- read "type" (Some message) ;;
     if McpEndpoint.isString type "command"
     then
       command <- read "data" (Some message) ;;
       handleCommand command
     else ret tt)
    (fun _ => sendError now "Invalid input format").

End Handlers.

(** One firing of the poll timer: the time, and what the fetches settle
    as. *)
Record Firing : Type := mkFiring { at_ : Z; tick : Tick }.

(** [BigInt(x)] on what [getLatestBlockNumber] resolved with. *)
Definition bigInt (x : option string) : Js.M State N :=
  match x with
  | Some s =>
      match BigInt s with
      | Some n => ret n
      | None => throw (mkError ("Cannot convert " ++ s ++ " to a BigInt"))
      end
  | None => throw (mkError "Cannot convert undefined to a BigInt")
  end.

(** [BigInt(this.lastBlock)], where [lastBlock] is [null] at first. *)
Definition bigIntOfLast (x : option string) : Js.M State N :=
  match x with
  | Some s =>
      match BigInt s with
      | Some n => ret n
      | None => throw (mkError ("Cannot convert " ++ s ++ " to a BigInt"))
      end
  | None => throw (mkError "Cannot convert null to a BigInt")
  end.

(** stdioService.js:74-80 *)
Definition blockInfo (block : Block) : value :=
  Obj [ ("number", Str (toString (number block)));
        ("hash", Str (hash block));
        ("timestamp", Str (toString (timestamp block)));
        ("gasUsed", Str (orZero (gasUsed block)));
        ("miner", Str (miner block)) ].

(** [poll] (stdioService.js:68-91) *)
Definition poll (f : Firing) : Js.M State unit :=
  tryCatch
    (currentBlock <- await (latestBlockNumber (tick f)) ;;
     c <- bigInt currentBlock ;;
     last <- gets lastBlock ;;
     l <- bigIntOfLast last ;;
     (if (l <? c)%N
      then
        match currentBlock with
        | Some cur =>
            block <- await (getBlock (tick f) cur) ;;
            match block with
            | Some b =>
                sendMessage (at_ f) "newBlock" (blockInfo b) ;;
                modify (setLastBlock currentBlock)
            | None => ret tt
            end
        | None => ret tt
        end
      else ret tt) ;;
     modify (setPollingInterval (Some POLLING_INTERVAL)))
    (fun error =>
       logger Err "Error in block polling:" (message error) ;;
       modify (setPollingInterval (Some ERROR_POLLING_INTERVAL))).

(** [startBlockPolling] (stdioService.js:61-100) *)
Definition startBlockPolling (baseline : Settled (option string))
    (first : Firing) : Js.M State unit :=
  running <- gets isPolling ;;
  if running
  then ret tt
  else
    tryCatch
      (modify (setIsPolling true) ;;
       head <- await baseline ;;
       modify (setLastBlock head) ;;
       poll first ;;
       logger Info "Block polling started for stdio transport" EmptyString)
      (fun error =>
         logger Err "Error starting block polling:" (message error) ;;
         modify (setIsPolling false) ;;
         modify (fun s => setRestartTimers (S (restartTimers s)) s)).

(** [cleanup] (stdioService.js:119-126) *)
Definition cleanup : Js.M State unit :=
  timer <- gets pollingInterval ;;
  (match timer with
   | Some _ => modify (setPollingInterval None)
   | None => ret tt
   end) ;;
  modify (setIsPolling false) ;;
  logger Info "Stdio transport cleaned up" EmptyString.

(** The poll loop: one timer firing after the other. *)
Definition pollLoop (firings : list Firing) (s : State) : State :=
  fold_left (fun s f => snd (poll f s)) firings s.

(** The line that announces a block. *)
Definition newBlockLine (now : Z) (b : Block) : string :=
  line now "newBlock" (blockInfo b).

(** The line that reports an error. *)
Definition errorLine (now : Z) (message : string) : string :=
  line now "error" (Obj [ ("message", Str message) ]).

End StdioService.

(* ================================================================== *)
(** * routes/blockchain.js: the intents of [POST /chat] *)
(* ================================================================== *)

Module Chat.

Local Open Scope string_scope.

(** The branches of the keyword chain (blockchain.js:968-1153), in the
    order of the source. *)
Inductive Intent : Type :=
| Balance
| Nfts
| Activities
| Transactions
| InternalTransactions
| TokenActivities
| CollectionActivities
| TokenHolders
| NativeHolders
| CollectionHolders
| ContractSource
| TokenGating
| NotUnderstood.

(** The branch taken for [messageLower], the message in lower case. *)
Definition intent (messageLower : string) : Intent :=
  if includes messageLower "balance" || includes messageLower "tokens"
  then Balance
  else if includes messageLower "nfts" then Nfts
  else if includes messageLower "activities" then Activities
  else if includes messageLower "transactions" then Transactions
  else if includes messageLower "internal transactions"
  then InternalTransactions
  else if includes messageLower "token activities" then TokenActivities
  else if includes messageLower "collection activities"
  then CollectionActivities
  else if includes messageLower "token holders" then TokenHolders
  else if includes messageLower "native holders"
          || includes messageLower "mon holders"
  then NativeHolders
  else if includes messageLower "collection holders" then CollectionHolders
  else if includes messageLower "contract source"
          || includes messageLower "source code"
  then ContractSource
  else if includes messageLower "token gating" then TokenGating
  else NotUnderstood.

End Chat.

(* ================================================================== *)
(** * monad.js: the link to the global MCP server *)
(* ================================================================== *)

Module GlobalMcp.

Import McpEndpoint.
Local Open Scope string_scope.
Local Open Scope js_scope.

(** The capabilities sent with ['register'] (monad.js:213-221). *)
Definition capabilities : list string :=
  [ "store_data"; "get_data"; "get_balance"; "analyze_block";
    "account_tokens"; "account_nfts"; "account_activities" ].

(** [globalMcpEnabled], whether [globalMcpWs] is there and open, and the
    objects handed to [JSON.stringify] and sent, oldest first. *)
Record State : Type := mkState {
  globalMcpEnabled : bool;
  linkOpen : bool;
  sent : list (list (string * JsValue))
}.

(** The service methods behind the message types, as they settle for
    their arguments; [None] is [undefined]. *)
Record Service : Type := mkService {
  storeData : option JsValue -> option JsValue -> Settled (option JsValue);
  getData : Settled (option JsValue);
  getBalance : option JsValue -> Settled (option JsValue);
  getAccountTokens : option JsValue -> Settled (option JsValue);
  getAccountNFTs : option JsValue -> option JsValue -> Settled (option JsValue);
  getAccountActivities :
    option JsValue -> option JsValue -> Settled (option JsValue)
}.

(** [x.key], which throws on [undefined] and [null]. *)
Definition read (key : string) (x : option JsValue)
  : Js.M State (option JsValue) :=
  match x with
  | None =>
      throw (mkError ("Cannot read properties of undefined (reading '"
                      ++ key ++ "')"))
  | Some JNull =>
      throw (mkError ("Cannot read properties of null (reading '"
                      ++ key ++ "')"))
  | Some (JObj fields) => ret (lookup key fields)
  | Some _ => ret None
  end.

Section Handlers.

Variable now : Z.
Variable serverIdentifier : string.
Variable service : Service.

(** [error.code] *)
Variable codeOf : Error -> option JsValue.

(** What [globalMcpWs.send] throws, if it throws. *)
Variable sendFailure : option Error.

(** [sendGlobalMcpMessage] (monad.js:263-271).  No message built here has
    a [timestamp] or a [server] of its own. *)
Definition sendGlobalMcpMessage (message : list (string * option JsValue))
  : Js.M State unit :=
  up <- gets (fun s => globalMcpEnabled s && linkOpen s) ;;
  if up
  then
    match sendFailure with
    | Some error => throw error
    | None =>
        modify (fun s =>
                  mkState (globalMcpEnabled s) (linkOpen s)
                    (sent s ++
                     [json (message ++
                            [ ("timestamp", Some (JNum now));
                              ("server", Some (JStr serverIdentifier)) ])])%list)
    end
  else ret tt.

(** [handleGlobalMcpMessage] (monad.js:273-323), for a message that is an
    object. *)
Definition handleGlobalMcpMessage (message : list (string * JsValue))
  : Js.M State unit :=
  let type := lookup "type" message in
  let data := lookup "data" message in
  let requestId := lookup "requestId" message in
  tryCatch
    (response <-
       (if isString type "store_data"
        then
          greeting <- read "greeting" data ;;
          fromAddress <- read "fromAddress" data ;;
          await (storeData service greeting fromAddress)
        else if isString type "get_data"
        then await (getData service)
        else if isString type "get_balance"
        then
          address <- read "address" data ;;
          await (getBalance service address)
        else if isString type "get_account_tokens"
        then
          address <- read "address" data ;;
          await (getAccountTokens service address)
        else if isString type "get_account_nfts"
        then
          address <- read "address" data ;;
          pageIndex <- read "pageIndex" data ;;
          await (getAccountNFTs service address pageIndex)
        else if isString type "get_account_activities"
        then
          address <- read "address" data ;;
          limit <- read "limit" data ;;
          await (getAccountActivities service address limit)
        else
          throw (mkError ("Unsupported message type: "
                          ++ StdioService.template type))) ;;
     sendGlobalMcpMessage
       [ ("type", Some (JStr "response"));
         ("requestId", requestId);
         ("data", response) ])
    (fun error =>
       sendGlobalMcpMessage
         [ ("type", Some (JStr "error"));
           ("requestId", requestId);
           ("error",
            Some (JObj (json [ ("message", Some (JStr (Js.message error)));
                               ("code", codeOf error) ]))) ]).

End Handlers.

(** The reply to a message of an unsupported type, whose error carries
    no [code]. *)
Definition unsupported (now : Z) (serverIdentifier : string) (type : string)
    (requestId : option JsValue) : list (string * JsValue) :=
  json [ ("type", Some (JStr "error"));
         ("requestId", requestId);
         ("error",
          Some (JObj [ ("message",
                        JStr ("Unsupported message type: " ++ type)) ]));
         ("timestamp", Some (JNum now));
         ("server", Some (JStr serverIdentifier)) ].

(** A computation that leaves the state alone. *)
Definition reads {A} (m : Js.M State A) : Prop := forall s, snd (m s) = s.

End GlobalMcp.

(* ================================================================== *)
(** * Concrete chains, blocks and sessions *)
(* ================================================================== *)

Module Scenario.

Import MonadService.
Local Open Scope string_scope.

Definition rateLimited : Error :=
  mkError "Returned error: request limit reached".

Definition refused : Error := mkError "connect ECONNREFUSED 127.0.0.1:8545".

(** Two rate-limit answers, then block 105; every call takes 30 ms. *)
Definition flaky : Upstream :=
  mkUpstream
    (fun k => match k with
              | 0 | 1 => Rejected rateLimited
              | _ => Resolved 105%N
              end)
    (fun _ => Resolved "hello")
    (fun _ => 30%N).

(** A node that is down. *)
Definition down : Upstream :=
  mkUpstream (fun _ => Rejected refused) (fun _ => Rejected refused)
    (fun _ => 30%N).

(** A node that answers every request with a rate-limit error. *)
Definition throttled : Upstream :=
  mkUpstream (fun _ => Rejected rateLimited) (fun _ => Rejected rateLimited)
    (fun _ => 30%N).

(** A fresh development chain: head 0, empty greeting. *)
Definition fresh : Upstream :=
  mkUpstream (fun _ => Resolved 0%N) (fun _ => Resolved EmptyString)
    (fun _ => 30%N).

(** A service whose two cache entries were filled 500 ms ago. *)
Definition warm : State :=
  mkState 10500 10000
    (mkCache (mkEntry (Some 105%N) 10000 2000)
       (mkEntry (Some "hello") 10000 5000))
    2 [].

(** The same service one minute later. *)
Definition stale : State :=
  mkState 70500 10000
    (mkCache (mkEntry (Some 105%N) 10000 2000)
       (mkEntry (Some "hello") 10000 5000))
    2 [].

(** A service that cached head 0 and the empty greeting 500 ms ago. *)
Definition warmFalsy : State :=
  mkState 10500 10000
    (mkCache (mkEntry (Some 0%N) 10000 2000)
       (mkEntry (Some EmptyString) 10000 5000))
    2 [].

(** ** A chain for the trackers *)

Definition block (n : N) : Block :=
  mkBlock n ("0xb10c" ++ toString n) (1700000000 + 2 * n) (Some 21000%N)
    "0x00000000000000000000000000000000000000aa" None None None
    ["0x7a01"; "0x7a02"].

(** A provider that knows the blocks [known] and answers by number. *)
Definition chainOf (known : list N) (s : string) : Settled (option Block) :=
  match find (fun n => String.eqb s (toString n)) known with
  | Some n => Resolved (Some (block n))
  | None => Resolved None
  end.

Definition known : list N := [100; 101; 102; 105]%N.

(** A tick on which the head is [n]. *)
Definition head (n : N) : Tick :=
  mkTick (Resolved (Some (toString n))) (chainOf known).

(** A tick on which the node cannot be reached. *)
Definition outage : Tick :=
  mkTick (Rejected refused) (fun _ => Rejected refused).

(** A tick on which the head is [n] but the block lookup fails. *)
Definition halfOutage (n : N) : Tick :=
  mkTick (Resolved (Some (toString n))) (fun _ => Rejected refused).

(** A tick on which the head is [n] and the node does not have the block
    yet. *)
Definition notYet (n : N) : Tick :=
  mkTick (Resolved (Some (toString n))) (fun _ => Resolved None).

Definition everyone : nat -> bool := fun _ => true.

(** Every socket open and healthy. *)
Definition healthy : nat -> WebSocketService.Socket :=
  fun _ => WebSocketService.mkSocket WebSocketService.OPEN None.


(** An index.js whose poll loop runs with baseline 100 for two SSE
    clients. *)
Definition polling : Gateway.State :=
  Gateway.mkState [1; 2] [] (Some Gateway.POLLING_INTERVAL) (Some "100") 0 0
    [] [] [].

(** A WebSocket service polling with baseline 100 for two clients. *)
Definition wsPolling : WebSocketService.State :=
  WebSocketService.mkState true [1; 2]
    (Some (WebSocketService.Polling true (Some "100"))) [] [].

(** A WebSocket service polling with baseline 99. *)
Definition wsPollingFrom99 : WebSocketService.State :=
  WebSocketService.mkState true [1; 2]
    (Some (WebSocketService.Polling true (Some "99"))) [] [].

(** A WebSocket service fed by a provider subscription. *)
Definition wsPushed : WebSocketService.State :=
  WebSocketService.mkState true [1; 2] (Some WebSocketService.Pushed) [] [].

(** ** Requests to [POST /mcp] *)

Definition askBlock : McpEndpoint.Body :=
  McpEndpoint.ObjectBody
    [ ("jsonrpc", McpEndpoint.JStr "2.0");
      ("method", McpEndpoint.JStr "block/latest");
      ("id", McpEndpoint.JNum 7) ].

(** A notification: a request without [id]. *)
Definition notifyBlock : McpEndpoint.Body :=
  McpEndpoint.ObjectBody
    [ ("jsonrpc", McpEndpoint.JStr "2.0");
      ("method", McpEndpoint.JStr "block/latest") ].

(** ** A transaction for the execution chain *)

(** The send is mined in block 101 after 1.5 s. *)
Definition mined : ChainService.Sent :=
  ChainService.mkSent (Resolved (ChainService.mkReceipt "0x7a01" 101)) 1500.

(** The send is still pending when the timer fires. *)
Definition pending : ChainService.Sent :=
  ChainService.mkSent (Resolved (ChainService.mkReceipt "0x7a01" 101)) 45000.

(** A node that analyses every block but block 4. *)
Definition analyses (blockNumber : string)
  : Settled ChainService.BlockAnalysis :=
  if (blockNumber =? "4")%string
  then Rejected (mkError "Block not found")
  else Resolved
         (ChainService.mkAnalysis blockNumber "1700000000" 1 "21000"
            [ChainService.mkTx "0x7a01" "0xaa" "0xbb" "0" "21000"]).

(** ** Lines for the stdio transport *)

(** [{"type":"command","data":{"action":"getBlock"}}], parsed. *)
Definition getBlockCommand : McpEndpoint.JsValue :=
  McpEndpoint.JObj
    [ ("type", McpEndpoint.JStr "command");
      ("data", McpEndpoint.JObj [ ("action", McpEndpoint.JStr "getBlock") ]) ].

(** Reads against a node that is down. *)
Definition noReads : StdioService.Reads :=
  StdioService.mkReads (Rejected refused) (Rejected refused).

(** A stdio transport polling with baseline 100. *)
Definition stdioPolling : StdioService.State :=
  StdioService.mkState true (Some "100")
    (Some StdioService.POLLING_INTERVAL) 0 [] [].

End Scenario.
(* ================================================================== *)
(** * Facts about the JavaScript primitives *)
(* ================================================================== *)

Module JsFacts.

Lemma to_uint_nonnil (n : N) : N.to_uint n <> Decimal.Nil.
Proof.
  destruct n as [|p]; [discriminate|].
  apply DecimalPos.Unsigned.to_uint_nonnil.
Qed.

(** [toString] is one-to-one. *)
Lemma toString_inj (a b : N) : toString a = toString b -> a = b.
Proof.
  unfold toString; intros H.
  apply DecimalN.Unsigned.to_uint_inj.
  assert (Ha := NilZero.usu _ (to_uint_nonnil a)).
  assert (Hb := NilZero.usu _ (to_uint_nonnil b)).
  rewrite H in Ha; congruence.
Qed.

(** [BigInt(n.toString())] gives [n] back. *)
Lemma BigInt_toString (n : N) : BigInt (toString n) = Some n.
Proof.
  unfold BigInt, toString.
  rewrite (NilZero.usu _ (to_uint_nonnil n)); simpl.
  now rewrite DecimalN.Unsigned.of_to.
Qed.



End JsFacts.

(* ================================================================== *)
(** * The retry governor and the cache *)
(* ================================================================== *)

Module RetryFacts.

Import MonadService.
Local Open Scope Z_scope.

(** Reduce record projections and pairs, leave the arithmetic alone. *)
Ltac fields :=
  cbn [now lastRequestTime cache rpcCalls trace fst snd sleep ret throw] in *.

Lemma pace_eq (s : State) : pace s = (Resolved tt, paced s).
Proof.
  unfold paced, pace, bind, dateNow, readLastRequestTime, writeLastRequestTime.
  destruct (now s - lastRequestTime s <? minRequestInterval); reflexivity.
Qed.

(** Pacing only waits: it touches neither the cache nor the call counter,
    and it leaves [lastRequestTime] at the moment the call goes out. *)
Lemma paced_frame (s : State) :
  rpcCalls (paced s) = rpcCalls s /\
  cache (paced s) = cache s /\
  lastRequestTime (paced s) = now (paced s) /\
  now s <= now (paced s) /\
  lastRequestTime s + minRequestInterval <= now (paced s) /\
  exists pre, trace (paced s) = trace s ++ pre /\ callTimes pre = [].
Proof.
  unfold paced, pace, bind, dateNow, readLastRequestTime, writeLastRequestTime,
    minRequestInterval.
  destruct (now s - lastRequestTime s <? 1000) eqn:E; fields.
  - apply Z.ltb_lt in E.
    do 5 (split; [reflexivity || lia|]).
    exists [Sleep (1000 - (now s - lastRequestTime s))]. now split.
  - apply Z.ltb_ge in E.
    do 5 (split; [reflexivity || lia|]).
    exists []. now rewrite app_nil_r.
Qed.

(** With the previous request far enough back, pacing does not wait. *)
Lemma paced_no_wait (s : State) :
  lastRequestTime s + minRequestInterval <= now s ->
  paced s = mkState (now s) (now s) (cache s) (rpcCalls s) (trace s).
Proof.
  unfold paced, pace, bind, dateNow, readLastRequestTime, writeLastRequestTime.
  intros H.
  destruct (now s - lastRequestTime s <? minRequestInterval) eqn:E.
  - apply Z.ltb_lt in E. lia.
  - reflexivity.
Qed.

(** One iteration of the loop, by the outcome of the operation. *)
Lemma attemptOnce_eq (A : Type) (operation : M A) (retries attempt : nat)
    (s : State) :
  attemptOnce operation retries attempt s =
  match operation (paced s) with
  | (Resolved v, s1) => (Resolved (Done v), s1)
  | (Rejected e, s1) =>
      if includes (message e) "request limit reached"
         && (attempt <? retries)%nat
      then (Resolved Continue, snd (sleep (retryDelay * Z.of_nat attempt) s1))
      else (Rejected e, s1)
  end.
Proof.
  unfold attemptOnce, tryCatch, bind. rewrite pace_eq.
  destruct (operation (paced s)) as [[v|e] s1]; [reflexivity|].
  destruct (includes (message e) "request limit reached"
            && (attempt <? retries)%nat); reflexivity.
Qed.

Lemma retryLoop_S (A : Type) (operation : M A) (retries attempt fuel : nat)
    (s : State) :
  retryLoop operation retries attempt (S fuel) s =
  match attemptOnce operation retries attempt s with
  | (Resolved (Done v), s1) => (Resolved (Some v), s1)
  | (Resolved Continue, s1) => retryLoop operation retries (S attempt) fuel s1
  | (Rejected e, s1) => (Rejected e, s1)
  end.
Proof.
  simpl. unfold bind.
  destruct (attemptOnce operation retries attempt s) as [[[v|]|e] s1];
    reflexivity.
Qed.

Lemma rpc_oneRequest (A : Type) (answer : nat -> Settled A) (lat : nat -> N) :
  oneRequest (rpc answer lat).
Proof. intros s; reflexivity. Qed.

Lemma fetchBlockNumber_eq (u : Upstream) (s : State) :
  fetchBlockNumber u s =
  let k := rpcCalls s in
  let t := now s + Z.of_N (rtt u k) in
  match blockNumberAt u k with
  | Resolved bn =>
      (Resolved (toString bn),
       mkState t (lastRequestTime s)
         (mkCache (mkEntry (Some bn) t (ttl (latestBlock (cache s))))
            (greeting (cache s)))
         (S k) (trace s ++ [Call (now s)]))
  | Rejected e =>
      (Rejected e,
       mkState t (lastRequestTime s) (cache s) (S k)
         (trace s ++ [Call (now s)]))
  end.
Proof.
  unfold fetchBlockNumber, bind, rpc, readCache, dateNow, writeCache, ret.
  destruct (blockNumberAt u (rpcCalls s)); reflexivity.
Qed.

Lemma fetchGreeting_eq (u : Upstream) (s : State) :
  fetchGreeting u s =
  let k := rpcCalls s in
  let t := now s + Z.of_N (rtt u k) in
  match greetingAt u k with
  | Resolved g =>
      (Resolved g,
       mkState t (lastRequestTime s)
         (mkCache (latestBlock (cache s))
            (mkEntry (Some g) t (ttl (greeting (cache s)))))
         (S k) (trace s ++ [Call (now s)]))
  | Rejected e =>
      (Rejected e,
       mkState t (lastRequestTime s) (cache s) (S k)
         (trace s ++ [Call (now s)]))
  end.
Proof.
  unfold fetchGreeting, bind, rpc, readCache, dateNow, writeCache, ret.
  destruct (greetingAt u (rpcCalls s)); reflexivity.
Qed.

Lemma fetchBlockNumber_oneRequest (u : Upstream) :
  oneRequest (fetchBlockNumber u).
Proof.
  intros s. rewrite fetchBlockNumber_eq; simpl.
  destruct (blockNumberAt u (rpcCalls s)); reflexivity.
Qed.

Lemma fetchGreeting_oneRequest (u : Upstream) : oneRequest (fetchGreeting u).
Proof.
  intros s. rewrite fetchGreeting_eq; simpl.
  destruct (greetingAt u (rpcCalls s)); reflexivity.
Qed.

(** The loop never un-counts a request. *)
Lemma retryLoop_calls_le (A : Type) (operation : M A) (retries : nat) :
  oneRequest operation ->
  forall fuel attempt s,
    (rpcCalls s <= rpcCalls (snd (retryLoop operation retries attempt fuel s)))%nat.
Proof.
  intros Hop fuel; induction fuel as [|fuel IH]; intros attempt s.
  - simpl. lia.
  - rewrite retryLoop_S, attemptOnce_eq.
    pose proof (Hop (paced s)) as H1.
    destruct (paced_frame s) as (Hc & _).
    destruct (operation (paced s)) as [[v|e] s1]; fields; [lia|].
    destruct (includes (message e) "request limit reached"
              && (attempt <? retries)%nat); fields; [|lia].
    etransitivity; [|apply IH]. fields. lia.
Qed.

(** With at least one iteration, at least one request goes out. *)
Lemma executeWithRetry_calls_lt (A : Type) (operation : M A) (retries : nat)
    (s : State) :
  oneRequest operation -> (1 <= retries)%nat ->
  (rpcCalls s < rpcCalls (snd (executeWithRetry operation retries s)))%nat.
Proof.
  intros Hop Hr. unfold executeWithRetry.
  destruct retries as [|r]; [lia|].
  rewrite retryLoop_S, attemptOnce_eq.
  pose proof (Hop (paced s)) as H1.
  destruct (paced_frame s) as (Hc & _).
  destruct (operation (paced s)) as [[v|e] s1]; fields; [lia|].
  destruct (includes (message e) "request limit reached" && (1 <? S r)%nat);
    fields; [|lia].
  eapply Nat.lt_le_trans; [|apply retryLoop_calls_le; exact Hop]. fields. lia.
Qed.

End RetryFacts.

Module RetryClaims.

Import MonadService RetryFacts.
Local Open Scope Z_scope.

Lemma rpc_issues (A : Type) (answer : nat -> Settled A) (lat : nat -> N) :
  issues (rpc answer lat) answer lat.
Proof. intros s. unfold rpc; fields. repeat split. Qed.

Lemma fetchBlockNumber_issues (u : Upstream) :
  issues (fetchBlockNumber u)
    (fun k => match blockNumberAt u k with
              | Resolved bn => Resolved (toString bn)
              | Rejected e => Rejected e
              end)
    (rtt u).
Proof.
  intros s. rewrite fetchBlockNumber_eq. cbv zeta.
  destruct (blockNumberAt u (rpcCalls s)); fields; repeat split.
Qed.

Lemma fetchGreeting_issues (u : Upstream) :
  issues (fetchGreeting u) (greetingAt u) (rtt u).
Proof.
  intros s. rewrite fetchGreeting_eq. cbv zeta.
  destruct (greetingAt u (rpcCalls s)); fields; repeat split.
Qed.

(** The state in which the operation is invoked again after a wait of at
    least [minRequestInterval]: no pacing wait is added. *)
Lemma paced_after_wait (s : State) (d : Z) :
  minRequestInterval <= d ->
  lastRequestTime s <= now s ->
  paced (snd (sleep d s))
  = mkState (now s + d) (now s + d) (cache s) (rpcCalls s)
      (trace s ++ [Sleep d]).
Proof.
  intros Hd Hl. unfold minRequestInterval in Hd.
  rewrite paced_no_wait; fields.
  - now rewrite Z.max_r by lia.
  - unfold minRequestInterval. lia.
Qed.

(** A rate-limit error before the last attempt: wait, then go round. *)
Lemma attemptOnce_rate_limited (A : Type) (operation : M A)
    (retries attempt : nat) (s : State) (e : Error) :
  fst (operation (paced s)) = Rejected e ->
  includes (message e) "request limit reached" = true ->
  (attempt < retries)%nat ->
  attemptOnce operation retries attempt s
  = (Resolved Continue,
     snd (sleep (retryDelay * Z.of_nat attempt) (snd (operation (paced s))))).
Proof.
  intros Hf Hc Ha. rewrite attemptOnce_eq.
  destruct (operation (paced s)) as [r s1]. cbn [fst snd] in *. subst r.
  apply Nat.ltb_lt in Ha. now rewrite Hc, Ha.
Qed.

Lemma attemptOnce_resolved (A : Type) (operation : M A)
    (retries attempt : nat) (s : State) (v : A) :
  fst (operation (paced s)) = Resolved v ->
  attemptOnce operation retries attempt s
  = (Resolved (Done v), snd (operation (paced s))).
Proof.
  intros Hf. rewrite attemptOnce_eq.
  destruct (operation (paced s)) as [r s1]. cbn [fst snd] in *. now subst r.
Qed.

(** An error of another class ends the loop where it occurred. *)
Lemma attemptOnce_other_error (A : Type) (operation : M A)
    (retries attempt : nat) (s s1 : State) (e : Error) :
  operation (paced s) = (Rejected e, s1) ->
  includes (message e) "request limit reached" = false ->
  attemptOnce operation retries attempt s = (Rejected e, s1).
Proof. intros Hf Hc. now rewrite attemptOnce_eq, Hf, Hc. Qed.

(** C5.  An operation that hits the rate limit on its first two calls and
    succeeds on the third is called exactly three times: the wrapper waits
    [retryDelay * 1] before the second call and [retryDelay * 2] before the
    third, consecutive calls are at least [minRequestInterval] apart, and
    the value of the third call is returned. *)
Theorem retry_two_rate_limits_then_success
    (A : Type) (operation : M A) (answer : nat -> Settled A) (lat : nat -> N)
    (s : State) (e1 e2 : Error) (v : A)
    (Hop : issues operation answer lat)
    (H1 : answer (rpcCalls s) = Rejected e1)
    (R1 : includes (message e1) "request limit reached" = true)
    (H2 : answer (S (rpcCalls s)) = Rejected e2)
    (R2 : includes (message e2) "request limit reached" = true)
    (H3 : answer (S (S (rpcCalls s))) = Resolved v) :
  exists s' pre t1 t2 t3,
    executeWithRetry operation maxRetries s = (Resolved (Some v), s') /\
    rpcCalls s' = (rpcCalls s + 3)%nat /\
    trace s' =
      trace s ++ pre ++
      [Call t1; Sleep (retryDelay * 1); Call t2; Sleep (retryDelay * 2); Call t3] /\
    callTimes pre = [] /\
    lastRequestTime s + minRequestInterval <= t1 /\
    t2 = t1 + Z.of_N (lat (rpcCalls s)) + retryDelay * 1 /\
    t3 = t2 + Z.of_N (lat (S (rpcCalls s))) + retryDelay * 2 /\
    t1 + minRequestInterval <= t2 /\
    t2 + minRequestInterval <= t3.
Proof.
  destruct (paced_frame s) as (Hk & Hc & Hl & Hn & Hp & pre & Ht & Hpre).
  unfold executeWithRetry, maxRetries.
  (* first call *)
  destruct (Hop (paced s)) as (Fr1 & Fn1 & Fl1 & Fk1 & Ft1).
  rewrite Hk in Fr1, Fn1, Fk1. rewrite H1 in Fr1.
  rewrite retryLoop_S,
    (@attemptOnce_rate_limited A operation 3 1 s e1 Fr1 R1) by lia.
  set (s1 := snd (operation (paced s))) in *.
  (* second call *)
  assert (P1 : paced (snd (sleep (retryDelay * Z.of_nat 1) s1))
               = mkState (now s1 + retryDelay * 1) (now s1 + retryDelay * 1)
                   (cache s1) (rpcCalls s1)
                   (trace s1 ++ [Sleep (retryDelay * 1)])).
  { apply paced_after_wait; [unfold retryDelay, minRequestInterval|]; lia. }
  set (p1 := paced (snd (sleep _ s1))) in *.
  destruct (Hop p1) as (Fr2 & Fn2 & Fl2 & Fk2 & Ft2).
  replace (rpcCalls p1) with (S (rpcCalls s)) in Fr2, Fn2, Fk2
    by (rewrite P1; fields; now rewrite Fk1).
  replace (now p1) with (now s1 + retryDelay * 1) in Fn2, Ft2
    by now rewrite P1.
  replace (lastRequestTime p1) with (now s1 + retryDelay * 1) in Fl2
    by now rewrite P1.
  replace (trace p1) with (trace s1 ++ [Sleep (retryDelay * 1)]) in Ft2
    by now rewrite P1.
  rewrite H2 in Fr2.
  rewrite retryLoop_S,
    (@attemptOnce_rate_limited A operation 3 2 _ e2 Fr2 R2) by lia.
  change (paced (snd (sleep (retryDelay * Z.of_nat 1) s1))) with p1.
  set (s2 := snd (operation p1)) in *.
  (* third call *)
  assert (P2 : paced (snd (sleep (retryDelay * Z.of_nat 2) s2))
               = mkState (now s2 + retryDelay * 2) (now s2 + retryDelay * 2)
                   (cache s2) (rpcCalls s2)
                   (trace s2 ++ [Sleep (retryDelay * 2)])).
  { apply paced_after_wait; [unfold retryDelay, minRequestInterval|]; lia. }
  set (p2 := paced (snd (sleep _ s2))) in *.
  destruct (Hop p2) as (Fr3 & Fn3 & Fl3 & Fk3 & Ft3).
  replace (rpcCalls p2) with (S (S (rpcCalls s))) in Fr3, Fn3, Fk3
    by (rewrite P2; fields; now rewrite Fk2).
  replace (now p2) with (now s2 + retryDelay * 2) in Fn3, Ft3
    by now rewrite P2.
  replace (lastRequestTime p2) with (now s2 + retryDelay * 2) in Fl3
    by now rewrite P2.
  replace (trace p2) with (trace s2 ++ [Sleep (retryDelay * 2)]) in Ft3
    by now rewrite P2.
  rewrite H3 in Fr3.
  rewrite retryLoop_S, (@attemptOnce_resolved A operation 3 3 _ v Fr3).
  change (paced (snd (sleep (retryDelay * Z.of_nat 2) s2))) with p2.
  set (s3 := snd (operation p2)) in *.
  exists s3, pre, (now (paced s)), (now s1 + retryDelay * 1),
    (now s2 + retryDelay * 2).
  split; [reflexivity|].
  split; [lia|].
  split.
  { rewrite Ft3, Ft2, Ft1, Ht. repeat rewrite <- app_assoc. reflexivity. }
  split; [exact Hpre|].
  split; [exact Hp|].
  unfold retryDelay, minRequestInterval in *.
  repeat split; lia.
Qed.

(** C6.  An error that is not of the rate-limit class is not retried: the
    wrapper ends in the state the first and only invocation of the
    operation left, with the error that invocation threw; for an operation
    that is one outbound request, one request has gone out. *)
Theorem other_errors_are_not_retried
    (A : Type) (operation : M A) (retries : nat) (s s1 : State) (e : Error)
    (Hretries : (1 <= retries)%nat)
    (Hfail : operation (paced s) = (Rejected e, s1))
    (Hclass : includes (message e) "request limit reached" = false) :
  executeWithRetry operation retries s = (Rejected e, s1) /\
  (oneRequest operation -> rpcCalls s1 = S (rpcCalls s)).
Proof.
  split.
  - unfold executeWithRetry. destruct retries as [|r]; [lia|].
    now rewrite retryLoop_S,
      (@attemptOnce_other_error A operation (S r) 1 s s1 e Hfail Hclass).
  - intros Hone. specialize (Hone (paced s)). rewrite Hfail in Hone.
    destruct (paced_frame s) as (Hk & _). cbn [snd] in Hone. lia.
Qed.

Lemma retry_two_rate_limits_then_success_witness :
  exists s' pre t1 t2 t3,
    executeWithRetry (fetchBlockNumber Scenario.flaky) maxRetries (initial 500)
    = (Resolved (Some "105"%string), s') /\
    rpcCalls s' = 3%nat /\
    trace s' =
      [] ++ pre ++
      [Call t1; Sleep (retryDelay * 1); Call t2; Sleep (retryDelay * 2); Call t3] /\
    callTimes pre = [] /\
    0 + minRequestInterval <= t1 /\
    t2 = t1 + 30 + retryDelay * 1 /\
    t3 = t2 + 30 + retryDelay * 2 /\
    t1 + minRequestInterval <= t2 /\
    t2 + minRequestInterval <= t3.
Proof.
  apply (@retry_two_rate_limits_then_success string
           (fetchBlockNumber Scenario.flaky) _ (rtt Scenario.flaky)
           (initial 500) Scenario.rateLimited Scenario.rateLimited
           "105"%string (fetchBlockNumber_issues Scenario.flaky));
    reflexivity.
Defined.

Lemma other_errors_are_not_retried_witness :
  let s1 := mkState 1030 1000 (cache (initial 500)) 1 [Sleep 500; Call 1000] in
  executeWithRetry (fetchBlockNumber Scenario.down) 3 (initial 500)
  = (Rejected Scenario.refused, s1) /\
  rpcCalls s1 = S (rpcCalls (initial 500)).
Proof.
  destruct (@other_errors_are_not_retried string
              (fetchBlockNumber Scenario.down) 3 (initial 500)
              (mkState 1030 1000 (cache (initial 500)) 1 [Sleep 500; Call 1000])
              Scenario.refused)
    as (Hrun & Hcalls).
  - repeat constructor.
  - reflexivity.
  - reflexivity.
  - split; [exact Hrun|].
    exact (Hcalls (fetchBlockNumber_oneRequest Scenario.down)).
Defined.

End RetryClaims.

Module CacheClaims.

Import MonadService RetryFacts.
Local Open Scope Z_scope.

Lemma getLatestBlockNumber_miss (u : Upstream) (s : State) :
  truthyN (value (latestBlock (cache s)))
  && (now s - timestamp (latestBlock (cache s)) <? ttl (latestBlock (cache s)))
  = false ->
  getLatestBlockNumber u s = executeWithRetry (fetchBlockNumber u) maxRetries s.
Proof.
  intros H. unfold getLatestBlockNumber, bind, readCache, dateNow.
  now rewrite H.
Qed.

Lemma getData_miss (u : Upstream) (s : State) :
  truthyStr (value (greeting (cache s)))
  && (now s - timestamp (greeting (cache s)) <? ttl (greeting (cache s)))
  = false ->
  getData u s = executeWithRetry (fetchGreeting u) maxRetries s.
Proof.
  intros H. unfold getData, bind, readCache, dateNow.
  now rewrite H.
Qed.

Lemma fresh_block_fetch (u : Upstream) (s : State) :
  (rpcCalls s
   < rpcCalls (snd (executeWithRetry (fetchBlockNumber u) maxRetries s)))%nat.
Proof.
  apply executeWithRetry_calls_lt;
    [apply fetchBlockNumber_oneRequest | unfold maxRetries; lia].
Qed.

Lemma fresh_greeting_fetch (u : Upstream) (s : State) :
  (rpcCalls s
   < rpcCalls (snd (executeWithRetry (fetchGreeting u) maxRetries s)))%nat.
Proof.
  apply executeWithRetry_calls_lt;
    [apply fetchGreeting_oneRequest | unfold maxRetries; lia].
Qed.

(** The put: a fetch that resolves stores the value with the time of the
    answer and keeps the entry's TTL; the wrapper returns it. *)
Lemma fetch_puts_block (u : Upstream) (s : State) (bn : N) :
  blockNumberAt u (rpcCalls s) = Resolved bn ->
  exists s',
    executeWithRetry (fetchBlockNumber u) maxRetries s
    = (Resolved (Some (toString bn)), s') /\
    latestBlock (cache s')
    = mkEntry (Some bn) (now s') (ttl (latestBlock (cache s))) /\
    rpcCalls s' = S (rpcCalls s).
Proof.
  intros H. destruct (paced_frame s) as (Hk & Hc & _).
  unfold executeWithRetry, maxRetries.
  rewrite retryLoop_S, attemptOnce_eq, fetchBlockNumber_eq. cbv zeta.
  rewrite Hk, H, Hc. eexists. split; [reflexivity|]. now fields.
Qed.

Lemma fetch_puts_greeting (u : Upstream) (s : State) (g : string) :
  greetingAt u (rpcCalls s) = Resolved g ->
  exists s',
    executeWithRetry (fetchGreeting u) maxRetries s = (Resolved (Some g), s') /\
    greeting (cache s')
    = mkEntry (Some g) (now s') (ttl (greeting (cache s))) /\
    rpcCalls s' = S (rpcCalls s).
Proof.
  intros H. destruct (paced_frame s) as (Hk & Hc & _).
  unfold executeWithRetry, maxRetries.
  rewrite retryLoop_S, attemptOnce_eq, fetchGreeting_eq. cbv zeta.
  rewrite Hk, H, Hc. eexists. split; [reflexivity|]. now fields.
Qed.


(** C10.  A cached zero block number or empty greeting is falsy: the read
    ignores the entry although it is within its TTL, and fetches. *)
Theorem falsy_cached_value_is_refetched (u : Upstream) (s : State) :
  (value (latestBlock (cache s)) = Some 0%N ->
   now s - timestamp (latestBlock (cache s)) < ttl (latestBlock (cache s)) ->
   getLatestBlockNumber u s
   = executeWithRetry (fetchBlockNumber u) maxRetries s /\
   (rpcCalls s < rpcCalls (snd (getLatestBlockNumber u s)))%nat) /\
  (value (greeting (cache s)) = Some EmptyString ->
   now s - timestamp (greeting (cache s)) < ttl (greeting (cache s)) ->
   getData u s = executeWithRetry (fetchGreeting u) maxRetries s /\
   (rpcCalls s < rpcCalls (snd (getData u s)))%nat).
Proof.
  split; intros Hv _.
  - assert (E : getLatestBlockNumber u s
                = executeWithRetry (fetchBlockNumber u) maxRetries s)
      by (apply getLatestBlockNumber_miss; now rewrite Hv).
    split; [exact E|]. rewrite E. apply fresh_block_fetch.
  - assert (E : getData u s
                = executeWithRetry (fetchGreeting u) maxRetries s)
      by (apply getData_miss; now rewrite Hv).
    split; [exact E|]. rewrite E. apply fresh_greeting_fetch.
Qed.



Lemma falsy_cached_value_is_refetched_witness :
  (rpcCalls Scenario.warmFalsy
   < rpcCalls (snd (getLatestBlockNumber Scenario.fresh Scenario.warmFalsy)))%nat /\
  (rpcCalls Scenario.warmFalsy
   < rpcCalls (snd (getData Scenario.fresh Scenario.warmFalsy)))%nat.
Proof.
  destruct (falsy_cached_value_is_refetched Scenario.fresh Scenario.warmFalsy)
    as (Hb & Hg).
  split; [apply Hb | apply Hg]; reflexivity.
Defined.

End CacheClaims.

(* ================================================================== *)
(** * The poll loop of index.js *)
(* ================================================================== *)

Module GatewayFacts.

Import Json Gateway JsFacts.
Local Open Scope string_scope.
Local Open Scope list_scope.

Lemma setWire_same (s : State) : setWire (wire s ++ []) s = s.
Proof. destruct s; unfold setWire; simpl. now rewrite app_nil_r. Qed.

(** Writing one chunk to every client reaches exactly the live ones. *)
Lemma forEach_write (alive : nat -> bool) (chunk : string) (cs : list nat) :
  forall s,
    forEach cs (fun c => write alive c chunk) s
    = (Resolved tt,
       setWire (wire s ++ map (fun c => (c, chunk)) (filter alive cs)) s).
Proof.
  induction cs as [|c cs IH]; intros s.
  - simpl. unfold ret. now rewrite setWire_same.
  - simpl. unfold bind at 1. unfold write at 1, modify.
    destruct (alive c); rewrite IH; [|reflexivity].
    destruct s; unfold setWire; simpl. now rewrite <- app_assoc.
Qed.

(** [poll], one case per way through its body. *)
Lemma poll_unfold (alive : nat -> bool) (t : Tick) (s : State) :
  poll alive t s =
  (Resolved tt,
   match latestBlockNumber t with
   | Rejected e => caught alive e s
   | Resolved None => caught alive undefinedToString s
   | Resolved (Some cur) =>
       match BigInt cur with
       | None => caught alive (notBigInt cur) s
       | Some c =>
           match lastBlock s with
           | None => caught alive nullBigInt s
           | Some last =>
               match BigInt last with
               | None => caught alive (notBigInt last) s
               | Some l =>
                   if (l <? c)%N
                   then match getBlock t cur with
                        | Rejected e => caught alive e s
                        | Resolved None => quiet s
                        | Resolved (Some b) => announced alive cur b s
                        end
                   else quiet s
               end
           end
       end
   end).
Proof.
  assert (Hcatch : forall e,
    (logger Err "Error in SSE block polling:" (message e) ;;
     modify (fun s => setConsecutiveErrors (S (consecutiveErrors s)) s) ;;
     n <- gets consecutiveErrors ;;
     (if (MAX_CONSECUTIVE_ERRORS <=? n)%nat
      then
        clients <- gets sseClients ;;
        forEach clients
          (fun client => write alive client (sseData (stringify errorEvent)))
      else ret tt) ;;
     modify (setBlockPollingInterval (Some ERROR_POLLING_INTERVAL)))%js s
    = (Resolved tt, caught alive e s)).
  { intros e. unfold bind, logger, modify, gets, caught.
    cbn [fst snd consecutiveErrors setLog setConsecutiveErrors].
    destruct (MAX_CONSECUTIVE_ERRORS <=? S (consecutiveErrors s))%nat.
    - cbn [sseClients setLog setConsecutiveErrors]. rewrite forEach_write.
      destruct s; reflexivity.
    - destruct s; unfold ret, setBlockPollingInterval; simpl.
      now rewrite app_nil_r. }
  unfold poll, tryCatch. unfold bind at 1. unfold await at 1.
  destruct (latestBlockNumber t) as [[cur|]|e];
    [ | unfold toStringOf, bind, throw; apply Hcatch | apply Hcatch ].
  unfold toStringOf, bigInt, bind, ret, throw, gets.
  destruct (BigInt cur) as [c|]; [|apply Hcatch].
  destruct (lastBlock s) as [last|]; [|apply Hcatch].
  destruct (BigInt last) as [l|]; [|apply Hcatch].
  destruct (l <? c)%N.
  - unfold await. destruct (getBlock t cur) as [[b|]|e]; [ | | apply Hcatch].
    + rewrite forEach_write. unfold modify, logger.
      destruct s; reflexivity.
    + unfold modify. destruct s; reflexivity.
  - unfold modify. destruct s; reflexivity.
Qed.

(** ** What one subscriber sees *)

Lemma received_app (c : nat) (w1 w2 : list (nat * string)) :
  received c (w1 ++ w2) = received c w1 ++ received c w2.
Proof. unfold received. now rewrite filter_app, map_app. Qed.

Lemma received_nil (c : nat) : received c [] = [].
Proof. reflexivity. Qed.

Lemma member_In (c : nat) (cs : list nat) : member c cs = true <-> In c cs.
Proof.
  unfold member. rewrite existsb_exists. split.
  - intros (x & Hx & E). apply Nat.eqb_eq in E. now subst.
  - intros H. exists c. split; [exact H | apply Nat.eqb_refl].
Qed.

(** A fan-out of one chunk over a duplicate-free set reaches each selected
    member once. *)
Lemma received_fanout (p : nat -> bool) (x : string) (c : nat)
    (cs : list nat) :
  NoDup cs ->
  received c (map (fun k => (k, x)) (filter p cs))
  = if p c && member c cs then [x] else [].
Proof.
  induction cs as [|k cs IH]; intros Hnd.
  - now rewrite andb_false_r.
  - inversion Hnd as [|? ? Hk Hcs]; subst.
    specialize (IH Hcs). unfold member in *. cbn [existsb filter].
    destruct (Nat.eqb_spec c k) as [->|Hne].
    + assert (Hm : existsb (Nat.eqb k) cs = false).
      { apply not_true_is_false. intros H. apply Hk.
        now apply (member_In k cs). }
      rewrite Hm, andb_false_r in IH. rewrite orb_true_l, andb_true_r.
      destruct (p k).
      * cbn [map]. unfold received in *. cbn [filter fst].
        rewrite Nat.eqb_refl. cbn [map snd]. now rewrite IH.
      * exact IH.
    + rewrite orb_false_l. destruct (p k); [|exact IH].
      cbn [map]. unfold received in *. cbn [filter fst].
      assert (E : Nat.eqb k c = false) by (apply Nat.eqb_neq; congruence).
      now rewrite E.
Qed.

Lemma newBlockChunk_is_block (b : Block) :
  isNewBlockChunk (newBlockChunk b) = true.
Proof. reflexivity. Qed.

Lemma errorChunk_is_not_block : isNewBlockChunk errorChunk = false.
Proof. reflexivity. Qed.

(** ** One tick that delivers a head *)

Lemma poll_delivered (alive : nat -> bool) (t : Tick) (s : State) (l c : N) :
  lastBlock s = Some (toString l) ->
  delivers t c ->
  snd (poll alive t s) =
  if (l <? c)%N
  then match getBlock t (toString c) with
       | Rejected e => caught alive e s
       | Resolved None => quiet s
       | Resolved (Some b) => announced alive (toString c) b s
       end
  else quiet s.
Proof.
  intros Hl Hc. rewrite poll_unfold. cbn [snd].
  rewrite Hc, Hl, !BigInt_toString. reflexivity.
Qed.

Lemma poll_resolves (alive : nat -> bool) (t : Tick) (s : State) :
  fst (poll alive t s) = Resolved tt.
Proof. now rewrite poll_unfold. Qed.

Lemma pollLoop_cons (alive : nat -> bool) (t : Tick) (ticks : list Tick)
    (s : State) :
  pollLoop alive (t :: ticks) s = pollLoop alive ticks (snd (poll alive t s)).
Proof. reflexivity. Qed.

Lemma lt_sorted_cons (l c : N) (rest : list N) :
  (l < c)%N ->
  StronglySorted N.lt (c :: rest) ->
  StronglySorted N.lt (l :: c :: rest).
Proof.
  intros Hlc Hs. constructor; [exact Hs|].
  constructor; [exact Hlc|].
  apply StronglySorted_inv in Hs. destruct Hs as (_ & Hall).
  eapply Forall_impl; [|exact Hall].
  intros a Ha. eapply N.lt_trans; eassumption.
Qed.


(** What one tick does to the poll loop: the set of subscribers stays, and
    either the last seen head stays and no block chunk goes out, or a block
    above it is written to every live subscriber and becomes the last seen
    head. *)
Lemma poll_step (alive : nat -> bool) (t : Tick) (s : State) (l : N) :
  lastBlock s = Some (toString l) ->
  honest t ->
  decimalHead t ->
  sseClients (snd (poll alive t s)) = sseClients s /\
  ((lastBlock (snd (poll alive t s)) = Some (toString l) /\
    exists other,
      wire (snd (poll alive t s)) = wire s ++ other /\
      forall c, NoDup (sseClients s) ->
                filter isNewBlockChunk (received c other) = []) \/
   (exists b,
      (l < number b)%N /\
      lastBlock (snd (poll alive t s)) = Some (toString (number b)) /\
      wire (snd (poll alive t s))
      = wire s ++
        map (fun k => (k, newBlockChunk b)) (filter alive (sseClients s)))).
Proof.
  intros Hl Hh Hd.
  assert (Hcaught : forall e,
    sseClients (caught alive e s) = sseClients s /\
    ((lastBlock (caught alive e s) = Some (toString l) /\
      exists other,
        wire (caught alive e s) = wire s ++ other /\
        forall c, NoDup (sseClients s) ->
                  filter isNewBlockChunk (received c other) = []) \/
     (exists b,
        (l < number b)%N /\
        lastBlock (caught alive e s) = Some (toString (number b)) /\
        wire (caught alive e s)
        = wire s ++
          map (fun k => (k, newBlockChunk b)) (filter alive (sseClients s))))).
  { intros e. split; [reflexivity|]. left. split; [exact Hl|].
    eexists. split; [reflexivity|]. intros c Hnd.
    destruct (MAX_CONSECUTIVE_ERRORS <=? S (consecutiveErrors s))%nat;
      [|reflexivity].
    fold errorChunk. rewrite received_fanout by exact Hnd.
    destruct (alive c && member c (sseClients s)); [|reflexivity].
    cbn [filter]. now rewrite errorChunk_is_not_block. }
  assert (Hquiet :
    sseClients (quiet s) = sseClients s /\
    ((lastBlock (quiet s) = Some (toString l) /\
      exists other,
        wire (quiet s) = wire s ++ other /\
        forall c, NoDup (sseClients s) ->
                  filter isNewBlockChunk (received c other) = []) \/
     (exists b,
        (l < number b)%N /\
        lastBlock (quiet s) = Some (toString (number b)) /\
        wire (quiet s)
        = wire s ++
          map (fun k => (k, newBlockChunk b)) (filter alive (sseClients s))))).
  { split; [reflexivity|]. left. split; [exact Hl|].
    exists []. split; [cbn; now rewrite app_nil_r | reflexivity]. }
  rewrite poll_unfold. cbn [snd].
  destruct (latestBlockNumber t) as [[cur|]|e] eqn:Hcur;
    [ | apply Hcaught | apply Hcaught ].
  destruct (Hd cur Hcur) as (c & ->).
  rewrite Hl, !BigInt_toString.
  destruct (N.ltb_spec l c) as [Hlt|Hle]; [|exact Hquiet].
  destruct (getBlock t (toString c)) as [[b|]|e] eqn:Hb;
    [ | exact Hquiet | apply Hcaught ].
  apply Hh in Hb. apply toString_inj in Hb. subst c.
  split; [reflexivity|]. right. exists b. repeat split. exact Hlt.
Qed.

(** The poll loop announces blocks with strictly increasing numbers, all
    above the baseline, and every live subscriber gets exactly those. *)
Lemma pollLoop_increasing (alive : nat -> bool) :
  forall ticks s l,
    lastBlock s = Some (toString l) ->
    Forall honest ticks ->
    Forall decimalHead ticks ->
    NoDup (sseClients s) ->
    exists bs added,
      StronglySorted N.lt (l :: map number bs) /\
      wire (pollLoop alive ticks s) = wire s ++ added /\
      forall c,
        filter isNewBlockChunk (received c added)
        = if alive c && member c (sseClients s)
          then map newBlockChunk bs
          else [].
Proof.
  induction ticks as [|t ticks IH]; intros s l Hl Hh Hd Hnd.
  - exists [], []. repeat split.
    + constructor; constructor.
    + cbn. now rewrite app_nil_r.
    + intros c. now destruct (alive c && member c (sseClients s)).
  - inversion Hh as [|? ? Ht Hts]; subst.
    inversion Hd as [|? ? Hdt Hdts]; subst.
    rewrite pollLoop_cons.
    destruct (@poll_step alive t s l Hl Ht Hdt)
      as (Hc & [(Hl' & other & Hw' & Hf) | (b & Hlt & Hl' & Hw')]).
    + destruct (IH (snd (poll alive t s)) l Hl' Hts Hdts)
        as (bs & added & Hs & Hw & Hr); [now rewrite Hc|].
      exists bs, (other ++ added). repeat split.
      * exact Hs.
      * now rewrite Hw, Hw', <- app_assoc.
      * intros c. rewrite received_app, filter_app, Hr, Hc.
        now rewrite (Hf c Hnd).
    + destruct (IH (snd (poll alive t s)) (number b) Hl' Hts Hdts)
        as (bs & added & Hs & Hw & Hr); [now rewrite Hc|].
      exists (b :: bs),
        (map (fun k => (k, newBlockChunk b)) (filter alive (sseClients s))
         ++ added).
      repeat split.
      * cbn [map]. now apply lt_sorted_cons.
      * now rewrite Hw, Hw', <- app_assoc.
      * intros c. rewrite received_app, filter_app, Hr, Hc.
        rewrite received_fanout by exact Hnd.
        destruct (alive c && member c (sseClients s)); [|reflexivity].
        cbn [filter]. now rewrite newBlockChunk_is_block.
Qed.

End GatewayFacts.

(* ================================================================== *)
(** * The poll loop on top of the service *)
(* ================================================================== *)

Module ServiceLoopFacts.

Import MonadService RetryFacts.
Local Open Scope string_scope.
Local Open Scope list_scope.

(** What the wrapper returns is something the operation returned. *)
Lemma retryLoop_returns (A : Type) (operation : M A) (P : A -> Prop) :
  (forall s v, fst (operation s) = Resolved v -> P v) ->
  forall fuel retries attempt s v,
    fst (retryLoop operation retries attempt fuel s) = Resolved (Some v) ->
    P v.
Proof.
  intros Hop fuel. induction fuel as [|fuel IH]; intros retries attempt s v.
  - cbn. discriminate.
  - rewrite retryLoop_S, attemptOnce_eq.
    pose proof (Hop (paced s)) as H1.
    destruct (operation (paced s)) as [[v'|e] s1]; cbn [fst] in *.
    + intros [= <-]. now apply H1.
    + destruct (includes (message e) "request limit reached"
                && (attempt <? retries)%nat); [apply IH | discriminate].
Qed.

(** [getLatestBlockNumber] resolves with the decimal string of a number. *)
Lemma getLatestBlockNumber_decimal (u : Upstream) (s : State) (str : string) :
  fst (getLatestBlockNumber u s) = Resolved (Some str) ->
  exists n, str = toString n.
Proof.
  unfold getLatestBlockNumber, bind, readCache, dateNow.
  destruct (truthyN (value (latestBlock (cache s)))
            && (now s - timestamp (latestBlock (cache s))
                <? ttl (latestBlock (cache s)))%Z).
  - cbn. destruct (value (latestBlock (cache s))) as [v|]; [|discriminate].
    intros [= <-]. now exists v.
  - unfold executeWithRetry.
    apply (@retryLoop_returns string (fetchBlockNumber u)
             (fun v => exists n, v = toString n)).
    intros s0 v. rewrite fetchBlockNumber_eq. cbv zeta.
    destruct (blockNumberAt u (rpcCalls s0)) as [bn|e]; [|discriminate].
    intros [= <-]. now exists bn.
Qed.

Lemma serviceLoop_cons (alive : nat -> bool) (u : Upstream)
    (chain : string -> Settled (option Block))
    (chains : list (string -> Settled (option Block)))
    (s : State * Gateway.State) :
  Process.serviceLoop alive u (chain :: chains) s
  = Process.serviceLoop alive u chains (Process.pollWithService alive u chain s).
Proof. reflexivity. Qed.

(** A run of the poll loop on top of the service is a run of the poll loop
    on ticks that hand over decimal heads. *)
Lemma serviceLoop_is_pollLoop (alive : nat -> bool) (u : Upstream) :
  forall chains s,
    Forall (fun chain => forall r, honest (mkTick r chain)) chains ->
    exists ticks,
      Forall honest ticks /\
      Forall decimalHead ticks /\
      snd (Process.serviceLoop alive u chains s)
      = Gateway.pollLoop alive ticks (snd s).
Proof.
  induction chains as [|chain chains IH]; intros s Hh.
  - exists []. repeat split; constructor.
  - inversion Hh as [|? ? Hc Hcs]; subst.
    rewrite serviceLoop_cons.
    destruct (IH (Process.pollWithService alive u chain s) Hcs)
      as (ticks & Ht & Hd & E).
    set (wait := match Gateway.blockPollingInterval (snd s) with
                 | Some d => d
                 | None => 0%Z
                 end).
    set (r := getLatestBlockNumber u (elapse wait (fst s))).
    exists (mkTick (fst r) chain :: ticks). repeat split.
    + constructor; [apply Hc | exact Ht].
    + constructor; [|exact Hd].
      intros str Hstr. cbn [latestBlockNumber] in Hstr.
      now apply getLatestBlockNumber_decimal in Hstr.
    + rewrite E. reflexivity.
Qed.

(** Whatever the upstream answers, the poll loop on top of the service
    announces blocks with strictly increasing numbers above the baseline. *)
Lemma serviceLoop_increasing (alive : nat -> bool) (u : Upstream) :
  forall chains s l,
    Gateway.lastBlock (snd s) = Some (toString l) ->
    Forall (fun chain => forall r, honest (mkTick r chain)) chains ->
    NoDup (Gateway.sseClients (snd s)) ->
    exists bs added,
      StronglySorted N.lt (l :: map number bs) /\
      Gateway.wire (snd (Process.serviceLoop alive u chains s))
      = Gateway.wire (snd s) ++ added /\
      forall c,
        filter Gateway.isNewBlockChunk (received c added)
        = if alive c && member c (Gateway.sseClients (snd s))
          then map Gateway.newBlockChunk bs
          else [].
Proof.
  intros chains s l Hl Hh Hnd.
  destruct (serviceLoop_is_pollLoop alive u s Hh) as (ticks & Ht & Hd & E).
  rewrite E. now apply GatewayFacts.pollLoop_increasing.
Qed.

End ServiceLoopFacts.

(* ================================================================== *)
(** * The WebSocket service *)
(* ================================================================== *)

Module WebSocketFacts.

Import Json WebSocketService JsFacts.
Local Open Scope string_scope.
Local Open Scope list_scope.

(** The loop inside [broadcast]: every failure is caught where it occurs. *)
Lemma forEach_send (sockets : nat -> Socket) (data : string) (cs : list nat) :
  forall s,
    forEach cs
      (fun client =>
         if isOpen (readyState (sockets client))
         then
           tryCatch
             (send sockets client data)
             (fun error =>
                logger Err "Error broadcasting to client:" (Js.message error))
         else ret tt) s
    = (Resolved tt,
       mkState (wss s) (clients s) (subscription s)
         (wire s ++ map (fun c => (c, data)) (filter (reachable sockets) cs))
         (log s ++ sendErrors sockets cs)).
Proof.
  induction cs as [|c cs IH]; intros s.
  - cbn. unfold ret. destruct s; cbn. now rewrite !app_nil_r.
  - cbn [forEach filter]. unfold sendErrors. cbn [flat_map].
    fold (sendErrors sockets cs). unfold bind at 1.
    destruct (isOpen (readyState (sockets c))) eqn:Ho.
    + unfold tryCatch, send.
      destruct (sendFailure (sockets c)) as [e|] eqn:Hf.
      * assert (Hr : reachable sockets c = false)
          by (unfold reachable; now rewrite Ho, Hf).
        rewrite Hr. unfold throw, logger, modify. rewrite IH.
        destruct s; cbn. now rewrite <- app_assoc.
      * assert (Hr : reachable sockets c = true)
          by (unfold reachable; now rewrite Ho, Hf).
        rewrite Hr. unfold modify. rewrite IH.
        destruct s; cbn. now rewrite <- app_assoc.
    + assert (Hr : reachable sockets c = false)
        by (unfold reachable; now rewrite Ho).
      rewrite Hr. unfold ret. rewrite IH. reflexivity.
Qed.

Lemma broadcast_eq (sockets : nat -> Socket) (message : value) (s : State) :
  broadcast sockets message s = (Resolved tt, broadcasted sockets message s).
Proof.
  unfold broadcast, broadcasted, bind, gets.
  destruct (wss s) eqn:E; cbn [negb].
  - rewrite forEach_send. now rewrite E.
  - reflexivity.
Qed.

Lemma handleNewBlock_eq (sockets : nat -> Socket) (h : Block) (s : State) :
  handleNewBlock sockets h s = (Resolved tt, relayed sockets h s).
Proof.
  unfold handleNewBlock, bind. rewrite broadcast_eq. reflexivity.
Qed.

Lemma relayed_frame (sockets : nat -> Socket) (h : Block) (s : State) :
  wss (relayed sockets h s) = wss s /\
  clients (relayed sockets h s) = clients s /\
  subscription (relayed sockets h s) = subscription s /\
  wire (relayed sockets h s)
  = wire s ++
    if wss s
    then map (fun c => (c, newBlockFrame h))
           (filter (reachable sockets) (clients s))
    else [].
Proof.
  unfold relayed, broadcasted.
  destruct s as [up cs sub w lg]; destruct up; cbn;
    repeat split; now rewrite ?app_nil_r.
Qed.

(** One interval callback that is handed a head. *)
Lemma intervalCallback_delivered (sockets : nat -> Socket) (t : Tick)
    (s : State) (active : bool) (l c : N) :
  subscription s = Some (Polling active (Some (toString l))) ->
  delivers t c ->
  snd (intervalCallback sockets t s) =
  if strGt (toString c) (toString l)
  then match getBlock t (toString c) with
       | Rejected e =>
           setLog (log s ++ [mkLog Err "Error in block polling:" (message e)]) s
       | Resolved None => s
       | Resolved (Some b) =>
           setSubscription (Some (Polling active (Some (toString c))))
             (relayed sockets b s)
       end
  else s.
Proof.
  intros Hs Hc. unfold intervalCallback. unfold bind at 1, gets at 1.
  rewrite Hs. unfold tryCatch, bind, await. rewrite Hc. cbn [jsGt].
  destruct (strGt (toString c) (toString l)); [|reflexivity].
  destruct (getBlock t (toString c)) as [[b|]|e]; try reflexivity.
  rewrite handleNewBlock_eq. reflexivity.
Qed.




(** A remark on the comparison at websocket.js:129.  The two heads are
    decimal strings and are compared as strings, so head 100 after baseline
    99 is not found greater: block 100 is not relayed and the baseline
    stays.  Repeats are still suppressed, which is all the lemma above
    needs. *)
Lemma head_100_after_99_is_not_relayed :
  let s := pollLoop Scenario.healthy [Scenario.head 100] Scenario.wsPollingFrom99 in
  wire s = [] /\
  subscription s = Some (Polling true (Some "99")).
Proof. vm_compute. split; reflexivity. Qed.

End WebSocketFacts.

(* ================================================================== *)
(** * Head tracking and fan-out *)
(* ================================================================== *)

Module TrackerClaims.

Import Json Scenario.
Local Open Scope string_scope.
Local Open Scope list_scope.

Lemma chainOf_honest (ns : list N) (latest : Settled (option string)) :
  honest (mkTick latest (chainOf ns)).
Proof.
  intros s b. cbn [getBlock]. unfold chainOf.
  destruct (find (fun n => String.eqb s (toString n)) ns) as [n|] eqn:F;
    [|discriminate].
  apply find_some in F. destruct F as (_ & E). apply String.eqb_eq in E.
  intros [= <-]. exact E.
Qed.








(** C8.  When a fetch inside [poll] fails, whether the head number or the
    block, [poll] still resolves: it logs the error, leaves [lastBlock]
    alone and schedules itself after [ERROR_POLLING_INTERVAL] (5000 ms);
    the next poll whose fetches succeed schedules itself after
    [POLLING_INTERVAL] (2000 ms) again. *)
Theorem failed_fetch_slows_the_loop_down
    (alive : nat -> bool) (t next : Tick) (s : Gateway.State) (e : Error)
    (l c n : N) (answer : option Block)
    (Hbase : Gateway.lastBlock s = Some (toString l))
    (Hfail : latestBlockNumber t = Rejected e
             \/ (delivers t c /\ (l < c)%N
                 /\ getBlock t (toString c) = Rejected e))
    (Hnext : delivers next n)
    (Hanswer : getBlock next (toString n) = Resolved answer) :
  let s1 := snd (Gateway.poll alive t s) in
  let s2 := snd (Gateway.poll alive next s1) in
  fst (Gateway.poll alive t s) = Resolved tt /\
  Gateway.lastBlock s1 = Gateway.lastBlock s /\
  Gateway.blockPollingInterval s1 = Some 5000%Z /\
  Gateway.log s1
  = Gateway.log s ++ [mkLog Err "Error in SSE block polling:" (message e)] /\
  fst (Gateway.poll alive next s1) = Resolved tt /\
  Gateway.blockPollingInterval s2 = Some 2000%Z /\
  Gateway.consecutiveErrors s2 = 0.
Proof.
  intros s1 s2.
  assert (E1 : s1 = Gateway.caught alive e s).
  { subst s1. destruct Hfail as [Hh | (Hh & Hlt & Hb)].
    - rewrite GatewayFacts.poll_unfold. cbn [snd]. now rewrite Hh.
    - rewrite (@GatewayFacts.poll_delivered alive t s l c Hbase Hh).
      apply N.ltb_lt in Hlt. now rewrite Hlt, Hb. }
  assert (Hl1 : Gateway.lastBlock s1 = Some (toString l))
    by (rewrite E1; exact Hbase).
  split; [apply GatewayFacts.poll_resolves|].
  split; [now rewrite E1|].
  split; [now rewrite E1|].
  split; [now rewrite E1|].
  split; [apply GatewayFacts.poll_resolves|].
  subst s2.
  rewrite (@GatewayFacts.poll_delivered alive next s1 l n Hl1 Hnext), Hanswer.
  destruct (l <? n)%N; [destruct answer|]; split; reflexivity.
Qed.

Lemma failed_fetch_slows_the_loop_down_witness :
  let s1 := snd (Gateway.poll everyone outage polling) in
  let s2 := snd (Gateway.poll everyone (head 101) s1) in
  Gateway.lastBlock s1 = Some "100" /\
  Gateway.blockPollingInterval s1 = Some 5000%Z /\
  Gateway.blockPollingInterval s2 = Some 2000%Z.
Proof.
  destruct (@failed_fetch_slows_the_loop_down everyone outage (head 101)
              polling refused 100 0 101 (Some (block 101)))
    as (_ & Hl & Ht & _ & _ & Hn & _).
  - reflexivity.
  - left. reflexivity.
  - reflexivity.
  - reflexivity.
  - split; [exact Hl | split; [exact Ht | exact Hn]].
Defined.






(** C3 fails on the code.  With one SSE client and one MCP-SSE client
    connected, closing the MCP-SSE client stops the poll loop although an
    SSE client is still subscribed.  And a start that failed leaves a timer
    behind which starts the poll loop after the only client has gone. *)
Theorem tracker_does_not_follow_the_subscriber_count :
  let s1 :=
    Gateway.run everyone
      [ Gateway.SseOpen 1 (Resolved (Some "100")) (head 100);
        Gateway.McpOpen 2 "1700000000001" (Resolved (Some "100")) (head 100);
        Gateway.McpClose 2 "1700000000001" ]
      Gateway.initial in
  let s2 :=
    Gateway.run everyone
      [ Gateway.SseOpen 1 (Rejected refused) outage;
        Gateway.SseClose 1;
        Gateway.RestartTimer (Resolved (Some "100")) (head 100) ]
      Gateway.initial in
  (Gateway.sseClients s1 = [1] /\
   Gateway.mcpClients s1 = [] /\
   Gateway.subscribers s1 = 1 /\
   Gateway.tracking s1 = false) /\
  (Gateway.subscribers s2 = 0 /\
   Gateway.tracking s2 = true).
Proof. vm_compute. repeat split. Qed.




End TrackerClaims.

(* ================================================================== *)
(** * More on the retry governor and the cache *)
(* ================================================================== *)

Module GovernorFacts.

Import MonadService RetryFacts Governor.
Local Open Scope Z_scope.

Lemma paced_after_retry_wait (s : State) (attempt : nat) :
  (1 <= attempt)%nat ->
  lastRequestTime s <= now s ->
  paced (snd (sleep (retryDelay * Z.of_nat attempt) s))
  = mkState (now s + retryDelay * Z.of_nat attempt)
      (now s + retryDelay * Z.of_nat attempt) (cache s) (rpcCalls s)
      (trace s ++ [Sleep (retryDelay * Z.of_nat attempt)]).
Proof.
  intros Ha Hl.
  assert (Hd : minRequestInterval <= retryDelay * Z.of_nat attempt)
    by (unfold minRequestInterval, retryDelay; lia).
  unfold minRequestInterval in Hd.
  rewrite paced_no_wait; fields.
  - now rewrite Z.max_r by lia.
  - unfold minRequestInterval. lia.
Qed.

(** The loop, from any attempt on: [j] rate-limit answers, then an answer
    that ends it. *)
Lemma retryLoop_schedule (A : Type) (operation : M A)
    (answer : nat -> Settled A) (lat : nat -> N) (retries : nat) :
  issues operation answer lat ->
  forall j attempt fuel s,
    (1 <= attempt)%nat ->
    (j < fuel)%nat ->
    (attempt + j <= retries)%nat ->
    (forall i, (i < j)%nat -> rateLimited (answer (rpcCalls s + i)%nat) = true) ->
    rateLimited (answer (rpcCalls s + j)%nat) = false
    \/ (attempt + j)%nat = retries ->
    exists s',
      retryLoop operation retries attempt fuel s
      = (settle (answer (rpcCalls s + j)%nat), s') /\
      rpcCalls s' = (rpcCalls s + j + 1)%nat /\
      trace s'
      = trace (paced s)
        ++ schedule lat attempt j (now (paced s)) (rpcCalls s).
Proof.
  intros Hop j. induction j as [|j IH]; intros attempt fuel s Ha Hf Hr Hrl Hend.
  - destruct fuel as [|fuel]; [lia|].
    destruct (paced_frame s) as (Hk & _).
    destruct (Hop (paced s)) as (Fr & _ & _ & Fk & Ft).
    rewrite Hk in Fr, Fk. rewrite Nat.add_0_r in *.
    rewrite retryLoop_S, attemptOnce_eq.
    destruct (operation (paced s)) as [r s1]. cbn [fst snd] in *. subst r.
    exists s1. split; [|split; [lia | exact Ft]].
    destruct (answer (rpcCalls s)) as [v|e]; [reflexivity|]. cbn [settle].
    destruct Hend as [Hend|Hend].
    + cbn [rateLimited] in Hend. now rewrite Hend.
    + replace (attempt <? retries)%nat with false
        by (symmetry; apply Nat.ltb_ge; lia).
      now rewrite andb_false_r.
  - destruct fuel as [|fuel]; [lia|].
    destruct (paced_frame s) as (Hk & _ & Hl & _).
    destruct (Hop (paced s)) as (Fr & Fn & Fl & Fk & Ft).
    rewrite Hk in Fr, Fn, Fk.
    pose proof (Hrl 0%nat ltac:(lia)) as H0. rewrite Nat.add_0_r in H0.
    rewrite retryLoop_S, attemptOnce_eq.
    destruct (operation (paced s)) as [r s1]. cbn [fst snd] in *. subst r.
    destruct (answer (rpcCalls s)) as [v|e]; [discriminate|].
    cbn [rateLimited] in H0. rewrite H0.
    replace (attempt <? retries)%nat with true
      by (symmetry; apply Nat.ltb_lt; lia).
    cbn [andb].
    set (s1' := snd (sleep (retryDelay * Z.of_nat attempt) s1)).
    assert (P : paced s1'
                = mkState (now s1 + retryDelay * Z.of_nat attempt)
                    (now s1 + retryDelay * Z.of_nat attempt) (cache s1)
                    (rpcCalls s1)
                    (trace s1 ++ [Sleep (retryDelay * Z.of_nat attempt)])).
    { apply paced_after_retry_wait; lia. }
    assert (K : rpcCalls s1' = S (rpcCalls s)) by (subst s1'; fields; lia).
    destruct (IH (S attempt) fuel s1') as (s' & E & Ec & Et).
    + lia.
    + lia.
    + lia.
    + intros i Hi. rewrite K.
      replace (S (rpcCalls s) + i)%nat with (rpcCalls s + S i)%nat by lia.
      apply Hrl. lia.
    + rewrite K.
      replace (S (rpcCalls s) + j)%nat with (rpcCalls s + S j)%nat by lia.
      destruct Hend as [Hend|Hend]; [now left | right; lia].
    + rewrite K in E, Ec.
      replace (S (rpcCalls s) + j)%nat with (rpcCalls s + S j)%nat in E by lia.
      exists s'. split; [exact E|]. split; [lia|].
      rewrite Et, K, P. fields. rewrite Ft, Fn.
      cbn [schedule]. rewrite <- !app_assoc. reflexivity.
Qed.

(** ** Bounds on the number of requests *)

Lemma retryLoop_calls_bound (A : Type) (operation : M A) (retries : nat) :
  oneRequest operation ->
  forall fuel attempt s,
    (rpcCalls (snd (retryLoop operation retries attempt fuel s))
     <= rpcCalls s + fuel)%nat.
Proof.
  intros Hop fuel; induction fuel as [|fuel IH]; intros attempt s.
  - cbn. lia.
  - rewrite retryLoop_S, attemptOnce_eq.
    pose proof (Hop (paced s)) as H1.
    destruct (paced_frame s) as (Hc & _).
    destruct (operation (paced s)) as [[v|e] s1]; fields; [lia|].
    destruct (includes (message e) "request limit reached"
              && (attempt <? retries)%nat); fields; [|lia].
    etransitivity; [apply IH|]. fields. lia.
Qed.

(** ** The pacing invariant *)

Lemma callTimes_app (a b : list Effect) :
  callTimes (a ++ b) = callTimes a ++ callTimes b.
Proof. unfold callTimes. apply flat_map_app. Qed.

Lemma spaced_snoc (ts : list Z) (t : Z) :
  spaced ts ->
  Forall (fun x => x + minRequestInterval <= t) ts ->
  spaced (ts ++ [t]).
Proof.
  induction ts as [|a ts IH]; intros Hs Hall; [exact I|].
  inversion Hall as [|? ? Ha Hts]; subst.
  destruct ts as [|b ts].
  - cbn. split; [exact Ha | exact I].
  - cbn in Hs. destruct Hs as (Hab & Hs).
    change (a + minRequestInterval <= b /\ spaced ((b :: ts) ++ [t])).
    split; [exact Hab | now apply IH].
Qed.

Lemma pacedSoFar_call (s : State) (operation_state : State) :
  pacedSoFar s ->
  lastRequestTime operation_state = now (paced s) ->
  trace operation_state = trace (paced s) ++ [Call (now (paced s))] ->
  pacedSoFar operation_state.
Proof.
  intros (Hs & Hall) Hl Ht.
  destruct (paced_frame s) as (_ & _ & _ & _ & Hp & pre & Hpre & Hnone).
  unfold pacedSoFar.
  rewrite Ht, Hpre, !callTimes_app, Hnone, app_nil_r, Hl. cbn [callTimes flat_map app].
  split.
  - apply spaced_snoc; [exact Hs|].
    eapply Forall_impl; [|exact Hall]. cbn. intros a Ha. lia.
  - apply Forall_app. split.
    + eapply Forall_impl; [|exact Hall]. cbn. intros a Ha.
      unfold minRequestInterval in Hp. lia.
    + constructor; [lia | constructor].
Qed.

Lemma pacedSoFar_sleep (s : State) (d : Z) :
  pacedSoFar s -> pacedSoFar (snd (sleep d s)).
Proof.
  intros (Hs & Hall). unfold pacedSoFar. fields.
  rewrite callTimes_app. cbn [callTimes flat_map]. now rewrite app_nil_r.
Qed.

Lemma retryLoop_paced (A : Type) (operation : M A)
    (answer : nat -> Settled A) (lat : nat -> N) (retries : nat) :
  issues operation answer lat ->
  forall fuel attempt s,
    pacedSoFar s ->
    pacedSoFar (snd (retryLoop operation retries attempt fuel s)).
Proof.
  intros Hop fuel; induction fuel as [|fuel IH]; intros attempt s Hs.
  - exact Hs.
  - rewrite retryLoop_S, attemptOnce_eq.
    destruct (Hop (paced s)) as (_ & _ & Fl & _ & Ft).
    destruct (paced_frame s) as (_ & _ & Hl & _).
    assert (H1 : pacedSoFar (snd (operation (paced s)))).
    { apply (@pacedSoFar_call s _ Hs); [now rewrite Fl | exact Ft]. }
    destruct (operation (paced s)) as [[v|e] s1]; cbn [snd] in *;
      [exact H1|].
    destruct (includes (message e) "request limit reached"
              && (attempt <? retries)%nat); cbn [snd]; [|exact H1].
    apply IH. now apply pacedSoFar_sleep.
Qed.

Lemma serve_paced (u : Upstream) (x : Use) (s : State) :
  pacedSoFar s -> pacedSoFar (serve u x s).
Proof.
  intros Hs. destruct x as [| |ms]; cbn [serve].
  - unfold getLatestBlockNumber, bind, readCache, dateNow.
    destruct (truthyN (value (latestBlock (cache s)))
              && (now s - timestamp (latestBlock (cache s))
                  <? ttl (latestBlock (cache s)))); [exact Hs|].
    unfold executeWithRetry.
    eapply retryLoop_paced; [apply RetryClaims.fetchBlockNumber_issues|exact Hs].
  - unfold getData, bind, readCache, dateNow.
    destruct (truthyStr (value (greeting (cache s)))
              && (now s - timestamp (greeting (cache s))
                  <? ttl (greeting (cache s)))); [exact Hs|].
    unfold executeWithRetry.
    eapply retryLoop_paced; [apply RetryClaims.fetchGreeting_issues|exact Hs].
  - exact Hs.
Qed.

(** ** What the loop leaves in the cache *)

(** When the loop returns a value, the state it ends in is the one the
    returning invocation left. *)
Lemma retryLoop_last (A : Type) (operation : M A) :
  forall fuel retries attempt s v s',
    retryLoop operation retries attempt fuel s = (Resolved (Some v), s') ->
    exists s0, operation s0 = (Resolved v, s').
Proof.
  induction fuel as [|fuel IH]; intros retries attempt s v s'.
  - cbn. discriminate.
  - rewrite retryLoop_S, attemptOnce_eq.
    destruct (operation (paced s)) as [[v'|e] s1] eqn:E.
    + intros [= <- <-]. now exists (paced s).
    + destruct (includes (message e) "request limit reached"
                && (attempt <? retries)%nat); [apply IH | discriminate].
Qed.

(** A property of the cache that pacing, waiting and the operation keep is
    kept by the loop. *)
Lemma retryLoop_cache (A : Type) (operation : M A) (P : Cache -> Prop) :
  (forall s0, P (cache s0) -> P (cache (snd (operation s0)))) ->
  forall fuel retries attempt s,
    P (cache s) ->
    P (cache (snd (retryLoop operation retries attempt fuel s))).
Proof.
  intros Hop fuel; induction fuel as [|fuel IH]; intros retries attempt s Hs.
  - exact Hs.
  - rewrite retryLoop_S, attemptOnce_eq.
    destruct (paced_frame s) as (_ & Hc & _).
    assert (H1 : P (cache (snd (operation (paced s)))))
      by (apply Hop; now rewrite Hc).
    destruct (operation (paced s)) as [[v|e] s1]; cbn [snd] in *;
      [exact H1|].
    destruct (includes (message e) "request limit reached"
              && (attempt <? retries)%nat); cbn [snd]; [|exact H1].
    apply IH. exact H1.
Qed.

(** A loop that ends in an error, over an operation that leaves the cache
    alone when it fails, leaves the cache alone. *)
Lemma retryLoop_rejected_cache (A : Type) (operation : M A) :
  (forall s0 e s1, operation s0 = (Rejected e, s1) -> cache s1 = cache s0) ->
  forall fuel retries attempt s e s',
    retryLoop operation retries attempt fuel s = (Rejected e, s') ->
    cache s' = cache s.
Proof.
  intros Hop fuel; induction fuel as [|fuel IH]; intros retries attempt s e s'.
  - cbn. discriminate.
  - rewrite retryLoop_S, attemptOnce_eq.
    destruct (paced_frame s) as (_ & Hc & _).
    destruct (operation (paced s)) as [[v|e1] s1] eqn:E; [discriminate|].
    apply Hop in E. rewrite Hc in E.
    destruct (includes (message e1) "request limit reached"
              && (attempt <? retries)%nat).
    + intros H. apply IH in H. now rewrite H.
    + intros [= <- <-]. exact E.
Qed.

(** The loop falls off its end only when it was given no iteration. *)
Lemma retryLoop_defined (A : Type) (operation : M A) (retries : nat) :
  forall fuel attempt s,
    (attempt + fuel = S retries)%nat ->
    (1 <= fuel)%nat ->
    fst (retryLoop operation retries attempt fuel s) <> Resolved None.
Proof.
  induction fuel as [|fuel IH]; intros attempt s Hsum Hf; [lia|].
  rewrite retryLoop_S, attemptOnce_eq.
  destruct (operation (paced s)) as [[v|e] s1]; [cbn; discriminate|].
  destruct (Nat.ltb_spec attempt retries) as [Hlt|Hge].
  - rewrite andb_true_r.
    destruct (includes (message e) "request limit reached");
      [|cbn; discriminate].
    apply IH; lia.
  - rewrite andb_false_r. cbn. discriminate.
Qed.

Lemma getLatestBlockNumber_defined (u : Upstream) (s : State) :
  fst (getLatestBlockNumber u s) <> Resolved None.
Proof.
  unfold getLatestBlockNumber, bind, readCache, dateNow.
  destruct (truthyN (value (latestBlock (cache s)))
            && (now s - timestamp (latestBlock (cache s))
                <? ttl (latestBlock (cache s)))) eqn:E.
  - apply andb_prop in E. destruct E as (E & _).
    destruct (value (latestBlock (cache s))); [cbn; discriminate|].
    discriminate.
  - unfold executeWithRetry, maxRetries. apply retryLoop_defined; lia.
Qed.


Lemma getLatestBlockNumber_coherent (u : Upstream) (s s' : State)
    (str : string) :
  getLatestBlockNumber u s = (Resolved (Some str), s') ->
  exists v, value (latestBlock (cache s')) = Some v /\ str = toString v.
Proof.
  unfold getLatestBlockNumber, bind, readCache, dateNow.
  destruct (truthyN (value (latestBlock (cache s)))
            && (now s - timestamp (latestBlock (cache s))
                <? ttl (latestBlock (cache s)))).
  - unfold ret. destruct (value (latestBlock (cache s))) as [v|] eqn:E;
      [|discriminate].
    intros [= <- <-]. now exists v.
  - unfold executeWithRetry. intros H.
    apply retryLoop_last in H. destruct H as (s0 & H).
    rewrite fetchBlockNumber_eq in H. cbv zeta in H.
    destruct (blockNumberAt u (rpcCalls s0)) as [bn|e]; [|discriminate].
    injection H as <- <-. now exists bn.
Qed.

Lemma getData_coherent (u : Upstream) (s s' : State) (g : string) :
  getData u s = (Resolved (Some g), s') ->
  value (greeting (cache s')) = Some g.
Proof.
  unfold getData, bind, readCache, dateNow.
  destruct (truthyStr (value (greeting (cache s)))
            && (now s - timestamp (greeting (cache s))
                <? ttl (greeting (cache s)))).
  - unfold ret. intros [= E <-]. exact E.
  - unfold executeWithRetry. intros H.
    apply retryLoop_last in H. destruct H as (s0 & H).
    rewrite fetchGreeting_eq in H. cbv zeta in H.
    destruct (greetingAt u (rpcCalls s0)) as [g'|e]; [|discriminate].
    injection H as <- <-. reflexivity.
Qed.

Lemma getLatestBlockNumber_rejected_cache (u : Upstream) (s s' : State)
    (e : Error) :
  getLatestBlockNumber u s = (Rejected e, s') -> cache s' = cache s.
Proof.
  unfold getLatestBlockNumber, bind, readCache, dateNow.
  destruct (truthyN (value (latestBlock (cache s)))
            && (now s - timestamp (latestBlock (cache s))
                <? ttl (latestBlock (cache s)))); [discriminate|].
  unfold executeWithRetry. apply retryLoop_rejected_cache.
  intros s0 e0 s1. rewrite fetchBlockNumber_eq. cbv zeta.
  destruct (blockNumberAt u (rpcCalls s0)); [discriminate|].
  now intros [= _ <-].
Qed.

Lemma getData_rejected_cache (u : Upstream) (s s' : State) (e : Error) :
  getData u s = (Rejected e, s') -> cache s' = cache s.
Proof.
  unfold getData, bind, readCache, dateNow.
  destruct (truthyStr (value (greeting (cache s)))
            && (now s - timestamp (greeting (cache s))
                <? ttl (greeting (cache s)))); [discriminate|].
  unfold executeWithRetry. apply retryLoop_rejected_cache.
  intros s0 e0 s1. rewrite fetchGreeting_eq. cbv zeta.
  destruct (greetingAt u (rpcCalls s0)); [discriminate|].
  now intros [= _ <-].
Qed.

(** With no cached head and a node that refuses every head request, the
    read rejects, after at least one request. *)
Lemma getLatestBlockNumber_refused (u : Upstream) (s : State) :
  value (latestBlock (cache s)) = None ->
  (forall k, exists e, blockNumberAt u k = Rejected e) ->
  exists e s',
    getLatestBlockNumber u s = (Rejected e, s') /\
    cache s' = cache s /\
    (rpcCalls s < rpcCalls s')%nat.
Proof.
  intros Hc Hu.
  pose proof (getLatestBlockNumber_defined u s) as Hdef.
  assert (Hcalls : (rpcCalls s < rpcCalls (snd (getLatestBlockNumber u s)))%nat).
  { unfold getLatestBlockNumber, bind, readCache, dateNow. rewrite Hc.
    cbn [truthyN andb].
    apply executeWithRetry_calls_lt;
      [apply fetchBlockNumber_oneRequest | unfold maxRetries; lia]. }
  assert (Hno : forall v, fst (getLatestBlockNumber u s) <> Resolved (Some v)).
  { intros v. unfold getLatestBlockNumber, bind, readCache, dateNow.
    rewrite Hc. cbn [truthyN andb]. unfold executeWithRetry. intros H.
    apply (@ServiceLoopFacts.retryLoop_returns string (fetchBlockNumber u)
             (fun _ => False)) in H; [exact H|].
    intros s0 v0. rewrite fetchBlockNumber_eq. cbv zeta.
    destruct (Hu (rpcCalls s0)) as (e & ->). discriminate. }
  destruct (getLatestBlockNumber u s) as [[[v|]|e] s'] eqn:E;
    cbn [fst snd] in *.
  - exfalso. now apply (Hno v).
  - congruence.
  - exists e, s'. repeat split; [|exact Hcalls].
    now apply (@getLatestBlockNumber_rejected_cache u s s' e).
Qed.

End GovernorFacts.

Module GovernorExtras.

Import MonadService RetryFacts Governor GovernorFacts.
Local Open Scope Z_scope.

(** X1.  Linear backoff, in general.  When the first [j] answers are
    rate-limit errors and answer [j] is not, or is the last one allowed,
    [executeWithRetry] settles the way answer [j] did after exactly
    [j + 1] calls; after the pacing of the first call the trace is the
    first call, then for each retry [a] a wait of [retryDelay * a] and the
    next call, with no wait after the last call. *)
Theorem retry_follows_linear_backoff
    (A : Type) (operation : M A) (answer : nat -> Settled A) (lat : nat -> N)
    (retries j : nat) (s : State)
    (Hop : issues operation answer lat)
    (Hj : (j < retries)%nat)
    (Hlimited : forall i, (i < j)%nat ->
                rateLimited (answer (rpcCalls s + i)%nat) = true)
    (Hend : rateLimited (answer (rpcCalls s + j)%nat) = false
            \/ S j = retries) :
  exists s',
    executeWithRetry operation retries s
    = (settle (answer (rpcCalls s + j)%nat), s') /\
    rpcCalls s' = (rpcCalls s + j + 1)%nat /\
    trace s'
    = trace (paced s) ++ schedule lat 1 j (now (paced s)) (rpcCalls s).
Proof.
  unfold executeWithRetry.
  apply (@retryLoop_schedule A operation answer lat retries Hop j 1 retries s);
    try lia; assumption.
Qed.

Lemma retry_follows_linear_backoff_witness :
  exists s',
    executeWithRetry (fetchGreeting Scenario.throttled) 3 (initial 500)
    = (Rejected Scenario.rateLimited, s') /\
    rpcCalls s' = 3%nat /\
    trace s'
    = [Sleep 500; Call 1000; Sleep 2000; Call 3030; Sleep 4000; Call 7060].
Proof.
  apply (@retry_follows_linear_backoff string
           (fetchGreeting Scenario.throttled)
           (greetingAt Scenario.throttled) (rtt Scenario.throttled)
           3 2 (initial 500)
           (RetryClaims.fetchGreeting_issues Scenario.throttled)).
  - repeat constructor.
  - intros i _. reflexivity.
  - right. reflexivity.
Defined.

(** X2.  One read sends at most three requests upstream, whatever the
    upstream answers, and never takes a request back from the count. *)
Theorem a_read_sends_at_most_three_requests (u : Upstream) (s : State) :
  (rpcCalls s <= rpcCalls (snd (getLatestBlockNumber u s))
   <= rpcCalls s + maxRetries)%nat /\
  (rpcCalls s <= rpcCalls (snd (getData u s)) <= rpcCalls s + maxRetries)%nat.
Proof.
  split.
  - unfold getLatestBlockNumber, bind, readCache, dateNow.
    destruct (truthyN (value (latestBlock (cache s)))
              && (now s - timestamp (latestBlock (cache s))
                  <? ttl (latestBlock (cache s)))); [cbn; lia|].
    unfold executeWithRetry. split.
    + apply retryLoop_calls_le, fetchBlockNumber_oneRequest.
    + apply retryLoop_calls_bound, fetchBlockNumber_oneRequest.
  - unfold getData, bind, readCache, dateNow.
    destruct (truthyStr (value (greeting (cache s)))
              && (now s - timestamp (greeting (cache s))
                  <? ttl (greeting (cache s)))); [cbn; lia|].
    unfold executeWithRetry. split.
    + apply retryLoop_calls_le, fetchGreeting_oneRequest.
    + apply retryLoop_calls_bound, fetchGreeting_oneRequest.
Qed.

(** X3.  Global pacing.  Whatever reads are made, in whatever order and
    with whatever pauses, and whatever the upstream answers, any two
    consecutive requests of the service went out at least
    [minRequestInterval] apart. *)
Theorem outbound_requests_are_paced (u : Upstream) (uses : list Use) (t0 : Z) :
  spaced (callTimes (trace (session u uses (initial t0)))).
Proof.
  assert (H : forall s, pacedSoFar s -> pacedSoFar (session u uses s)).
  { induction uses as [|x uses IH]; intros s Hs; [exact Hs|].
    cbn [session fold_left]. apply IH. now apply serve_paced. }
  apply (H (initial t0)). split; [exact I | constructor].
Qed.

(** X4.  When a read resolves, what it returns is what the cache holds
    afterwards: for the block number the decimal string of the cached
    number, for the greeting the cached string. *)
Theorem a_read_returns_what_the_cache_holds (u : Upstream) (s s' : State) :
  (forall str,
     getLatestBlockNumber u s = (Resolved (Some str), s') ->
     exists v, value (latestBlock (cache s')) = Some v /\ str = toString v) /\
  (forall g,
     getData u s = (Resolved (Some g), s') ->
     value (greeting (cache s')) = Some g).
Proof.
  split.
  - intros str. apply getLatestBlockNumber_coherent.
  - intros g. apply getData_coherent.
Qed.

Lemma a_read_returns_what_the_cache_holds_witness :
  let s' := snd (getLatestBlockNumber Scenario.flaky (initial 500)) in
  exists v, value (latestBlock (cache s')) = Some v /\ "105"%string = toString v.
Proof.
  intros s'.
  apply (proj1 (@a_read_returns_what_the_cache_holds Scenario.flaky
                  (initial 500) s')).
  reflexivity.
Defined.

(** X5.  A read that ends in an error leaves both cache entries as they
    were: the stale value stays, nothing is cached for the failure. *)
Theorem a_failed_read_leaves_the_cache_alone
    (u : Upstream) (s s' : State) (e : Error) :
  (getLatestBlockNumber u s = (Rejected e, s') -> cache s' = cache s) /\
  (getData u s = (Rejected e, s') -> cache s' = cache s).
Proof.
  split.
  - apply getLatestBlockNumber_rejected_cache.
  - apply getData_rejected_cache.
Qed.

Lemma a_failed_read_leaves_the_cache_alone_witness :
  cache (snd (getLatestBlockNumber Scenario.down Scenario.stale))
  = cache Scenario.stale.
Proof.
  apply (proj1 (@a_failed_read_leaves_the_cache_alone Scenario.down
                  Scenario.stale
                  (snd (getLatestBlockNumber Scenario.down Scenario.stale))
                  Scenario.refused)).
  reflexivity.
Defined.

(** X6.  Each read writes its own entry only and keeps its TTL:
    [getLatestBlockNumber] never touches the greeting entry, [getData]
    never touches the block-number entry, and neither changes a TTL. *)
Theorem a_read_refreshes_its_own_entry_only (u : Upstream) (s : State) :
  let s1 := snd (getLatestBlockNumber u s) in
  let s2 := snd (getData u s) in
  greeting (cache s1) = greeting (cache s) /\
  ttl (latestBlock (cache s1)) = ttl (latestBlock (cache s)) /\
  latestBlock (cache s2) = latestBlock (cache s) /\
  ttl (greeting (cache s2)) = ttl (greeting (cache s)).
Proof.
  intros s1 s2.
  assert (H1 : greeting (cache s1) = greeting (cache s)
               /\ ttl (latestBlock (cache s1)) = ttl (latestBlock (cache s))).
  { subst s1. unfold getLatestBlockNumber, bind, readCache, dateNow.
    destruct (truthyN (value (latestBlock (cache s)))
              && (now s - timestamp (latestBlock (cache s))
                  <? ttl (latestBlock (cache s)))); [now split|].
    unfold executeWithRetry.
    apply (@retryLoop_cache string (fetchBlockNumber u)
             (fun c => greeting c = greeting (cache s)
                       /\ ttl (latestBlock c) = ttl (latestBlock (cache s))));
      [|now split].
    intros s0 (Hg & Ht). rewrite fetchBlockNumber_eq. cbv zeta.
    destruct (blockNumberAt u (rpcCalls s0)); fields; now split. }
  assert (H2 : latestBlock (cache s2) = latestBlock (cache s)
               /\ ttl (greeting (cache s2)) = ttl (greeting (cache s))).
  { subst s2. unfold getData, bind, readCache, dateNow.
    destruct (truthyStr (value (greeting (cache s)))
              && (now s - timestamp (greeting (cache s))
                  <? ttl (greeting (cache s)))); [now split|].
    unfold executeWithRetry.
    apply (@retryLoop_cache string (fetchGreeting u)
             (fun c => latestBlock c = latestBlock (cache s)
                       /\ ttl (greeting c) = ttl (greeting (cache s))));
      [|now split].
    intros s0 (Hg & Ht). rewrite fetchGreeting_eq. cbv zeta.
    destruct (greetingAt u (rpcCalls s0)); fields; now split. }
  destruct H1, H2. repeat split; assumption.
Qed.


End GovernorExtras.

(* ================================================================== *)
(** * More on the poll loop of index.js *)
(* ================================================================== *)

Module TrackerFacts.

Import Json Gateway JsFacts GatewayFacts Tracker.
Local Open Scope string_scope.
Local Open Scope list_scope.

Lemma poll_fetchFails (alive : nat -> bool) (t : Tick) (s : State) (l : N) :
  lastBlock s = Some (toString l) ->
  fetchFails l t ->
  exists e, snd (poll alive t s) = caught alive e s.
Proof.
  intros Hl [(e & He) | (c & e & Hc & Hlt & Hb)]; exists e.
  - rewrite poll_unfold. cbn [snd]. now rewrite He.
  - rewrite (@poll_delivered alive t s l c Hl Hc).
    apply N.ltb_lt in Hlt. now rewrite Hlt, Hb.
Qed.

Lemma pollLoop_failing (alive : nat -> bool) (l : N) (ticks : list Tick) :
  Forall (fetchFails l) ticks ->
  forall s,
    lastBlock s = Some (toString l) ->
    NoDup (sseClients s) ->
    consecutiveErrors (pollLoop alive ticks s)
    = consecutiveErrors s + List.length ticks /\
    lastBlock (pollLoop alive ticks s) = lastBlock s /\
    sseClients (pollLoop alive ticks s) = sseClients s /\
    forall c,
      received c (wire (pollLoop alive ticks s))
      = received c (wire s) ++
        if alive c && member c (sseClients s)
        then repeat errorChunk
               (consecutiveErrors s + List.length ticks - 2
                - (consecutiveErrors s - 2))
        else [].
Proof.
  induction 1 as [|t ticks Ht Hts IH]; intros s Hl Hnd.
  - cbn [pollLoop fold_left List.length]. repeat split; [lia|].
    intros c.
    replace (consecutiveErrors s + 0 - 2 - (consecutiveErrors s - 2)) with 0
      by lia.
    cbn [repeat]. destruct (alive c && member c (sseClients s));
      now rewrite app_nil_r.
  - rewrite pollLoop_cons.
    destruct (@poll_fetchFails alive t s l Hl Ht) as (e & E). rewrite E.
    destruct (IH (caught alive e s) Hl Hnd) as (Hn & Hb & Hc & Hw).
    cbn [caught consecutiveErrors lastBlock sseClients wire] in Hn, Hb, Hc, Hw.
    cbn [List.length]. repeat split; [lia | exact Hb | exact Hc |].
    intros c. rewrite Hw, received_app, <- app_assoc. f_equal.
    unfold MAX_CONSECUTIVE_ERRORS.
    destruct (Nat.leb_spec 3 (S (consecutiveErrors s))) as [Hge|Hlt].
    + fold errorChunk. rewrite received_fanout by exact Hnd.
      destruct (alive c && member c (sseClients s)); [|reflexivity].
      replace (consecutiveErrors s + S (List.length ticks) - 2
               - (consecutiveErrors s - 2))
        with (S (S (consecutiveErrors s) + List.length ticks - 2
                 - (S (consecutiveErrors s) - 2))) by lia.
      reflexivity.
    + rewrite received_nil. cbn [app].
      destruct (alive c && member c (sseClients s)); [|reflexivity].
      f_equal. lia.
Qed.

(** ** Starting and joining *)


Lemma startBlockPolling_failed (alive : nat -> bool)
    (baseline : Settled (option string)) (first : Tick) (s : State)
    (e : Error) :
  blockPollingInterval s = None ->
  baseline = Rejected e \/ (baseline = Resolved None /\ e = undefinedToString) ->
  startBlockPolling alive baseline first s
  = (Resolved tt,
     mkState (sseClients s) (mcpClients s) None (lastBlock s)
       (consecutiveErrors s) (S (restartTimers s)) (newBlockListeners s)
       (wire s)
       (log s ++ [mkLog Err "Error starting SSE block polling:" (message e)])).
Proof.
  intros H Hb. unfold startBlockPolling. unfold bind at 1, gets at 1.
  rewrite H. destruct s as [sse mcp timer last errs timers ls w lg].
  cbn in H. subst timer.
  destruct Hb as [-> | (-> & ->)]; reflexivity.
Qed.

Lemma startBlockPolling_started (alive : nat -> bool) (head : string)
    (first : Tick) (s : State) :
  blockPollingInterval s = None ->
  startBlockPolling alive (Resolved (Some head)) first s
  = (Resolved tt,
     let p := snd (poll alive first (setLastBlock (Some head) s)) in
     setLog (log p ++ [mkLog Info "SSE block polling started" EmptyString]) p).
Proof.
  intros H. unfold startBlockPolling. unfold bind at 1, gets at 1.
  rewrite H. unfold tryCatch, bind, await, toStringOf, ret, modify, logger.
  pose proof (poll_resolves alive first (setLastBlock (Some head) s)) as Hr.
  destruct (poll alive first (setLastBlock (Some head) s)) as [r p].
  cbn [fst snd] in *. subst r. reflexivity.
Qed.

(** What a poll keeps and what it sets. *)
Lemma poll_frame (alive : nat -> bool) (t : Tick) (s : State) :
  let p := snd (poll alive t s) in
  sseClients p = sseClients s /\
  mcpClients p = mcpClients s /\
  restartTimers p = restartTimers s /\
  newBlockListeners p = newBlockListeners s /\
  tracking p = true /\
  (lastBlock s <> None -> lastBlock p <> None).
Proof.
  cbv zeta. rewrite poll_unfold. cbn [snd].
  assert (Hc : forall e,
    sseClients (caught alive e s) = sseClients s /\
    mcpClients (caught alive e s) = mcpClients s /\
    restartTimers (caught alive e s) = restartTimers s /\
    newBlockListeners (caught alive e s) = newBlockListeners s /\
    tracking (caught alive e s) = true /\
    (lastBlock s <> None -> lastBlock (caught alive e s) <> None))
    by (intros e; repeat split; auto).
  assert (Hq :
    sseClients (quiet s) = sseClients s /\
    mcpClients (quiet s) = mcpClients s /\
    restartTimers (quiet s) = restartTimers s /\
    newBlockListeners (quiet s) = newBlockListeners s /\
    tracking (quiet s) = true /\
    (lastBlock s <> None -> lastBlock (quiet s) <> None))
    by (repeat split; auto).
  destruct (latestBlockNumber t) as [[cur|]|e]; [|apply Hc|apply Hc].
  destruct (BigInt cur) as [c|]; [|apply Hc].
  destruct (lastBlock s) as [last|] eqn:El; [|apply Hc].
  destruct (BigInt last) as [l|]; [|apply Hc].
  destruct (l <? c)%N; [|exact Hq].
  destruct (getBlock t cur) as [[b|]|e]; [|exact Hq|apply Hc].
  repeat split; auto. cbn. discriminate.
Qed.

Lemma setAdd_NoDup (x : nat) (xs : list nat) :
  NoDup xs -> NoDup (setAdd x xs).
Proof.
  intros H. unfold setAdd. destruct (existsb (Nat.eqb x) xs) eqn:E; [exact H|].
  apply NoDup_app; [exact H | repeat constructor; intros [] |].
  intros a Ha [Ea|[]]. subst a.
  apply (member_In x xs) in Ha. unfold member in Ha. congruence.
Qed.

Lemma setDelete_NoDup (x : nat) (xs : list nat) :
  NoDup xs -> NoDup (setDelete x xs).
Proof. apply NoDup_filter. Qed.



Lemma consistent_clients (s : State) (sse mcp : list nat)
    (ls : list nat) (w : list (nat * string)) (lg : list LogEntry) :
  consistent s ->
  NoDup sse -> NoDup mcp ->
  consistent
    (mkState sse mcp (blockPollingInterval s) (lastBlock s)
       (consecutiveErrors s) (restartTimers s) ls w lg).
Proof. intros (_ & _ & He & Hl) Hs Hm. now repeat split. Qed.


Ltac clients s :=
  apply (@consistent_clients s);
  cbn [sseClients mcpClients setSseClients setMcpClients setLog setWire
       setNewBlockListeners];
  auto using setAdd_NoDup, setDelete_NoDup.


End TrackerFacts.

Module TrackerExtras.

Import Json Gateway JsFacts GatewayFacts Tracker TrackerFacts.
Local Open Scope string_scope.
Local Open Scope list_scope.

(** X7.  Error events start with the third failure in a row.  Over a
    streak of polls whose fetch fails, the error count goes up by one per
    poll, the last seen head stays, and every live SSE client receives the
    error event once per failure from the third consecutive one on and
    nothing else: none for the first two failures of a fresh streak. *)
Theorem error_events_start_with_the_third_failure
    (alive : nat -> bool) (ticks : list Tick) (s : State) (l : N)
    (Hbase : lastBlock s = Some (toString l))
    (Hfail : Forall (fetchFails l) ticks)
    (Hclients : NoDup (sseClients s)) :
  consecutiveErrors (pollLoop alive ticks s)
  = consecutiveErrors s + List.length ticks /\
  lastBlock (pollLoop alive ticks s) = lastBlock s /\
  forall c,
    received c (wire (pollLoop alive ticks s))
    = received c (wire s) ++
      if alive c && member c (sseClients s)
      then repeat errorChunk
             (consecutiveErrors s + List.length ticks - 2
              - (consecutiveErrors s - 2))
      else [].
Proof.
  destruct (@pollLoop_failing alive l ticks Hfail s Hbase Hclients)
    as (Hn & Hl & _ & Hw).
  now repeat split.
Qed.

Lemma error_events_start_with_the_third_failure_witness :
  let s' :=
    pollLoop Scenario.everyone
      [Scenario.outage; Scenario.halfOutage 101; Scenario.outage;
       Scenario.outage]
      Scenario.polling in
  consecutiveErrors s' = 4 /\
  received 1 (wire s') = [errorChunk; errorChunk].
Proof.
  destruct (@error_events_start_with_the_third_failure Scenario.everyone
              [Scenario.outage; Scenario.halfOutage 101; Scenario.outage;
               Scenario.outage]
              Scenario.polling 100)
    as (Hn & _ & Hw).
  - reflexivity.
  - apply Forall_cons; [left; now exists Scenario.refused|].
    apply Forall_cons;
      [right; exists 101%N, Scenario.refused; now repeat split|].
    apply Forall_cons; [left; now exists Scenario.refused|].
    apply Forall_cons; [left; now exists Scenario.refused|].
    apply Forall_nil.
  - repeat constructor; cbn; intuition discriminate.
  - split; [exact Hn | exact (Hw 1)].
Defined.

(** X8.  A head whose block the node does not have yet is not lost.  The
    poll that gets [null] for the block writes nothing, logs nothing,
    keeps the last seen head, counts as a success (error count 0, next
    poll after [POLLING_INTERVAL]); the next poll that gets the block
    announces it to every live SSE client. *)
Theorem unavailable_block_is_announced_by_a_later_poll
    (alive : nat -> bool) (t t' : Tick) (s : State) (l c : N) (b : Block)
    (Hbase : lastBlock s = Some (toString l))
    (Hhead : delivers t c)
    (Hnew : (l < c)%N)
    (Hnull : getBlock t (toString c) = Resolved None)
    (Hhead' : delivers t' c)
    (Hblock : getBlock t' (toString c) = Resolved (Some b)) :
  let s1 := snd (poll alive t s) in
  let s2 := snd (poll alive t' s1) in
  wire s1 = wire s /\
  log s1 = log s /\
  lastBlock s1 = lastBlock s /\
  consecutiveErrors s1 = 0 /\
  blockPollingInterval s1 = Some POLLING_INTERVAL /\
  wire s2
  = wire s ++
    map (fun k => (k, newBlockChunk b)) (filter alive (sseClients s)) /\
  lastBlock s2 = Some (toString c).
Proof.
  cbv zeta. apply N.ltb_lt in Hnew.
  rewrite (@poll_delivered alive t s l c Hbase Hhead), Hnew, Hnull.
  rewrite (@poll_delivered alive t' (quiet s) l c Hbase Hhead'), Hnew, Hblock.
  now repeat split.
Qed.

Lemma unavailable_block_is_announced_by_a_later_poll_witness :
  let s1 := snd (poll Scenario.everyone (Scenario.notYet 101) Scenario.polling) in
  let s2 := snd (poll Scenario.everyone (Scenario.head 101) s1) in
  wire s1 = [] /\
  wire s2
  = [(1, newBlockChunk (Scenario.block 101));
     (2, newBlockChunk (Scenario.block 101))].
Proof.
  destruct (@unavailable_block_is_announced_by_a_later_poll Scenario.everyone
              (Scenario.notYet 101) (Scenario.head 101) Scenario.polling
              100 101 (Scenario.block 101))
    as (H1 & _ & _ & _ & _ & H2 & _); try reflexivity.
  split; [exact H1 | exact H2].
Defined.



(** X10.  Starting the tracker.  From a stopped tracker: when the
    baseline fetch fails, nothing is written, the tracker stays stopped
    and one restart is scheduled; when it gives a head, that head becomes
    the last seen one and the first poll runs at once, so that the tracker
    is running afterwards whatever the poll met, and a first poll that
    finds the same head announces nothing: the block a client connects at
    is never sent as a new block. *)
Theorem start_takes_the_head_as_baseline
    (alive : nat -> bool) (first : Tick) (s : State)
    (Hstopped : blockPollingInterval s = None) :
  (forall e,
     let s' := snd (startBlockPolling alive (Rejected e) first s) in
     tracking s' = false /\
     restartTimers s' = S (restartTimers s) /\
     wire s' = wire s /\
     lastBlock s' = lastBlock s) /\
  (forall head,
     let s' := snd (startBlockPolling alive (Resolved (Some head)) first s) in
     tracking s' = true /\ restartTimers s' = restartTimers s) /\
  (forall l,
     delivers first l ->
     let s' :=
       snd (startBlockPolling alive (Resolved (Some (toString l))) first s) in
     lastBlock s' = Some (toString l) /\ wire s' = wire s).
Proof.
  repeat split.
  - now rewrite (@startBlockPolling_failed alive (Rejected e) first s e
                   Hstopped) by now left.
  - now rewrite (@startBlockPolling_failed alive (Rejected e) first s e
                   Hstopped) by now left.
  - now rewrite (@startBlockPolling_failed alive (Rejected e) first s e
                   Hstopped) by now left.
  - now rewrite (@startBlockPolling_failed alive (Rejected e) first s e
                   Hstopped) by now left.
  - rewrite (@startBlockPolling_started alive head first s Hstopped).
    cbv zeta. cbn [snd].
    destruct (poll_frame alive first (setLastBlock (Some head) s))
      as (_ & _ & _ & _ & Pt & _).
    destruct (snd (poll alive first (setLastBlock (Some head) s))).
    exact Pt.
  - rewrite (@startBlockPolling_started alive head first s Hstopped).
    cbv zeta. cbn [snd].
    destruct (poll_frame alive first (setLastBlock (Some head) s))
      as (_ & _ & Pr & _).
    destruct (snd (poll alive first (setLastBlock (Some head) s))).
    destruct s. exact Pr.
  - rewrite (@startBlockPolling_started alive (toString l) first s Hstopped).
    cbv zeta. cbn [snd].
    rewrite (@poll_delivered alive first (setLastBlock (Some (toString l)) s)
               l l eq_refl H).
    rewrite N.ltb_irrefl. reflexivity.
  - rewrite (@startBlockPolling_started alive (toString l) first s Hstopped).
    cbv zeta. cbn [snd].
    rewrite (@poll_delivered alive first (setLastBlock (Some (toString l)) s)
               l l eq_refl H).
    rewrite N.ltb_irrefl. destruct s; reflexivity.
Qed.

Lemma start_takes_the_head_as_baseline_witness :
  let s' :=
    snd (startBlockPolling Scenario.everyone (Resolved (Some "100"))
           (Scenario.head 100)
           (mkState [1] [] None None 0 0 [] [] [])) in
  lastBlock s' = Some "100" /\ wire s' = [].
Proof.
  apply (proj2 (proj2 (@start_takes_the_head_as_baseline Scenario.everyone
                         (Scenario.head 100)
                         (mkState [1] [] None None 0 0 [] [] []) eq_refl))
           100%N).
  reflexivity.
Defined.


End TrackerExtras.

(* ================================================================== *)
(** * The JSON-RPC endpoint *)
(* ================================================================== *)

Module McpFacts.

Import MonadService McpEndpoint.
Local Open Scope string_scope.
Local Open Scope list_scope.

(** A request that passes the validation has the three members. *)
Lemma valid_request (request : Body) :
  invalid request = false ->
  prop "jsonrpc" request = Some (JStr "2.0") /\
  truthy (prop "method" request) = true /\
  exists id, prop "id" request = Some id.
Proof.
  unfold invalid, has. intros H.
  apply orb_false_elim in H. destruct H as (H & Hid).
  apply orb_false_elim in H. destruct H as (H & Hm).
  apply orb_false_elim in H. destruct H as (_ & Hj).
  apply negb_false_iff in Hj, Hm.
  repeat split.
  - unfold isString in Hj.
    destruct (prop "jsonrpc" request) as [[| | |v| |]|]; try discriminate.
    apply String.eqb_eq in Hj. now subst.
  - exact Hm.
  - destruct (prop "id" request) as [id|]; [now exists id | discriminate].
Qed.

Lemma service_eq (A : Type) (m : Js.M MonadService.State A)
    (s : MonadService.State) (lg : list LogEntry) :
  service m (s, lg) = (fst (m s), (snd (m s), lg)).
Proof. unfold service. cbn [fst snd]. now destruct (m s). Qed.

End McpFacts.

Module McpExtras.

Import MonadService McpEndpoint McpFacts GovernorFacts.
Local Open Scope string_scope.
Local Open Scope list_scope.

(** X13.  [POST /mcp] answers every body, and always with a JSON-RPC 2.0
    object that carries an [id] and either a [result] or an [error], never
    both.  A body that fails the validation gets status 400 and error
    -32600 with the request's [id] if that is truthy and [null] otherwise
    (so also for id 0, the empty string and [false], and for a
    notification, which has no [id] and is therefore refused); nothing is
    read and nothing is logged for it.  A body that passes gets its own
    [id] back, with status 200 and a [result], or status 200 and error
    -32601 for an unknown method, for which nothing is read, or status 500
    and error -32000. *)
Theorem mcp_post_answers_every_request
    (u : Upstream) (request : Body) (st : McpEndpoint.State) :
  exists resp st',
    mcpPost u request st = (Resolved resp, st') /\
    field "jsonrpc" (body resp) = Some (JStr "2.0") /\
    if invalid request
    then
      status resp = 400 /\
      st' = st /\
      field "id" (body resp)
      = Some (if truthy (prop "id" request)
              then match prop "id" request with
                   | Some id => id
                   | None => JNull
                   end
              else JNull) /\
      field "result" (body resp) = None /\
      field "error" (body resp) = Some (rpcError (-32600) "Invalid Request")
    else
      prop "id" request <> None /\
      field "id" (body resp) = prop "id" request /\
      ((status resp = 200 /\
        field "result" (body resp) <> None /\
        field "error" (body resp) = None) \/
       (status resp = 200 /\
        st' = st /\
        field "result" (body resp) = None /\
        field "error" (body resp)
        = Some (rpcError (-32601) "Method not found")) \/
       (status resp = 500 /\
        field "result" (body resp) = None /\
        field "error" (body resp) = Some (rpcError (-32000) "Server error"))).
Proof.
  unfold mcpPost. destruct (invalid request) eqn:Hv.
  - eexists _, st. split; [reflexivity|].
    unfold orNull. destruct (truthy (prop "id" request)) eqn:Ht.
    + destruct (prop "id" request) as [id|]; [|discriminate].
      cbn. repeat split.
    + cbn. repeat split.
  - destruct (valid_request request Hv) as (_ & _ & id & Hid).
    rewrite Hid. destruct st as [s lg].
    unfold Js.tryCatch, Js.bind.
    destruct (isString (prop "method" request) "block/latest").
    + rewrite service_eq.
      destruct (getLatestBlockNumber u s) as [[[text|]|e] s1]; cbn [fst snd].
      * eexists _, _. split; [reflexivity|]. cbn.
        repeat split; try discriminate. left. repeat split. discriminate.
      * eexists _, _. split; [reflexivity|]. cbn.
        repeat split; try discriminate. right. right. repeat split.
      * eexists _, _. split; [reflexivity|]. cbn.
        repeat split; try discriminate. right. right. repeat split.
    + destruct (isString (prop "method" request) "greeting/get").
      * rewrite service_eq.
        destruct (getData u s) as [[g|e] s1]; cbn [fst snd].
        -- eexists _, _. split; [reflexivity|]. cbn.
           repeat split; try discriminate. left. repeat split. discriminate.
        -- eexists _, _. split; [reflexivity|]. cbn.
           repeat split; try discriminate. right. right. repeat split.
      * eexists _, _. split; [reflexivity|]. cbn.
        repeat split; try discriminate. right. left. repeat split.
Qed.

(** X14.  When the read behind a request fails, the client is told
    [Server error] with code -32000 and status 500 and nothing else: the
    response is the same whatever the error was, whose message only
    reaches the log. *)
Theorem mcp_server_error_hides_the_cause
    (u : Upstream) (request : Body) (s s1 : MonadService.State)
    (lg : list LogEntry) (e : Error)
    (Hvalid : invalid request = false)
    (Hfail :
       (isString (prop "method" request) "block/latest" = true /\
        getLatestBlockNumber u s = (Rejected e, s1)) \/
       (isString (prop "method" request) "block/latest" = false /\
        isString (prop "method" request) "greeting/get" = true /\
        getData u s = (Rejected e, s1))) :
  mcpPost u request (s, lg)
  = (Resolved
       (mkResponse 500
          (JObj (json [ ("jsonrpc", Some (JStr "2.0"));
                        ("id", prop "id" request);
                        ("error",
                         Some (rpcError (-32000) "Server error")) ]))),
     (s1, lg ++ [mkLog Err "Error handling MCP request:" (message e)])).
Proof.
  unfold mcpPost. rewrite Hvalid. unfold Js.tryCatch, Js.bind.
  destruct Hfail as [(Hm & Hr) | (Hm1 & Hm2 & Hr)].
  - rewrite Hm, service_eq, Hr. reflexivity.
  - rewrite Hm1, Hm2, service_eq, Hr. reflexivity.
Qed.

Lemma mcp_server_error_hides_the_cause_witness :
  fst (mcpPost Scenario.down Scenario.askBlock (Scenario.stale, []))
  = Resolved
      (mkResponse 500
         (JObj [ ("jsonrpc", JStr "2.0");
                 ("id", JNum 7);
                 ("error", rpcError (-32000) "Server error") ])).
Proof.
  rewrite (@mcp_server_error_hides_the_cause Scenario.down Scenario.askBlock
             Scenario.stale
             (snd (getLatestBlockNumber Scenario.down Scenario.stale))
             [] Scenario.refused eq_refl (or_introl (conj eq_refl eq_refl))).
  reflexivity.
Defined.

(** X15.  [block/latest] succeeds whenever the read does not reject: the
    read never resolves with [undefined], so the [toString] in the handler
    does not throw.  The result is the decimal string of the block number
    the cache holds afterwards, with the request's [id] and status 200. *)
Theorem mcp_block_latest_is_the_cached_head
    (u : Upstream) (request : Body) (s : MonadService.State)
    (lg : list LogEntry)
    (Hvalid : invalid request = false)
    (Hmethod : isString (prop "method" request) "block/latest" = true)
    (Hread : forall e, fst (getLatestBlockNumber u s) <> Rejected e) :
  exists n,
    value (latestBlock (cache (snd (getLatestBlockNumber u s)))) = Some n /\
    mcpPost u request (s, lg)
    = (Resolved
         (mkResponse 200
            (JObj (json [ ("jsonrpc", Some (JStr "2.0"));
                          ("id", prop "id" request);
                          ("result",
                           Some (JObj [ ("blockNumber",
                                         JStr (Js.toString n)) ])) ]))),
       (snd (getLatestBlockNumber u s), lg)).
Proof.
  pose proof (getLatestBlockNumber_defined u s) as Hdef.
  destruct (getLatestBlockNumber u s) as [[[text|]|e] s1] eqn:E;
    cbn [fst snd] in *.
  - destruct (@getLatestBlockNumber_coherent u s s1 text E) as (n & Hn & ->).
    exists n. split; [exact Hn|].
    unfold mcpPost. rewrite Hvalid, Hmethod.
    unfold Js.tryCatch, Js.bind. rewrite service_eq, E. reflexivity.
  - congruence.
  - exfalso. now apply (Hread e).
Qed.

Lemma mcp_block_latest_is_the_cached_head_witness :
  exists n,
    value
      (latestBlock
         (cache (snd (getLatestBlockNumber Scenario.flaky (initial 500)))))
    = Some n /\
    mcpPost Scenario.flaky Scenario.askBlock (initial 500, [])
    = (Resolved
         (mkResponse 200
            (JObj [ ("jsonrpc", JStr "2.0");
                    ("id", JNum 7);
                    ("result", JObj [ ("blockNumber", JStr (Js.toString n)) ])
                  ])),
       (snd (getLatestBlockNumber Scenario.flaky (initial 500)), [])).
Proof.
  apply (@mcp_block_latest_is_the_cached_head Scenario.flaky Scenario.askBlock
           (initial 500) [] eq_refl eq_refl).
  intros e. vm_compute. discriminate.
Defined.

End McpExtras.

(* ================================================================== *)
(** * The initial data of an SSE client *)
(* ================================================================== *)

Module SseFacts.

Import Json SseEndpoint GovernorFacts.
Local Open Scope string_scope.
Local Open Scope list_scope.

Lemma onService_eq (A : Type) (m : Js.M MonadService.State A) (s : State) :
  onService m s
  = (fst (m (service s)),
     mkState (snd (m (service s))) (gateway s) (initialRetries s)).
Proof. unfold onService. now destruct (m (service s)). Qed.

Lemma write_eq (alive : nat -> bool) (res : nat) (chunk : string)
    (g : Gateway.State) :
  Gateway.write alive res chunk g = (Resolved tt, delivered alive res [chunk] g).
Proof.
  unfold Gateway.write, modify, delivered. destruct (alive res); [reflexivity|].
  destruct g; unfold Gateway.setWire; cbn. now rewrite app_nil_r.
Qed.

Lemma delivered_delivered (alive : nat -> bool) (res : nat)
    (xs ys : list string) (g : Gateway.State) :
  delivered alive res ys (delivered alive res xs g)
  = delivered alive res (xs ++ ys) g.
Proof.
  unfold delivered. destruct g; unfold Gateway.setWire; cbn.
  destruct (alive res); [now rewrite map_app, app_assoc|].
  now rewrite !app_nil_r.
Qed.

Lemma delivered_nil (alive : nat -> bool) (res : nat) (g : Gateway.State) :
  delivered alive res [] g = g.
Proof.
  unfold delivered. destruct g; unfold Gateway.setWire; cbn.
  destruct (alive res); now rewrite app_nil_r.
Qed.

(** The [catch] block of [sendInitialData]. *)
Lemma sendInitialData_caught (alive : nat -> bool) (res : nat) (e : Error)
    (s : State) :
  (onGateway
     (Gateway.logger Err "Error sending initial SSE data:" (message e)) ;;
   onGateway
     (Gateway.write alive res (Gateway.sseData (stringify initialError))) ;;
   modify (fun s =>
             mkState (service s) (gateway s) (initialRetries s ++ [res])))%js s
  = (Resolved tt,
     mkState (service s)
       (delivered alive res [failureChunk] (logged e (gateway s)))
       (initialRetries s ++ [res])).
Proof.
  unfold bind, onGateway at 1, Gateway.logger, modify. cbn [fst snd gateway].
  unfold onGateway. cbn [gateway service initialRetries].
  rewrite write_eq. reflexivity.
Qed.

(** [sendInitialData], one case per way through its body. *)
Lemma sendInitialData_unfold (alive : nat -> bool) (u : MonadService.Upstream)
    (res : nat) (s : State) :
  sendInitialData alive u res s =
  (Resolved tt,
   match MonadService.getLatestBlockNumber u (service s) with
   | (Rejected e, m1) =>
       mkState m1
         (delivered alive res [failureChunk] (logged e (gateway s)))
         (initialRetries s ++ [res])
   | (Resolved None, m1) =>
       mkState m1
         (delivered alive res [failureChunk]
            (logged Gateway.undefinedToString (gateway s)))
         (initialRetries s ++ [res])
   | (Resolved (Some b), m1) =>
       match MonadService.getData u m1 with
       | (Rejected e, m2) =>
           mkState m2
             (delivered alive res [failureChunk]
                (logged e (delivered alive res [blockChunk b] (gateway s))))
             (initialRetries s ++ [res])
       | (Resolved greeting, m2) =>
           mkState m2
             (delivered alive res
                (blockChunk b
                 :: match greeting with
                    | Some g => if truthyStr greeting
                                then [greetingChunk g]
                                else []
                    | None => []
                    end)
                (gateway s))
             (initialRetries s)
       end
   end).
Proof.
  unfold sendInitialData, tryCatch. unfold bind at 1. rewrite onService_eq.
  destruct (MonadService.getLatestBlockNumber u (service s))
    as [[[b|]|e] m1]; cbn [fst snd].
  - unfold bind at 1. unfold onGateway at 1. cbn [gateway Gateway.toStringOf ret].
    cbn [service initialRetries].
    unfold bind at 1. unfold onGateway at 1. cbn [gateway].
    rewrite write_eq. cbn [service initialRetries].
    unfold bind at 1. rewrite onService_eq. cbn [service gateway initialRetries].
    destruct (MonadService.getData u m1) as [[[g|]|e] m2]; cbn [fst snd].
    + destruct (truthyStr (Some g)).
      * unfold onGateway. cbn [gateway service initialRetries].
        rewrite write_eq, delivered_delivered. reflexivity.
      * reflexivity.
    + reflexivity.
    + rewrite sendInitialData_caught. reflexivity.
  - unfold bind at 1. unfold onGateway at 1.
    cbn [gateway Gateway.toStringOf throw].
    rewrite sendInitialData_caught. reflexivity.
  - rewrite sendInitialData_caught. reflexivity.
Qed.

Lemma delivered_gone (alive : nat -> bool) (res : nat) (chunks : list string)
    (g : Gateway.State) :
  alive res = false -> delivered alive res chunks g = g.
Proof.
  intros H. unfold delivered. rewrite H.
  destruct g; unfold Gateway.setWire; cbn. now rewrite app_nil_r.
Qed.

Lemma initialRetry_pending (alive : nat -> bool) (u : MonadService.Upstream)
    (res : nat) (s : State) :
  member res (initialRetries s) = true ->
  initialRetry alive u res s
  = sendInitialData alive u res
      (mkState (MonadService.elapse 5000 (service s)) (gateway s)
         (fired res (initialRetries s))).
Proof.
  intros H. unfold initialRetry. unfold bind at 1, gets at 1. rewrite H.
  reflexivity.
Qed.

End SseFacts.

Module SseExtras.

Import Json SseEndpoint SseFacts GovernorFacts.
Local Open Scope string_scope.
Local Open Scope list_scope.

(** X16.  What a client gets at connect.  [sendInitialData] never
    rejects.  When both reads resolve it writes [current_block] and then
    [current_greeting], the latter only for a non-empty greeting, and
    schedules nothing.  When the head cannot be read it writes the error
    chunk only; when the head is read and the greeting is not, it writes
    [current_block] and then the error chunk.  In both failures the error
    is logged and one retry is scheduled, which starts over from the
    head. *)
Theorem initial_data_outcomes
    (alive : nat -> bool) (u : MonadService.Upstream) (res : nat) (s : State) :
  fst (sendInitialData alive u res s) = Resolved tt /\
  (forall e m1,
     MonadService.getLatestBlockNumber u (service s) = (Rejected e, m1) ->
     snd (sendInitialData alive u res s)
     = mkState m1
         (delivered alive res [failureChunk] (logged e (gateway s)))
         (initialRetries s ++ [res])) /\
  (forall b m1 e m2,
     MonadService.getLatestBlockNumber u (service s)
     = (Resolved (Some b), m1) ->
     MonadService.getData u m1 = (Rejected e, m2) ->
     snd (sendInitialData alive u res s)
     = mkState m2
         (delivered alive res [failureChunk]
            (logged e (delivered alive res [blockChunk b] (gateway s))))
         (initialRetries s ++ [res])) /\
  (forall b m1 g m2,
     MonadService.getLatestBlockNumber u (service s)
     = (Resolved (Some b), m1) ->
     MonadService.getData u m1 = (Resolved (Some g), m2) ->
     snd (sendInitialData alive u res s)
     = mkState m2
         (delivered alive res
            (blockChunk b
             :: if (g =? EmptyString)%string then [] else [greetingChunk g])
            (gateway s))
         (initialRetries s)).
Proof.
  rewrite sendInitialData_unfold. cbn [fst snd]. repeat split.
  - intros e m1 ->. reflexivity.
  - intros b m1 e m2 -> ->. reflexivity.
  - intros b m1 g m2 -> ->. cbn [truthyStr].
    now destruct (g =? EmptyString)%string.
Qed.

Lemma initial_data_outcomes_witness :
  Gateway.wire
    (gateway
       (snd (sendInitialData Scenario.everyone Scenario.fresh 1
               (mkState (MonadService.initial 500) Gateway.initial []))))
  = [(1, blockChunk "0")].
Proof.
  rewrite (proj2 (proj2 (proj2
             (@initial_data_outcomes Scenario.everyone Scenario.fresh 1
                (mkState (MonadService.initial 500) Gateway.initial []))))
             "0"
             (snd (MonadService.getLatestBlockNumber Scenario.fresh
                     (MonadService.initial 500)))
             EmptyString
             (snd (MonadService.getData Scenario.fresh
                     (snd (MonadService.getLatestBlockNumber Scenario.fresh
                             (MonadService.initial 500)))))
             eq_refl eq_refl).
  reflexivity.
Defined.

(** X17.  The retry of the initial data outlives its client.  With no
    head in the cache and a node that refuses every head request, each
    firing of the retry timer of a response sends at least one request
    upstream, logs one error and leaves the timer pending again, also when
    the client is gone and no chunk can be written. *)
Theorem initial_retry_outlives_its_client
    (alive : nat -> bool) (u : MonadService.Upstream) (res n : nat) (s : State)
    (Hgone : alive res = false)
    (Hcold : MonadService.value
               (MonadService.latestBlock (MonadService.cache (service s)))
             = None)
    (Hdown : forall k, exists e, MonadService.blockNumberAt u k = Rejected e)
    (Hpending : member res (initialRetries s) = true) :
  let s' := retrying alive u res n s in
  member res (initialRetries s') = true /\
  (MonadService.rpcCalls (service s) + n
   <= MonadService.rpcCalls (service s'))%nat /\
  Gateway.wire (gateway s') = Gateway.wire (gateway s) /\
  List.length (Gateway.log (gateway s'))
  = (List.length (Gateway.log (gateway s)) + n)%nat.
Proof.
  cbv zeta. revert s Hcold Hpending.
  induction n as [|n IH]; intros s Hcold Hpending.
  - cbn [retrying]. repeat split; [exact Hpending | lia | lia].
  - cbn [retrying].
    rewrite (@initialRetry_pending alive u res s Hpending).
    rewrite sendInitialData_unfold. cbn [fst snd service gateway initialRetries].
    destruct (@getLatestBlockNumber_refused u
                (MonadService.elapse 5000 (service s)) Hcold Hdown)
      as (e & m1 & E & Hc & Hk).
    rewrite E.
    rewrite (@delivered_gone alive res [failureChunk] _ Hgone).
    match goal with
    | |- context [retrying alive u res n ?s1] =>
        destruct (IH s1) as (I1 & I2 & I3 & I4)
    end.
    + cbn [service]. now rewrite Hc.
    + cbn [initialRetries]. unfold member. rewrite existsb_app. cbn.
      rewrite Nat.eqb_refl. now rewrite orb_true_r.
    + cbn [service gateway] in I2, I3, I4.
      unfold logged in *.
      destruct (gateway s) as [a1 a2 a3 a4 a5 a6 a7 w lg].
      cbn [Gateway.setLog Gateway.wire Gateway.log] in *.
      rewrite length_app in I4. cbn [List.length] in I4.
      cbn [MonadService.elapse MonadService.rpcCalls] in Hk.
      repeat split; [exact I1 | lia | exact I3 | lia].
Qed.

Lemma initial_retry_outlives_its_client_witness :
  let s' :=
    retrying (fun _ => false) Scenario.down 5 3
      (mkState (MonadService.initial 500) Gateway.initial [5]) in
  member 5 (initialRetries s') = true /\
  (3 <= MonadService.rpcCalls (service s'))%nat.
Proof.
  destruct (@initial_retry_outlives_its_client (fun _ => false) Scenario.down
              5 3 (mkState (MonadService.initial 500) Gateway.initial [5])
              eq_refl eq_refl
              (fun _ => ex_intro _ Scenario.refused eq_refl) eq_refl)
    as (H1 & H2 & _).
  split; [exact H1 | exact H2].
Defined.

End SseExtras.

(* ================================================================== *)
(** * The execution chain and the parallel analysis *)
(* ================================================================== *)

Module ChainFacts.

Import MonadService ChainService JsFacts.
Local Open Scope string_scope.
Local Open Scope list_scope.
Local Open Scope Z_scope.

(** The three candidates of [parallelBlockAnalysis], filtered. *)
Lemma blockNumbers_lastThree (n : N) :
  map bigIntToString
    (filter (fun num => 0 <=? num) [Z.of_N n; Z.of_N n - 1; Z.of_N n - 2])
  = map toString (lastThree n).
Proof.
  unfold lastThree, bigIntToString. cbn [filter].
  destruct (N.eq_dec n 0) as [->|H0]; [reflexivity|].
  destruct (N.eq_dec n 1) as [->|H1]; [reflexivity|].
  replace (Nat.min 3 (S (N.to_nat n))) with 3%nat by lia.
  destruct (Z.leb_spec 0 (Z.of_N n)); [|lia].
  destruct (Z.leb_spec 0 (Z.of_N n - 1)); [|lia].
  destruct (Z.leb_spec 0 (Z.of_N n - 2)); [|lia].
  cbn [map seq]. repeat f_equal; lia.
Qed.

(** [storeData], by the time the send takes. *)
Lemma storeData_eq (sent : Sent) (greeting fromAddress : string)
    (s : ChainService.State) :
  storeData sent greeting fromAddress s =
  if took sent <? 30000
  then (match outcome sent with
        | Resolved t =>
            Resolved (mkStoreResult (receiptHash t)
                        (toString (receiptBlock t)) greeting)
        | Rejected e => Rejected e
        end,
        stored greeting fromAddress (took sent) s)
  else (Rejected (mkError "Transaction timed out"),
        stored greeting fromAddress 30000 s).
Proof.
  unfold storeData, tryCatch, bind, modify, await, ret, throw, onService,
    stored.
  cbn [truthyStr negb orb String.eqb Ascii.eqb Bool.eqb fst snd service sends].
  destruct (took sent <? 30000); [|reflexivity].
  now destruct (outcome sent).
Qed.

(** [executeChain], step by step. *)
Lemma executeChain_eq (u : Upstream)
    (analyzeBlock : string -> Settled BlockAnalysis) (sent : Sent)
    (value fromAddress : string) (s : ChainService.State) :
  executeChain u analyzeBlock sent value fromAddress s =
  if took sent <? 30000
  then
    match outcome sent with
    | Rejected e => (Rejected e, stored value fromAddress (took sent) s)
    | Resolved t =>
        match getData u (elapse (took sent) (service s)) with
        | (Rejected e, m) =>
            (Rejected e,
             mkState m (sends (stored value fromAddress (took sent) s)))
        | (Resolved g, m) =>
            match analyzeBlock (toString (receiptBlock t)) with
            | Rejected e =>
                (Rejected e,
                 mkState m (sends (stored value fromAddress (took sent) s)))
            | Resolved a =>
                (Resolved
                   (mkChainResult value (receiptHash t)
                      (toString (receiptBlock t)) g (totalGasUsed a)
                      (option_map gasUsed
                         (find (fun tx => (hash tx =? receiptHash t)%string)
                            (transactions a)))),
                 mkState m (sends (stored value fromAddress (took sent) s)))
            end
        end
    end
  else (Rejected (mkError "Transaction timed out"),
        stored value fromAddress 30000 s).
Proof.
  unfold executeChain, tryCatch. unfold bind at 1. rewrite storeData_eq.
  destruct (took sent <? 30000); [|reflexivity].
  destruct (outcome sent) as [t|e]; [|reflexivity].
  unfold bind, await, onService. cbn [service sends stored].
  destruct (getData u (elapse (took sent) (service s))) as [[g|e] m];
    [|reflexivity].
  cbn [ChainService.blockNumber ChainService.transactionHash].
  now destruct (analyzeBlock (toString (receiptBlock t))).
Qed.

End ChainFacts.

Module ChainExtras.

Import MonadService ChainService JsFacts ChainFacts.
Local Open Scope string_scope.
Local Open Scope list_scope.
Local Open Scope Z_scope.

(** X18.  [parallelBlockAnalysis] rejects exactly when the head cannot be
    read, with that error.  Otherwise it resolves with the summaries of
    the blocks from the head down, at most three and none below block 0,
    in that order, leaving out the blocks whose analysis failed: a failed
    analysis never fails the call. *)
Theorem parallel_analysis_covers_the_last_three_blocks
    (u : Upstream) (analyzeBlock : string -> Settled BlockAnalysis)
    (s : MonadService.State) :
  (forall e s',
     getLatestBlockNumber u s = (Rejected e, s') ->
     parallelBlockAnalysis u analyzeBlock s = (Rejected e, s')) /\
  (forall str s',
     getLatestBlockNumber u s = (Resolved (Some str), s') ->
     exists n,
       str = toString n /\
       parallelBlockAnalysis u analyzeBlock s
       = (Resolved
            (map summary
               (notNull
                  (map (fun k => analysed analyzeBlock (toString k))
                     (lastThree n)))),
          s')).
Proof.
  split.
  - intros e s' H. unfold parallelBlockAnalysis, tryCatch, bind.
    now rewrite H.
  - intros str s' H.
    destruct (@ServiceLoopFacts.getLatestBlockNumber_decimal u s str)
      as (n & ->); [now rewrite H|].
    exists n. split; [reflexivity|].
    unfold parallelBlockAnalysis, tryCatch, bind. rewrite H.
    unfold bigInt. rewrite BigInt_toString. unfold ret.
    rewrite blockNumbers_lastThree, map_map. reflexivity.
Qed.

Lemma parallel_analysis_covers_the_last_three_blocks_witness :
  exists n,
    "105" = toString n /\
    parallelBlockAnalysis Scenario.flaky Scenario.analyses (initial 500)
    = (Resolved
         (map summary
            (notNull
               (map (fun k => analysed Scenario.analyses (toString k))
                  (lastThree n)))),
       snd (getLatestBlockNumber Scenario.flaky (initial 500))).
Proof.
  apply (proj2 (@parallel_analysis_covers_the_last_three_blocks
                  Scenario.flaky Scenario.analyses (initial 500))).
  reflexivity.
Defined.

(** X19.  The chain reads the greeting through the cache.  When the send
    is mined while the cached greeting is still fresh, [executeChain]
    resolves with the cached greeting as the retrieved value, whatever
    value was stored, and makes no request for it: [storeData] sends the
    transaction and does not touch the cache. *)
Theorem chain_reports_the_cached_greeting
    (u : Upstream) (analyzeBlock : string -> Settled BlockAnalysis)
    (sent : Sent) (value fromAddress g0 : string) (receipt : Receipt)
    (a : BlockAnalysis) (s : ChainService.State)
    (Hfast : took sent < 30000)
    (Hsent : outcome sent = Resolved receipt)
    (Hcached : MonadService.value
                 (MonadService.greeting (cache (service s))) = Some g0)
    (Htruthy : g0 <> EmptyString)
    (Hfresh : now (service s) + Z.max 0 (took sent)
              - timestamp (MonadService.greeting (cache (service s)))
              < ttl (MonadService.greeting (cache (service s))))
    (Hanalysis : analyzeBlock (toString (receiptBlock receipt)) = Resolved a) :
  exists r,
    executeChain u analyzeBlock sent value fromAddress s
    = (Resolved r, stored value fromAddress (took sent) s) /\
    storedValue r = value /\
    retrievedValue r = Some g0.
Proof.
  assert (Hhit : getData u (elapse (took sent) (service s))
                 = (Resolved (Some g0), elapse (took sent) (service s))).
  { unfold getData, bind, readCache, dateNow.
    cbn [elapse cache now fst snd]. rewrite Hcached.
    cbn [truthyStr].
    apply String.eqb_neq in Htruthy. rewrite Htruthy.
    apply Z.ltb_lt in Hfresh. rewrite Hfresh. reflexivity. }
  apply Z.ltb_lt in Hfast.
  rewrite executeChain_eq, Hfast, Hsent, Hhit, Hanalysis.
  eexists. split; [reflexivity|]. split; reflexivity.
Qed.

Lemma chain_reports_the_cached_greeting_witness :
  exists r,
    executeChain Scenario.flaky Scenario.analyses Scenario.mined
      "good evening" "0xaa" (mkState Scenario.warm [])
    = (Resolved r, stored "good evening" "0xaa" 1500 (mkState Scenario.warm []))
    /\ storedValue r = "good evening" /\
    retrievedValue r = Some "hello".
Proof.
  apply (@chain_reports_the_cached_greeting Scenario.flaky Scenario.analyses
           Scenario.mined "good evening" "0xaa" "hello"
           (mkReceipt "0x7a01" 101)
           (mkAnalysis "101" "1700000000" 1 "21000"
              [mkTx "0x7a01" "0xaa" "0xbb" "0" "21000"])
           (mkState Scenario.warm [])).
  - reflexivity.
  - reflexivity.
  - reflexivity.
  - discriminate.
  - reflexivity.
  - reflexivity.
Defined.

(** X20.  [executeChain] stops at its first failing step and rejects with
    that step's error, and in every case the transaction has been sent.  A
    send that has not settled within 30 s is reported as
    [Transaction timed out] whatever becomes of it, and like a rejected
    send it stops the chain before anything is read; a failed read or a
    failed analysis rejects the chain although the value was stored. *)
Theorem chain_stops_at_the_first_failure
    (u : Upstream) (analyzeBlock : string -> Settled BlockAnalysis)
    (sent : Sent) (value fromAddress : string) (s : ChainService.State) :
  sends (snd (executeChain u analyzeBlock sent value fromAddress s))
  = sends s ++ [mkSend value fromAddress defaultGasLimit defaultGasPrice] /\
  (30000 <= took sent ->
   executeChain u analyzeBlock sent value fromAddress s
   = (Rejected (mkError "Transaction timed out"),
      stored value fromAddress 30000 s)) /\
  (forall e,
     took sent < 30000 ->
     outcome sent = Rejected e ->
     executeChain u analyzeBlock sent value fromAddress s
     = (Rejected e, stored value fromAddress (took sent) s)) /\
  (forall receipt e m,
     took sent < 30000 ->
     outcome sent = Resolved receipt ->
     getData u (elapse (took sent) (service s)) = (Rejected e, m) ->
     fst (executeChain u analyzeBlock sent value fromAddress s)
     = Rejected e) /\
  (forall receipt g e m,
     took sent < 30000 ->
     outcome sent = Resolved receipt ->
     getData u (elapse (took sent) (service s)) = (Resolved g, m) ->
     analyzeBlock (toString (receiptBlock receipt)) = Rejected e ->
     fst (executeChain u analyzeBlock sent value fromAddress s)
     = Rejected e).
Proof.
  rewrite executeChain_eq. repeat split.
  - destruct (took sent <? 30000); [|reflexivity].
    destruct (outcome sent) as [t|e]; [|reflexivity].
    destruct (getData u (elapse (took sent) (service s))) as [[g|e] m];
      [|reflexivity].
    now destruct (analyzeBlock (toString (receiptBlock t))).
  - intros H. apply Z.ltb_ge in H. now rewrite H.
  - intros e H He. apply Z.ltb_lt in H. now rewrite H, He.
  - intros receipt e m H Hr Hg. apply Z.ltb_lt in H. now rewrite H, Hr, Hg.
  - intros receipt g e m H Hr Hg Ha. apply Z.ltb_lt in H.
    now rewrite H, Hr, Hg, Ha.
Qed.

Lemma chain_stops_at_the_first_failure_witness :
  executeChain Scenario.flaky Scenario.analyses Scenario.pending
    "good evening" "0xaa" (mkState Scenario.warm [])
  = (Rejected (mkError "Transaction timed out"),
     stored "good evening" "0xaa" 30000 (mkState Scenario.warm [])).
Proof.
  apply (proj1 (proj2 (@chain_stops_at_the_first_failure Scenario.flaky
                  Scenario.analyses Scenario.pending "good evening" "0xaa"
                  (mkState Scenario.warm [])))).
  vm_compute. discriminate.
Defined.

End ChainExtras.

(* ================================================================== *)
(** * Shutting the WebSocket service down *)
(* ================================================================== *)

Module WsShutdownFacts.

Import WebSocketService WebSocketFacts WsShutdown.
Local Open Scope string_scope.
Local Open Scope list_scope.

(** Closing one client inside [close]. *)
Lemma closeOne_eq (closeFailure : nat -> option Error) (c : nat)
    (s : WsShutdown.State) :
  tryCatch
    (closeClient closeFailure c)
    (fun error =>
       onService
         (logger Err "Error closing client connection:" (message error))) s
  = (Resolved tt,
     match closeFailure c with
     | Some e =>
         mkState
           (setLog
              (log (ws s)
               ++ [mkLog Err "Error closing client connection:" (message e)])
              (ws s))
           (closedClients s) (serverCloses s)
     | None => mkState (ws s) (closedClients s ++ [c]) (serverCloses s)
     end).
Proof.
  unfold tryCatch, closeClient. now destruct (closeFailure c).
Qed.

(** Log entries of the [catch] inside [close], in client order. *)
Lemma forEach_close (closeFailure : nat -> option Error) (cs : list nat) :
  forall s,
    exists lg,
      forEach cs
        (fun client =>
           tryCatch
             (closeClient closeFailure client)
             (fun error =>
                onService
                  (logger Err "Error closing client connection:"
                     (message error)))) s
      = (Resolved tt,
         mkState (setLog (log (ws s) ++ lg) (ws s))
           (closedClients s ++ filter (closable closeFailure) cs)
           (serverCloses s)).
Proof.
  induction cs as [|c cs IH]; intros s.
  - exists []. cbn. rewrite !app_nil_r. destruct s as [[] ? ?]. reflexivity.
  - cbn [forEach filter]. unfold bind. rewrite closeOne_eq.
    unfold closable at 1.
    destruct (closeFailure c) as [e|].
    + match goal with
      | |- context [forEach cs ?f ?s1] => destruct (IH s1) as (lg & E)
      end.
      exists (mkLog Err "Error closing client connection:" (message e) :: lg).
      rewrite E.
      cbn [ws closedClients serverCloses setLog log wss clients subscription
           wire]. now rewrite <- app_assoc.
    + match goal with
      | |- context [forEach cs ?f ?s1] => destruct (IH s1) as (lg & E)
      end.
      exists lg. rewrite E. cbn [ws closedClients serverCloses].
      now rewrite <- app_assoc.
Qed.

Lemma stopBlockHeaderSubscription_eq (w : WebSocketService.State) :
  stopBlockHeaderSubscription w
  = (Resolved tt,
     match subscription w with
     | None => w
     | Some d =>
         WebSocketService.mkState (wss w) (clients w) None (wire w)
           (log w
            ++ mkLog Info "Stopping block header subscription/polling"
                 EmptyString
               :: match d with
                  | Polling _ _ =>
                      [mkLog Info "Block header polling stopped" EmptyString]
                  | Pushed => []
                  end)
     end).
Proof.
  unfold stopBlockHeaderSubscription, bind, gets, logger, modify, ret.
  destruct (subscription w) as [[active last|]|]; cbn [fst snd];
    [| |reflexivity];
    destruct w; unfold setSubscription, setLog; cbn;
    now rewrite <- ?app_assoc.
Qed.

(** What [stopBlockHeaderSubscription] keeps. *)
Lemma stopBlockHeaderSubscription_frame (w : WebSocketService.State) :
  fst (stopBlockHeaderSubscription w) = Resolved tt /\
  wss (snd (stopBlockHeaderSubscription w)) = wss w /\
  clients (snd (stopBlockHeaderSubscription w)) = clients w /\
  subscription (snd (stopBlockHeaderSubscription w)) = None /\
  wire (snd (stopBlockHeaderSubscription w)) = wire w /\
  (subscription w = None -> snd (stopBlockHeaderSubscription w) = w).
Proof.
  rewrite stopBlockHeaderSubscription_eq. cbn [fst snd].
  destruct (subscription w) as [d|] eqn:E.
  - repeat split. discriminate.
  - now repeat split.
Qed.

Lemma member_setDelete (c k : nat) (cs : list nat) :
  member k (setDelete c cs) = negb (Nat.eqb c k) && member k cs.
Proof.
  unfold member, setDelete. induction cs as [|x cs IH]; cbn [filter existsb].
  - now rewrite andb_false_r.
  - destruct (Nat.eqb_spec c x) as [->|Hcx]; cbn [negb existsb].
    + rewrite IH. destruct (Nat.eqb_spec k x) as [->|Hkx].
      * rewrite Nat.eqb_refl. reflexivity.
      * reflexivity.
    + rewrite IH. destruct (Nat.eqb_spec k x) as [->|Hkx].
      * destruct (Nat.eqb_spec c x); [congruence | reflexivity].
      * reflexivity.
Qed.

Lemma close_eq (c : nat) (w : WebSocketService.State) :
  WebSocketService.close c w
  = (Resolved tt,
     WebSocketService.mkState (wss w) (setDelete c (clients w))
       (subscription w) (wire w)
       (log w ++ [mkLog Info "WebSocket client disconnected" EmptyString])).
Proof. reflexivity. Qed.

Lemma setDelete_setAdd (c : nat) (cs : list nat) :
  member c cs = false -> setDelete c (setAdd c cs) = cs.
Proof.
  intros H. unfold setAdd. unfold member in H. rewrite H.
  unfold setDelete. rewrite filter_app. cbn [filter].
  rewrite Nat.eqb_refl. cbn [negb]. rewrite app_nil_r.
  apply forallb_filter_id. apply forallb_forall. intros x Hx.
  apply negb_true_iff. apply Nat.eqb_neq. intros ->.
  apply (GatewayFacts.member_In x cs) in Hx. unfold member in Hx. congruence.
Qed.

End WsShutdownFacts.

Module WsShutdownExtras.

Import WebSocketService WebSocketFacts WsShutdown WsShutdownFacts.
Local Open Scope string_scope.
Local Open Scope list_scope.

(** X21.  [close()] of the WebSocket service is final.  It never throws,
    also when a client's [close()] does: that is logged and the other
    clients are still closed.  Afterwards there is no subscription and no
    server; with a server up before, every client whose [close()] went
    through has been closed once, in order, the client set is empty and
    the server has been asked to close once.  Nothing is sent by [close()],
    and a block handled after it reaches nobody.  A second [close()]
    changes nothing. *)
Theorem service_close_is_final
    (sockets : nat -> Socket) (closeFailure : nat -> option Error)
    (b : Block) (s : WsShutdown.State) :
  let s1 := snd (close closeFailure s) in
  fst (close closeFailure s) = Resolved tt /\
  subscription (ws s1) = None /\
  wss (ws s1) = false /\
  wire (ws s1) = wire (ws s) /\
  (if wss (ws s)
   then clients (ws s1) = [] /\
        closedClients s1
        = closedClients s ++ filter (closable closeFailure) (clients (ws s)) /\
        serverCloses s1 = S (serverCloses s)
   else clients (ws s1) = clients (ws s) /\
        closedClients s1 = closedClients s /\
        serverCloses s1 = serverCloses s) /\
  wire (snd (handleNewBlock sockets b (ws s1))) = wire (ws s) /\
  snd (close closeFailure s1) = s1.
Proof.
  cbv zeta.
  assert (Hclose : forall s0,
    exists lg,
      close closeFailure s0
      = (Resolved tt,
         let w := snd (stopBlockHeaderSubscription (ws s0)) in
         if wss (ws s0)
         then mkState
                (WebSocketService.mkState false [] None (wire (ws s0))
                   (log w ++ lg))
                (closedClients s0
                 ++ filter (closable closeFailure) (clients (ws s0)))
                (S (serverCloses s0))
         else mkState w (closedClients s0) (serverCloses s0))).
  { intros s0. unfold close. unfold bind at 1. unfold onService at 1.
    destruct (stopBlockHeaderSubscription_frame (ws s0))
      as (Hr & Hw & Hc & Hs & Hwire & _).
    destruct (stopBlockHeaderSubscription (ws s0)) as [r w].
    cbn [fst snd] in *. subst r.
    unfold bind at 1, gets at 1. cbn [ws]. rewrite Hw.
    destruct (wss (ws s0)) eqn:Hup.
    - unfold bind at 1, gets at 1. cbn [ws]. unfold bind at 1.
      match goal with
      | |- context [forEach (clients w) ?f ?s1] =>
          destruct (@forEach_close closeFailure (clients w) s1) as (lg & El)
      end.
      exists lg. rewrite El. unfold bind, onService, modify.
      cbn [fst snd ws closedClients serverCloses].
      rewrite Hc. destruct w. cbn in *. subst. reflexivity.
    - exists []. reflexivity. }
  destruct (Hclose s) as (lg & E). rewrite E. cbn [fst snd].
  destruct (stopBlockHeaderSubscription_frame (ws s))
    as (_ & Hw & Hc & Hs & Hwire & _).
  destruct (wss (ws s)) eqn:Hup.
  - repeat split.
  - repeat split; auto.
    + cbn [ws]. rewrite handleNewBlock_eq. cbn [snd].
      destruct (@relayed_frame sockets b
                  (snd (stopBlockHeaderSubscription (ws s))))
        as (_ & _ & _ & ->).
      rewrite Hw, app_nil_r. exact Hwire.
    + match goal with
      | |- snd (close closeFailure ?s1) = _ =>
          destruct (Hclose s1) as (lg' & E'); rewrite E'
      end.
      cbn [fst snd ws closedClients serverCloses]. rewrite Hw.
      destruct (stopBlockHeaderSubscription_frame
                  (snd (stopBlockHeaderSubscription (ws s))))
        as (_ & _ & _ & _ & _ & Hid).
      now rewrite (Hid Hs).
Qed.

(** X22.  A client that has closed gets nothing more.  After the
    [close] handler of a client ran, a broadcast writes nothing to that
    client and reaches every other client as before; and a client that
    connects and closes leaves the client set as it found it. *)
Theorem closed_client_gets_no_more_frames
    (sockets : nat -> Socket) (c : nat) (now : Z) (message : Json.value)
    (w : WebSocketService.State)
    (Hclients : NoDup (clients w)) :
  let w' := snd (WebSocketService.close c w) in
  (forall k,
     received k (wire (broadcasted sockets message w'))
     = if Nat.eqb c k
       then received k (wire w)
       else received k (wire (broadcasted sockets message w))) /\
  (member c (clients w) = false ->
   sendFailure (sockets c) = None ->
   clients (snd (WebSocketService.close c
                   (snd (connection sockets c now w))))
   = clients w).
Proof.
  cbv zeta. rewrite close_eq. cbn [snd]. split.
  - intros k. unfold broadcasted. cbn [wss clients wire subscription log].
    destruct (wss w).
    + cbn [wire]. rewrite !GatewayFacts.received_app.
      rewrite !GatewayFacts.received_fanout
        by (try apply TrackerFacts.setDelete_NoDup; exact Hclients).
      rewrite member_setDelete.
      destruct (Nat.eqb c k); cbn [negb andb].
      * now rewrite andb_false_r, app_nil_r.
      * reflexivity.
    + cbn [setLog wire]. now destruct (Nat.eqb c k).
  - intros Hm Hs. unfold connection, bind, modify, logger, send.
    rewrite Hs. cbn [fst snd]. rewrite close_eq. cbn [snd clients].
    unfold modify. cbn [snd setWire setLog setClients clients].
    now apply setDelete_setAdd.
Qed.

Lemma closed_client_gets_no_more_frames_witness :
  received 1
    (wire
       (broadcasted Scenario.healthy (Json.Str "tick")
          (snd (WebSocketService.close 1 Scenario.wsPolling))))
  = [].
Proof.
  destruct (@closed_client_gets_no_more_frames Scenario.healthy 1 0
              (Json.Str "tick") Scenario.wsPolling) as (H & _).
  - repeat constructor; cbn; intuition discriminate.
  - exact (H 1).
Defined.

End WsShutdownExtras.

(* ================================================================== *)
(** * Starting the block header subscription *)
(* ================================================================== *)

Module WsSubscribeFacts.

Import WebSocketService WsSubscribe.
Local Open Scope string_scope.
Local Open Scope list_scope.

(** One pass through the [try] block. *)
Lemma attempt_outcome (a : Attempt) (s : WsSubscribe.State) :
  wss (ws (snd (attempt a s))) = wss (ws s) /\
  clients (ws (snd (attempt a s))) = clients (ws s) /\
  wire (ws (snd (attempt a s))) = wire (ws s) /\
  (succeeds a = true ->
   fst (attempt a s) = Resolved tt /\
   subscription (ws (snd (attempt a s))) = started a /\
   invalidHandle (snd (attempt a s)) = false) /\
  (succeeds a = false ->
   (exists e, fst (attempt a s) = Rejected e) /\
   subscription (ws (snd (attempt a s))) = None).
Proof.
  destruct s as [[up cs sub w lg] inv].
  destruct a as [push hd hl].
  destruct inv, sub as [[act last|]|], push, hd as [x|e], hl as [[]|e'];
    cbn; repeat split; intros; try discriminate; eauto.
Qed.

(** After a pass that failed, the [catch] block calls the function again. *)
Lemma failed_attempt_falls_back (a : Attempt) (s s1 : WsSubscribe.State)
    (e : Error) (text detail : string) :
  attempt a s = (Rejected e, s1) ->
  negb (subscribed (snd (onService (logger Err text detail) s1)))
  || negb (isPolling (snd (onService (logger Err text detail) s1))) = true.
Proof.
  intros E. destruct (attempt_outcome a s) as (_ & _ & _ & Hok & Hfail).
  rewrite E in Hok, Hfail. cbn [fst snd] in *.
  destruct (succeeds a).
  - destruct (Hok eq_refl) as (H & _). discriminate.
  - destruct (Hfail eq_refl) as (_ & Hs).
    unfold isPolling, onService, logger, modify.
    cbn [snd ws invalidHandle setLog subscription]. rewrite Hs.
    now rewrite andb_false_r, orb_true_r.
Qed.

Lemma start_step (fuel : nat) (attempts : nat -> Attempt) (k : nat)
    (s : WsSubscribe.State) :
  startBlockHeaderSubscription (S fuel) attempts k s =
  match attempt (attempts k) s with
  | (Resolved _, s1) => Some (Resolved tt, s1)
  | (Rejected error, s1) =>
      startBlockHeaderSubscription fuel attempts (S k)
        (snd (onService
                (logger Info
                   "Falling back to polling due to subscription error"
                   EmptyString)
                (snd (onService
                        (logger Err
                           "Error starting block header subscription:"
                           (message error)) s1))))
  end.
Proof.
  cbn [startBlockHeaderSubscription].
  destruct (attempt (attempts k) s) as [[[]|e] s1] eqn:E; [reflexivity|].
  now rewrite (@failed_attempt_falls_back (attempts k) s s1 e _ _ E).
Qed.

End WsSubscribeFacts.

Module WsSubscribeExtras.

Import WebSocketService WsSubscribe WsSubscribeFacts.
Local Open Scope string_scope.
Local Open Scope list_scope.

(** X24.  [startBlockHeaderSubscription] never rejects and never gives
    up: the branch of its [catch] block that rethrows cannot be reached,
    and every failed pass is followed at once by another one.  When pass
    [n] is the first that succeeds, the call resolves after [n + 1] passes
    with that pass's subscription in place (polling from the head it
    read, or the provider's subscription), the clients and the wire
    untouched; when no pass succeeds, the call never returns. *)
Theorem start_subscription_retries_until_it_succeeds
    (attempts : nat -> Attempt) (k : nat) (s : WsSubscribe.State) :
  (forall fuel e s',
     startBlockHeaderSubscription fuel attempts k s <> Some (Rejected e, s')) /\
  (forall n fuel,
     (forall i, (i < n)%nat -> succeeds (attempts (k + i)%nat) = false) ->
     succeeds (attempts (k + n)%nat) = true ->
     (n < fuel)%nat ->
     exists s',
       startBlockHeaderSubscription fuel attempts k s = Some (Resolved tt, s') /\
       subscription (ws s') = started (attempts (k + n)%nat) /\
       invalidHandle s' = false /\
       clients (ws s') = clients (ws s) /\
       wire (ws s') = wire (ws s)) /\
  ((forall i, succeeds (attempts (k + i)%nat) = false) ->
   forall fuel, startBlockHeaderSubscription fuel attempts k s = None).
Proof.
  repeat split.
  - intros fuel. revert k s.
    induction fuel as [|fuel IH]; intros k s e s'; [discriminate|].
    rewrite start_step.
    destruct (attempt (attempts k) s) as [[[]|e1] s1]; [discriminate|].
    apply IH.
  - intros n. revert k s.
    induction n as [|n IH]; intros k s fuel Hfail Hok Hfuel.
    + destruct fuel as [|fuel]; [lia|]. rewrite start_step.
      rewrite Nat.add_0_r in Hok.
      destruct (attempt_outcome (attempts k) s)
        as (_ & Hc & Hw & Hsucc & _).
      destruct (Hsucc Hok) as (Hr & Hs & Hi).
      destruct (attempt (attempts k) s) as [[[]|e1] s1]; cbn [fst snd] in *;
        [|discriminate].
      exists s1. rewrite Nat.add_0_r. now repeat split.
    + destruct fuel as [|fuel]; [lia|]. rewrite start_step.
      destruct (attempt_outcome (attempts k) s)
        as (_ & Hc & Hw & _ & Hno).
      assert (Hk : succeeds (attempts k) = false).
      { specialize (Hfail 0%nat). rewrite Nat.add_0_r in Hfail.
        apply Hfail. lia. }
      destruct (Hno Hk) as ((e1 & Hr) & _).
      destruct (attempt (attempts k) s) as [[[]|e2] s1]; cbn [fst snd] in *;
        [discriminate|].
      match goal with
      | |- context [startBlockHeaderSubscription fuel attempts (S k) ?s2] =>
          destruct (IH (S k) s2 fuel) as (s' & E & Hs & Hi & Hc' & Hw')
      end.
      * intros i Hi. replace (S k + i)%nat with (k + S i)%nat by lia.
        apply Hfail. lia.
      * now replace (S k + n)%nat with (k + S n)%nat by lia.
      * lia.
      * exists s'. rewrite E.
        replace (k + S n)%nat with (S k + n)%nat by lia.
        repeat split; [exact Hs | exact Hi | |].
        -- rewrite Hc'. destruct s1 as [[] ?]. exact Hc.
        -- rewrite Hw'. destruct s1 as [[] ?]. exact Hw.
  - intros Hfail fuel. revert k s Hfail.
    induction fuel as [|fuel IH]; intros k s Hfail; [reflexivity|].
    rewrite start_step.
    destruct (attempt_outcome (attempts k) s) as (_ & _ & _ & _ & Hno).
    assert (Hk : succeeds (attempts k) = false).
    { specialize (Hfail 0%nat). now rewrite Nat.add_0_r in Hfail. }
    destruct (Hno Hk) as ((e1 & Hr) & _).
    destruct (attempt (attempts k) s) as [[[]|e2] s1]; cbn [fst snd] in *;
      [discriminate|].
    apply IH. intros i. replace (S k + i)%nat with (k + S i)%nat by lia.
    apply Hfail.
Qed.

Lemma start_subscription_retries_until_it_succeeds_witness :
  exists s',
    startBlockHeaderSubscription 3
      (fun i =>
         match i with
         | 0 => mkAttempt true (Rejected Scenario.refused) (Resolved Invalid)
         | 1 => mkAttempt false (Rejected Scenario.refused) (Resolved Valid)
         | _ => mkAttempt false (Resolved (Some "100")) (Resolved Valid)
         end)
      0 (WsSubscribe.mkState Scenario.wsPushed false)
    = Some (Resolved tt, s') /\
    subscription (ws s') = Some (Polling true (Some "100")).
Proof.
  destruct (proj1 (proj2
              (@start_subscription_retries_until_it_succeeds
                 (fun i =>
                    match i with
                    | 0 => mkAttempt true (Rejected Scenario.refused)
                             (Resolved Invalid)
                    | 1 => mkAttempt false (Rejected Scenario.refused)
                             (Resolved Valid)
                    | _ => mkAttempt false (Resolved (Some "100"))
                             (Resolved Valid)
                    end)
                 0 (WsSubscribe.mkState Scenario.wsPushed false)))
              2 3)
    as (s' & E & Hs & _).
  - intros i Hi. destruct i as [|[|i]]; [reflexivity | reflexivity | lia].
  - reflexivity.
  - lia.
  - exists s'. split; [exact E | exact Hs].
Defined.

End WsSubscribeExtras.

(* ================================================================== *)
(** * One chunk, one event *)
(* ================================================================== *)

Module FramingFacts.

Import Json Framing.
Local Open Scope string_scope.

Lemma singleLine_app (a b : string) :
  singleLine (a ++ b) = singleLine a && singleLine b.
Proof.
  unfold singleLine. induction a as [|c a IH]; [reflexivity|].
  cbn [append list_ascii_of_string forallb]. rewrite IH.
  now rewrite andb_assoc.
Qed.

Lemma escape_singleLine (c : ascii) : singleLine (escape c) = true.
Proof. destruct c as [[] [] [] [] [] [] [] []]; reflexivity. Qed.

Lemma escapeAll_singleLine (s : string) : singleLine (escapeAll s) = true.
Proof.
  induction s as [|c s IH]; [reflexivity|].
  cbn [escapeAll]. now rewrite singleLine_app, escape_singleLine, IH.
Qed.

Lemma quote_singleLine (s : string) : singleLine (quote s) = true.
Proof.
  unfold quote.
  change (String dquote (escapeAll s ++ String dquote EmptyString))
    with (String dquote EmptyString
          ++ (escapeAll s ++ String dquote EmptyString)).
  now rewrite !singleLine_app, escapeAll_singleLine.
Qed.

Lemma string_of_uint_singleLine (d : Decimal.uint) :
  singleLine (NilEmpty.string_of_uint d) = true.
Proof.
  unfold singleLine.
  induction d; cbn [NilEmpty.string_of_uint list_ascii_of_string forallb];
    [reflexivity | rewrite IHd; reflexivity ..].
Qed.

Lemma uint_singleLine (d : Decimal.uint) :
  singleLine (NilZero.string_of_uint d) = true.
Proof.
  unfold NilZero.string_of_uint.
  destruct d; [reflexivity | apply string_of_uint_singleLine ..].
Qed.

Lemma number_singleLine (n : Z) :
  singleLine (NilZero.string_of_int (Z.to_int n)) = true.
Proof.
  unfold NilZero.string_of_int.
  destruct (Z.to_int n) as [d|d]; [apply uint_singleLine|].
  change (String "-" (NilZero.string_of_uint d))
    with ("-" ++ NilZero.string_of_uint d).
  now rewrite singleLine_app, uint_singleLine.
Qed.

Lemma stringify_singleLine : forall v : value, singleLine (stringify v) = true.
Proof.
  fix IH 1. intros [s|n|members].
  - apply quote_singleLine.
  - apply number_singleLine.
  - cbn [stringify]. rewrite !singleLine_app. cbn [singleLine
      list_ascii_of_string forallb nat_of_ascii]. rewrite andb_true_r.
    cbn [andb]. induction members as [|[k x] rest IHm]; [reflexivity|].
    rewrite !singleLine_app, quote_singleLine, (IH x). cbn [andb].
    destruct rest as [|m rest']; [reflexivity|].
    rewrite singleLine_app. cbn [andb]. exact IHm.
Qed.

End FramingFacts.

Module FramingExtras.

Import Json Framing FramingFacts.
Local Open Scope string_scope.

(** X23.  One chunk, one event.  Whatever the payload holds, also line
    breaks inside a hash, a miner address or a greeting, the chunk that
    is written for it is [data: ], one line of JSON and one empty line:
    [JSON.stringify] leaves no line feed and no carriage return
    unescaped.  So every chunk of index.js is exactly one server-sent
    event, and a block frame of the WebSocket service is one line too. *)
Theorem every_chunk_is_one_event (payload : value) (h : Block) :
  (exists body,
     Gateway.sseData (stringify payload)
     = "data: " ++ body ++ newline ++ newline /\
     singleLine body = true) /\
  singleLine (stringify payload) = true /\
  singleLine (WebSocketService.newBlockFrame h) = true.
Proof.
  repeat split.
  - exists (stringify payload). split; [reflexivity|].
    apply stringify_singleLine.
  - apply stringify_singleLine.
  - apply stringify_singleLine.
Qed.

End FramingExtras.

(* ================================================================== *)
(** * The stdio transport *)
(* ================================================================== *)

Module StdioFacts.

Import Json StdioService Framing FramingFacts JsFacts.
Local Open Scope string_scope.
Local Open Scope list_scope.

Lemma sendMessage_eq (now : Z) (type : string) (data : value) (s : State) :
  sendMessage now type data s
  = (Resolved tt, setStdout (stdout s ++ [line now type data]) s).
Proof. reflexivity. Qed.

(** A line is one line. *)
Lemma line_framed (now : Z) (type : string) (data : value) :
  exists body, line now type data = (body ++ newline)%string /\ singleLine body = true.
Proof.
  eexists. split; [reflexivity|]. apply stringify_singleLine.
Qed.

(** [handleCommand] writes exactly one line, whatever the command. *)
Lemma handleCommand_sends (now : Z) (reads : Reads)
    (command : option McpEndpoint.JsValue) (s : State) :
  exists type data,
    handleCommand now reads command s
    = (Resolved tt, setStdout (stdout s ++ [line now type data]) s).
Proof.
  unfold handleCommand, tryCatch. unfold bind at 1.
  destruct command as [[| | | | |fields]|]; cbn [read ret throw];
    try (do 2 eexists; reflexivity).
  destruct (McpEndpoint.isString (McpEndpoint.lookup "action" fields)
              "getBlock").
  - unfold bind, await, toStringOf.
    destruct (blockNumber reads) as [[text|]|e];
      do 2 eexists; reflexivity.
  - destruct (McpEndpoint.isString (McpEndpoint.lookup "action" fields)
                "getGreeting").
    + unfold bind, await.
      destruct (greeting reads) as [g|e]; do 2 eexists; reflexivity.
    + do 2 eexists; reflexivity.
Qed.

(** [handleInput], by what the input parsed to. *)
Lemma handleInput_eq (now : Z) (reads : Reads)
    (parsed : Settled McpEndpoint.JsValue) (s : State) :
  handleInput now reads parsed s
  = match parsed with
    | Rejected _ =>
        (Resolved tt,
         setStdout (stdout s ++ [errorLine now "Invalid input format"]) s)
    | Resolved McpEndpoint.JNull =>
        (Resolved tt,
         setStdout (stdout s ++ [errorLine now "Invalid input format"]) s)
    | Resolved (McpEndpoint.JObj fields) =>
        if McpEndpoint.isString (McpEndpoint.lookup "type" fields) "command"
        then handleCommand now reads (McpEndpoint.lookup "data" fields) s
        else (Resolved tt, s)
    | Resolved _ => (Resolved tt, s)
    end.
Proof.
  unfold handleInput, tryCatch. unfold bind at 1, await.
  destruct parsed as [[| b | n | str | items | fields]|e]; try reflexivity.
  cbn [read]. unfold bind at 1. unfold ret at 1. cbv beta iota.
  destruct (McpEndpoint.isString (McpEndpoint.lookup "type" fields) "command");
    [|reflexivity].
  unfold bind at 1. unfold ret at 1. cbv beta iota.
  destruct (@handleCommand_sends now reads
              (McpEndpoint.lookup "data" fields) s) as (type & data & ->).
  reflexivity.
Qed.

Lemma setStdout_nil (s : State) : s = setStdout (stdout s ++ []) s.
Proof. destruct s; unfold setStdout; cbn. now rewrite app_nil_r. Qed.

(** The [catch] block of [poll] ran with [e]. *)
Lemma poll_failed (f : Firing) (s : State) (e : Error) :
  (logger Err "Error in block polling:" (message e) ;;
   modify (setPollingInterval (Some ERROR_POLLING_INTERVAL)))%js s
  = (Resolved tt,
     setPollingInterval (Some ERROR_POLLING_INTERVAL)
       (setLog (log s ++ [mkLog Err "Error in block polling:" (message e)])
          s)).
Proof. reflexivity. Qed.

(** [poll] on a firing that delivers head [c]. *)
Lemma stdio_poll_delivered (f : Firing) (s : State) (l c : N) :
  lastBlock s = Some (toString l) ->
  delivers (tick f) c ->
  poll f s
  = (Resolved tt,
     if (l <? c)%N
     then match getBlock (tick f) (toString c) with
          | Rejected e =>
              setPollingInterval (Some ERROR_POLLING_INTERVAL)
                (setLog
                   (log s ++ [mkLog Err "Error in block polling:" (message e)])
                   s)
          | Resolved None => setPollingInterval (Some POLLING_INTERVAL) s
          | Resolved (Some b) =>
              setPollingInterval (Some POLLING_INTERVAL)
                (setLastBlock (Some (toString c))
                   (setStdout (stdout s ++ [newBlockLine (at_ f) b]) s))
          end
     else setPollingInterval (Some POLLING_INTERVAL) s).
Proof.
  intros Hl Hc. unfold delivers in Hc.
  unfold poll, tryCatch, bind, await, bigInt, bigIntOfLast, gets.
  rewrite Hc, BigInt_toString. unfold ret at 1. cbv beta iota.
  rewrite Hl, BigInt_toString. unfold ret at 1. cbv beta iota.
  destruct (l <? c)%N; [|reflexivity].
  destruct (getBlock (tick f) (toString c)) as [[b|]|e]; reflexivity.
Qed.

(** [poll] on a firing whose head fetch fails. *)
Lemma stdio_poll_no_head (f : Firing) (s : State) :
  (forall c, latestBlockNumber (tick f) <> Resolved (Some c)) ->
  lastBlock (snd (poll f s)) = lastBlock s /\
  stdout (snd (poll f s)) = stdout s /\
  fst (poll f s) = Resolved tt.
Proof.
  intros H. unfold poll, tryCatch, bind, await, bigInt.
  destruct (latestBlockNumber (tick f)) as [[cur|]|e].
  - exfalso. now apply (H cur).
  - now repeat split.
  - now repeat split.
Qed.

(** One firing of the poll timer. *)
Lemma stdio_poll_step (f : Firing) (s : State) (l : N) :
  lastBlock s = Some (toString l) ->
  honest (tick f) ->
  decimalHead (tick f) ->
  fst (poll f s) = Resolved tt /\
  ((lastBlock (snd (poll f s)) = Some (toString l) /\
    stdout (snd (poll f s)) = stdout s) \/
   (exists b,
      (l < number b)%N /\
      lastBlock (snd (poll f s)) = Some (toString (number b)) /\
      stdout (snd (poll f s)) = stdout s ++ [newBlockLine (at_ f) b])).
Proof.
  intros Hl Hh Hd.
  destruct (latestBlockNumber (tick f)) as [[cur|]|e] eqn:Hcur.
  - destruct (Hd cur Hcur) as (c & ->).
    rewrite (@stdio_poll_delivered f s l c Hl Hcur). cbn [fst snd].
    split; [reflexivity|].
    destruct (N.ltb_spec l c) as [Hlt|Hle];
      [|left; split; [exact Hl | reflexivity]].
    destruct (getBlock (tick f) (toString c)) as [[b|]|e] eqn:Hb;
      [ | left; split; [exact Hl | reflexivity] .. ].
    apply Hh in Hb. apply toString_inj in Hb. subst c.
    right. exists b. repeat split. exact Hlt.
  - destruct (@stdio_poll_no_head f s) as (H1 & H2 & H3);
      [rewrite Hcur; discriminate|].
    split; [exact H3|]. left. split; [now rewrite H1 | exact H2].
  - destruct (@stdio_poll_no_head f s) as (H1 & H2 & H3);
      [rewrite Hcur; discriminate|].
    split; [exact H3|]. left. split; [now rewrite H1 | exact H2].
Qed.

Lemma stdio_pollLoop_increasing :
  forall firings s l,
    lastBlock s = Some (toString l) ->
    Forall (fun f => honest (tick f)) firings ->
    Forall (fun f => decimalHead (tick f)) firings ->
    exists announced,
      StronglySorted N.lt (l :: map (fun p => number (snd p)) announced) /\
      incl (map fst announced) (map at_ firings) /\
      stdout (pollLoop firings s)
      = stdout s ++ map (fun p => newBlockLine (fst p) (snd p)) announced.
Proof.
  induction firings as [|f firings IH]; intros s l Hl Hh Hd.
  - exists []. repeat split.
    + constructor; constructor.
    + intros x [].
    + cbn. now rewrite app_nil_r.
  - inversion Hh as [|? ? Hf Hfs]; subst.
    inversion Hd as [|? ? Hdf Hdfs]; subst.
    change (pollLoop (f :: firings) s)
      with (pollLoop firings (snd (poll f s))).
    destruct (@stdio_poll_step f s l Hl Hf Hdf)
      as (_ & [(Hl' & Hw') | (b & Hlt & Hl' & Hw')]).
    + destruct (IH (snd (poll f s)) l Hl' Hfs Hdfs) as (an & Hs & Hi & Hw).
      exists an. repeat split; [exact Hs | | now rewrite Hw, Hw'].
      intros x Hx. right. now apply Hi.
    + destruct (IH (snd (poll f s)) (number b) Hl' Hfs Hdfs)
        as (an & Hs & Hi & Hw).
      exists ((at_ f, b) :: an). repeat split.
      * cbn [map snd]. now apply GatewayFacts.lt_sorted_cons.
      * intros x [<-|Hx]; [now left | right; now apply Hi].
      * rewrite Hw, Hw', <- app_assoc. reflexivity.
Qed.

End StdioFacts.

Module StdioExtras.

Import Json StdioService Framing FramingFacts JsFacts StdioFacts.
Local Open Scope string_scope.
Local Open Scope list_scope.

(** X25.  One input, at most one line.  [handleInput] never rejects and
    touches nothing but standard output, to which it writes at most one
    line, a JSON text followed by a line feed and holding no other line
    break.  It writes none exactly when the input parsed to something
    other than [null] whose [type] is not ["command"]: such input is
    dropped without a reply. *)
Theorem stdio_answers_with_at_most_one_line
    (now : Z) (reads : Reads) (parsed : Settled McpEndpoint.JsValue)
    (s : State) :
  let s' := snd (handleInput now reads parsed s) in
  fst (handleInput now reads parsed s) = Resolved tt /\
  (exists lines,
     s' = setStdout (stdout s ++ lines) s /\
     (List.length lines <= 1)%nat /\
     Forall (fun l => exists body,
                 l = (body ++ newline)%string /\ singleLine body = true) lines /\
     (lines = [] <->
      exists v,
        parsed = Resolved v /\
        v <> McpEndpoint.JNull /\
        McpEndpoint.isString (McpEndpoint.field "type" v) "command" = false)).
Proof.
  cbv zeta. rewrite handleInput_eq.
  assert (Hframed : forall type data,
    Forall (fun l => exists body,
                l = (body ++ newline)%string /\ singleLine body = true)
      [line now type data])
    by (intros; constructor; [apply line_framed | constructor]).
  destruct parsed as [[| b | n | str | items | fields]|e].
  - split; [reflexivity|]. eexists. split; [reflexivity|].
    split; [cbn; lia|]. split; [apply Hframed|]. split; [discriminate|].
    intros (v & [= <-] & Hv & _). congruence.
  - split; [reflexivity|]. exists []. split; [apply setStdout_nil|].
    split; [cbn; lia|]. split; [constructor|]. split; [|reflexivity].
    intros _. eexists. repeat split. discriminate.
  - split; [reflexivity|]. exists []. split; [apply setStdout_nil|].
    split; [cbn; lia|]. split; [constructor|]. split; [|reflexivity].
    intros _. eexists. repeat split. discriminate.
  - split; [reflexivity|]. exists []. split; [apply setStdout_nil|].
    split; [cbn; lia|]. split; [constructor|]. split; [|reflexivity].
    intros _. eexists. repeat split. discriminate.
  - split; [reflexivity|]. exists []. split; [apply setStdout_nil|].
    split; [cbn; lia|]. split; [constructor|]. split; [|reflexivity].
    intros _. eexists. repeat split. discriminate.
  - destruct (McpEndpoint.isString (McpEndpoint.lookup "type" fields)
                "command") eqn:Ht.
    + destruct (@handleCommand_sends now reads
                  (McpEndpoint.lookup "data" fields) s)
        as (type & data & ->).
      split; [reflexivity|]. eexists. split; [reflexivity|].
      split; [cbn; lia|]. split; [apply Hframed|]. split; [discriminate|].
      intros (v & [= <-] & _ & Hv). cbn in Hv. congruence.
    + split; [reflexivity|]. exists []. split; [apply setStdout_nil|].
      split; [cbn; lia|]. split; [constructor|]. split; [|reflexivity].
      intros _. eexists. repeat split; [discriminate | exact Ht].
  - split; [reflexivity|]. eexists. split; [reflexivity|].
    split; [cbn; lia|]. split; [apply Hframed|]. split; [discriminate|].
    intros (v & [=] & _).
Qed.

(** X26.  What the stdio transport replies.  Input that does not parse
    is answered with [Invalid input format].  A [getBlock] command is
    answered with the head as a string, and when the read fails with the
    message of that error: the stdio transport passes the cause on.  A
    command message without [data] is answered with the message of the
    [TypeError] it raises, not with [Invalid input format]. *)
Theorem stdio_command_replies
    (now : Z) (reads : Reads) (fields : list (string * McpEndpoint.JsValue))
    (s : State)
    (Hcommand : McpEndpoint.isString (McpEndpoint.lookup "type" fields)
                  "command" = true) :
  (forall e,
     stdout (snd (handleInput now reads (Rejected e) s))
     = stdout s ++ [errorLine now "Invalid input format"]) /\
  (McpEndpoint.lookup "data" fields = None ->
   stdout (snd (handleInput now reads
                  (Resolved (McpEndpoint.JObj fields)) s))
   = stdout s
     ++ [errorLine now
           "Cannot read properties of undefined (reading 'action')"]) /\
  (forall command,
     McpEndpoint.lookup "data" fields = Some (McpEndpoint.JObj command) ->
     McpEndpoint.isString (McpEndpoint.lookup "action" command) "getBlock"
     = true ->
     stdout (snd (handleInput now reads
                    (Resolved (McpEndpoint.JObj fields)) s))
     = stdout s
       ++ [match blockNumber reads with
           | Resolved (Some head) =>
               line now "blockNumber" (Obj [ ("number", Str head) ])
           | Resolved None =>
               errorLine now
                 "Cannot read properties of undefined (reading 'toString')"
           | Rejected e => errorLine now (message e)
           end]).
Proof.
  repeat split.
  - intros Hd. rewrite handleInput_eq, Hcommand.
    unfold handleCommand, tryCatch. unfold bind at 1. rewrite Hd.
    reflexivity.
  - intros command Hd Ha. rewrite handleInput_eq, Hcommand, Hd.
    unfold handleCommand, tryCatch. unfold bind at 1. cbn [read ret].
    rewrite Ha. unfold bind, await, toStringOf.
    now destruct (blockNumber reads) as [[head|]|e].
Qed.

Lemma stdio_command_replies_witness :
  stdout
    (snd (handleInput 1700000000000 Scenario.noReads
            (Resolved Scenario.getBlockCommand) initial))
  = [errorLine 1700000000000 "connect ECONNREFUSED 127.0.0.1:8545"].
Proof.
  apply (proj2 (proj2
           (@stdio_command_replies 1700000000000 Scenario.noReads
              [ ("type", McpEndpoint.JStr "command");
                ("data",
                 McpEndpoint.JObj
                   [ ("action", McpEndpoint.JStr "getBlock") ]) ]
              initial eq_refl))
           [ ("action", McpEndpoint.JStr "getBlock") ] eq_refl eq_refl).
Defined.

(** X27.  The stdio poll loop announces every head once.  Over any
    firings of its timer the loop writes nothing but [newBlock] lines,
    each at the time of a firing, for blocks with strictly increasing
    numbers above the baseline; a failed fetch is logged and never
    reported on standard output. *)
Theorem stdio_heads_are_announced_once
    (firings : list Firing) (s : State) (l : N)
    (Hbase : lastBlock s = Some (toString l))
    (Hhonest : Forall (fun f => honest (tick f)) firings)
    (Hdecimal : Forall (fun f => decimalHead (tick f)) firings) :
  exists announced,
    StronglySorted N.lt (l :: map (fun p => number (snd p)) announced) /\
    incl (map fst announced) (map at_ firings) /\
    stdout (pollLoop firings s)
    = stdout s ++ map (fun p => newBlockLine (fst p) (snd p)) announced.
Proof. now apply stdio_pollLoop_increasing. Qed.

Lemma stdio_heads_are_announced_once_witness :
  exists announced,
    StronglySorted N.lt (100%N :: map (fun p => number (snd p)) announced) /\
    incl (map fst announced) [1000; 3000; 5000; 10000]%Z /\
    stdout
      (pollLoop
         [ mkFiring 1000 (Scenario.head 100);
           mkFiring 3000 (Scenario.head 102);
           mkFiring 5000 Scenario.outage;
           mkFiring 10000 (Scenario.head 102) ]
         Scenario.stdioPolling)
    = map (fun p => newBlockLine (fst p) (snd p)) announced.
Proof.
  apply (@stdio_heads_are_announced_once
           [ mkFiring 1000 (Scenario.head 100);
             mkFiring 3000 (Scenario.head 102);
             mkFiring 5000 Scenario.outage;
             mkFiring 10000 (Scenario.head 102) ]
           Scenario.stdioPolling 100).
  - reflexivity.
  - repeat apply Forall_cons; try apply Forall_nil;
      try apply TrackerClaims.chainOf_honest;
      intros x b; discriminate.
  - repeat apply Forall_cons; try apply Forall_nil;
      intros str [= <-]; eexists; reflexivity.
Defined.

End StdioExtras.

(* ================================================================== *)
(** * The intents of the chat route *)
(* ================================================================== *)

Module ChatFacts.

Import Chat.
Local Open Scope string_scope.

Lemma length_append (a b : string) :
  String.length (a ++ b) = String.length a + String.length b.
Proof. induction a as [|c a IH]; cbn; [reflexivity | now rewrite IH]. Qed.

Lemma substring_tail (a b : string) :
  forall m s,
    substring m (String.length a + String.length b) s = a ++ b ->
    substring (m + String.length a) (String.length b) s = b.
Proof.
  intros m. induction m as [|m IHm]; intros s.
  - cbn [Nat.add]. revert s.
    induction a as [|c a IHa]; intros s; [exact (fun H => H)|].
    destruct s as [|c' s]; cbn; [discriminate|].
    intros [= _ H]. now apply IHa.
  - destruct s as [|c' s].
    + cbn. intros H. destruct a; [|discriminate]. cbn in H. now subst b.
    + cbn. apply IHm.
Qed.

(** A message that holds a phrase holds the phrase's ending. *)
Lemma includes_ending (s a b : string) :
  b <> EmptyString ->
  includes s (a ++ b) = true -> includes s b = true.
Proof.
  intros Hb. unfold includes.
  destruct (index 0 (a ++ b) s) as [m|] eqn:E; [intros _|discriminate].
  apply index_correct1 in E. rewrite length_append in E.
  apply substring_tail in E.
  destruct (index 0 b s) as [k|] eqn:F; [reflexivity|].
  exfalso.
  apply (@index_correct3 0 (m + String.length a) b s F Hb); [lia | exact E].
Qed.

End ChatFacts.

Module ChatExtras.

Import Chat ChatFacts.
Local Open Scope string_scope.

(** X28.  Three branches of the chat route can never be taken.  A
    message that holds [internal transactions] holds [transactions], and
    one that holds [token activities] or [collection activities] holds
    [activities]; these shorter keywords are tested first, so that such a
    message is answered with the account's transactions or activities.
    The other branches can each be taken. *)
Theorem three_chat_intents_are_never_chosen (messageLower : string) :
  intent messageLower <> InternalTransactions /\
  intent messageLower <> TokenActivities /\
  intent messageLower <> CollectionActivities /\
  (includes messageLower "internal transactions" = true ->
   intent messageLower = Balance \/ intent messageLower = Nfts
   \/ intent messageLower = Activities \/ intent messageLower = Transactions) /\
  intent "token holders of contract 0x" = TokenHolders /\
  intent "mon holders" = NativeHolders /\
  intent "collection holders" = CollectionHolders /\
  intent "source code of contract 0x" = ContractSource /\
  intent "token gating" = TokenGating /\
  intent "hello" = NotUnderstood.
Proof.
  assert (Hi : includes messageLower "internal transactions" = true ->
               includes messageLower "transactions" = true)
    by (apply (@includes_ending messageLower "internal " "transactions");
        discriminate).
  assert (Ht : includes messageLower "token activities" = true ->
               includes messageLower "activities" = true)
    by (apply (@includes_ending messageLower "token " "activities");
        discriminate).
  assert (Hc : includes messageLower "collection activities" = true ->
               includes messageLower "activities" = true)
    by (apply (@includes_ending messageLower "collection " "activities");
        discriminate).
  unfold intent.
  destruct (includes messageLower "balance" || includes messageLower "tokens");
    [repeat split; try discriminate; auto|].
  destruct (includes messageLower "nfts");
    [repeat split; try discriminate; auto|].
  destruct (includes messageLower "activities");
    [repeat split; try discriminate; auto|].
  destruct (includes messageLower "transactions");
    [repeat split; try discriminate; auto|].
  destruct (includes messageLower "internal transactions");
    [specialize (Hi eq_refl); discriminate|].
  destruct (includes messageLower "token activities");
    [specialize (Ht eq_refl); discriminate|].
  destruct (includes messageLower "collection activities");
    [specialize (Hc eq_refl); discriminate|].
  repeat split; try discriminate;
    repeat match goal with
           | |- (if ?c then _ else _) <> _ => destruct c
           end; discriminate.
Qed.

End ChatExtras.

(* ================================================================== *)
(** * Heads compared as strings *)
(* ================================================================== *)

Module DigitsFacts.

Import Digits.
Local Open Scope N_scope.

Lemma of_uint_acc_zeros (k : nat) :
  forall acc,
    N.pos (Pos.of_uint_acc (zeros k) acc) = 10 ^ N.of_nat k * N.pos acc.
Proof.
  induction k as [|k IH]; intros acc.
  - cbn [zeros Pos.of_uint_acc]. change (N.of_nat 0) with 0.
    rewrite N.pow_0_r. lia.
  - cbn [zeros Pos.of_uint_acc]. rewrite IH, Nat2N.inj_succ, N.pow_succ_r'.
    change (N.pos (10 * acc)) with (10 * N.pos acc). ring.
Qed.

Lemma of_uint_acc_nines (k : nat) :
  forall acc,
    N.pos (Pos.of_uint_acc (nines k) acc) + 1
    = 10 ^ N.of_nat k * (N.pos acc + 1).
Proof.
  induction k as [|k IH]; intros acc.
  - cbn [nines Pos.of_uint_acc]. change (N.of_nat 0) with 0.
    rewrite N.pow_0_r. lia.
  - cbn [nines Pos.of_uint_acc]. rewrite IH, Nat2N.inj_succ, N.pow_succ_r'.
    replace (N.pos (9 + 10 * acc) + 1) with (10 * (N.pos acc + 1)) by lia.
    ring.
Qed.

(** The numeral of a power of ten is [1] followed by zeros. *)
Lemma toString_power_of_ten (k : nat) :
  toString (10 ^ N.of_nat k)
  = String "1"%char (NilEmpty.string_of_uint (zeros k)).
Proof.
  unfold toString.
  replace (10 ^ N.of_nat k) with (N.of_uint (Decimal.D1 (zeros k))).
  - rewrite DecimalN.Unsigned.to_of. reflexivity.
  - unfold N.of_uint. cbn [Pos.of_uint]. rewrite of_uint_acc_zeros. lia.
Qed.

(** The numeral of the number before a power of ten is all nines. *)
Lemma toString_before_power_of_ten (k : nat) :
  toString (10 ^ N.of_nat (S k) - 1)
  = String "9"%char (NilEmpty.string_of_uint (nines k)).
Proof.
  unfold toString.
  replace (10 ^ N.of_nat (S k) - 1) with (N.of_uint (Decimal.D9 (nines k))).
  - rewrite DecimalN.Unsigned.to_of. reflexivity.
  - unfold N.of_uint. cbn [Pos.of_uint].
    pose proof (of_uint_acc_nines k 9) as H.
    rewrite Nat2N.inj_succ, N.pow_succ_r'.
    change (N.pos 9 + 1) with 10 in H. lia.
Qed.

Lemma power_of_ten_is_not_greater (k j : nat) :
  strGt (toString (10 ^ N.of_nat j)) (toString (10 ^ N.of_nat (S k) - 1))
  = false.
Proof.
  rewrite toString_power_of_ten, toString_before_power_of_ten.
  reflexivity.
Qed.

End DigitsFacts.

Module DigitsExtras.

Import WebSocketService WebSocketFacts DigitsFacts.
Local Open Scope string_scope.
Local Open Scope list_scope.

(** X29.  The polling of the WebSocket service stalls at a power of
    ten.  It compares the head and the last relayed head as strings, so
    after head 9, 99, 999, ... the next head, 10, 100, 1000, ..., is not
    relayed and does not become the last relayed head, although its block
    is there; the poll loop of index.js, which compares them as numbers,
    announces that block to every live SSE client. *)
Theorem ws_polling_stalls_at_a_power_of_ten
    (sockets : nat -> Socket) (alive : nat -> bool) (t : Tick) (k : nat)
    (active : bool) (b : Block) (w : WebSocketService.State)
    (g : Gateway.State)
    (Hws : subscription w
           = Some (Polling active
                     (Some (toString (10 ^ N.of_nat (S k) - 1)))))
    (Hsse : Gateway.lastBlock g = Some (toString (10 ^ N.of_nat (S k) - 1)))
    (Hhead : delivers t (10 ^ N.of_nat (S k)))
    (Hblock : getBlock t (toString (10 ^ N.of_nat (S k))) = Resolved (Some b)) :
  snd (intervalCallback sockets t w) = w /\
  Gateway.wire (snd (Gateway.poll alive t g))
  = Gateway.wire g ++
    map (fun c => (c, Gateway.newBlockChunk b))
      (filter alive (Gateway.sseClients g)) /\
  Gateway.lastBlock (snd (Gateway.poll alive t g))
  = Some (toString (10 ^ N.of_nat (S k))).
Proof.
  split.
  - rewrite (@intervalCallback_delivered sockets t w active _ _ Hws Hhead).
    now rewrite power_of_ten_is_not_greater.
  - rewrite (@GatewayFacts.poll_delivered alive t g _ _ Hsse Hhead).
    assert (Hlt : (10 ^ N.of_nat (S k) - 1 <? 10 ^ N.of_nat (S k))%N = true).
    { apply N.ltb_lt.
      assert (0 < 10 ^ N.of_nat (S k))%N
        by (apply N.neq_0_lt_0, N.pow_nonzero; discriminate).
      lia. }
    rewrite Hlt, Hblock. split; reflexivity.
Qed.

Lemma ws_polling_stalls_at_a_power_of_ten_witness :
  snd (intervalCallback Scenario.healthy (Scenario.head 100)
         Scenario.wsPollingFrom99)
  = Scenario.wsPollingFrom99.
Proof.
  apply (@ws_polling_stalls_at_a_power_of_ten Scenario.healthy
           Scenario.everyone (Scenario.head 100) 1 true (Scenario.block 100)
           Scenario.wsPollingFrom99
           (Gateway.mkState [1; 2] [] (Some Gateway.POLLING_INTERVAL)
              (Some "99") 0 0 [] [] [])).
  - reflexivity.
  - reflexivity.
  - reflexivity.
  - reflexivity.
Defined.

End DigitsExtras.

(* ================================================================== *)
(** * The link to the global MCP server *)
(* ================================================================== *)

Module GlobalMcpFacts.

Import McpEndpoint GlobalMcp.
Local Open Scope string_scope.
Local Open Scope list_scope.

Lemma reads_ret (A : Type) (a : A) : reads (ret a).
Proof. intros s. reflexivity. Qed.

Lemma reads_throw (A : Type) (e : Error) : reads (@throw State A e).
Proof. intros s. reflexivity. Qed.

Lemma reads_await (A : Type) (p : Settled A) : reads (@await State A p).
Proof. intros s. reflexivity. Qed.

Lemma reads_read (key : string) (x : option JsValue) : reads (read key x).
Proof. intros s. now destruct x as [[]|]. Qed.

Lemma reads_bind (A B : Type) (m : Js.M State A) (k : A -> Js.M State B) :
  reads m -> (forall a, reads (k a)) -> reads (bind m k).
Proof.
  intros Hm Hk s. unfold bind. specialize (Hm s).
  destruct (m s) as [[a|e] s1]; cbn [snd] in *; subst s1; [apply Hk|].
  reflexivity.
Qed.

Lemma reads_if (A : Type) (c : bool) (a b : Js.M State A) :
  reads a -> reads b -> reads (if c then a else b).
Proof. now destruct c. Qed.

(** [try { r = body; send(r) } catch (e) { send(e) }] around a body that
    leaves the state alone. *)
Lemma tryCatch_reads (A : Type) (body : Js.M State A)
    (k : A -> Js.M State unit) (h : Error -> Js.M State unit) (s : State) :
  reads body ->
  (forall a s0, fst (k a s0) = Resolved tt) ->
  tryCatch (bind body k) h s
  = match fst (body s) with
    | Resolved a => k a s
    | Rejected e => h e s
    end.
Proof.
  intros Hb Hk. unfold tryCatch, bind. specialize (Hb s).
  destruct (body s) as [[a|e] s1]; cbn [fst snd] in *; subst s1.
  - specialize (Hk a s). destruct (k a s) as [[[]|e] s2]; [reflexivity|].
    discriminate.
  - reflexivity.
Qed.

Lemma sendGlobalMcpMessage_eq (now : Z) (serverIdentifier : string)
    (message : list (string * option JsValue)) (s : State) :
  sendGlobalMcpMessage now serverIdentifier None message s
  = (Resolved tt,
     if globalMcpEnabled s && linkOpen s
     then mkState (globalMcpEnabled s) (linkOpen s)
            (sent s ++
             [json (message ++
                    [ ("timestamp", Some (JNum now));
                      ("server", Some (JStr serverIdentifier)) ])])
     else s).
Proof.
  unfold sendGlobalMcpMessage, bind, gets, modify.
  now destruct (globalMcpEnabled s && linkOpen s).
Qed.

(** Every message is answered by one [sendGlobalMcpMessage], with a
    response or with an error. *)
Lemma handleGlobalMcpMessage_sends (now : Z) (serverIdentifier : string)
    (service : Service) (codeOf : Error -> option JsValue)
    (message : list (string * JsValue)) (s : State) :
  exists kind key payload,
    (kind = "response" \/ kind = "error") /\
    key <> "requestId" /\ key <> "type" /\ key <> "server" /\
    handleGlobalMcpMessage now serverIdentifier service codeOf None message s
    = sendGlobalMcpMessage now serverIdentifier None
        [ ("type", Some (JStr kind));
          ("requestId", lookup "requestId" message);
          (key, payload) ] s.
Proof.
  unfold handleGlobalMcpMessage. rewrite tryCatch_reads.
  - match goal with
    | |- context [fst (?body s)] => destruct (fst (body s)) as [r|e]
    end.
    + exists "response", "data", r. repeat split; try discriminate. now left.
    + eexists "error", "error", _. repeat split; try discriminate.
      now right.
  - repeat first
      [ apply reads_if
      | apply reads_bind; [|intros ?]
      | apply reads_read
      | apply reads_await
      | apply reads_throw ].
  - intros a s0. now rewrite sendGlobalMcpMessage_eq.
Qed.

(** The type of a message falls through the [switch]. *)
Lemma unsupported_type (now : Z) (serverIdentifier : string)
    (service : Service) (codeOf : Error -> option JsValue)
    (message : list (string * JsValue)) (type : string) (s : State) :
  lookup "type" message = Some (JStr type) ->
  (type =? "store_data") = false ->
  (type =? "get_data") = false ->
  (type =? "get_balance") = false ->
  (type =? "get_account_tokens") = false ->
  (type =? "get_account_nfts") = false ->
  (type =? "get_account_activities") = false ->
  codeOf (mkError ("Unsupported message type: " ++ type)%string) = None ->
  handleGlobalMcpMessage now serverIdentifier service codeOf None message s
  = (Resolved tt,
     if globalMcpEnabled s && linkOpen s
     then mkState (globalMcpEnabled s) (linkOpen s)
            (sent s
             ++ [unsupported now serverIdentifier type
                   (lookup "requestId" message)])
     else s).
Proof.
  intros Ht H1 H2 H3 H4 H5 H6 Hc.
  unfold handleGlobalMcpMessage. rewrite Ht. unfold isString.
  rewrite H1, H2, H3, H4, H5, H6.
  unfold tryCatch, bind, throw. cbn [StdioService.template
    StdioService.templateString].
  rewrite sendGlobalMcpMessage_eq. cbn [Js.message]. rewrite Hc.
  destruct (lookup "requestId" message); reflexivity.
Qed.

End GlobalMcpFacts.

Module GlobalMcpExtras.

Import McpEndpoint GlobalMcp GlobalMcpFacts.
Local Open Scope string_scope.
Local Open Scope list_scope.

(** X30.  The link to the global MCP server.  Every message that is an
    object is answered at most once, as long as sending does not throw:
    with the link enabled and open,
    exactly one object is sent, a [response] or an [error], with the
    request's [requestId] and this server's identifier; otherwise nothing
    is sent and nothing changes.  The handler never rejects.  Of the seven
    capabilities sent at registration, [analyze_block], [account_tokens],
    [account_nfts] and [account_activities] are not message types the
    handler knows: a message of one of these types is answered with the
    error [Unsupported message type] (an [Error] made with [new Error]
    has no [code]). *)
Theorem global_mcp_answers_once
    (now : Z) (serverIdentifier : string) (service : Service)
    (codeOf : Error -> option JsValue) (sendFailure : option Error)
    (message : list (string * JsValue)) (s : State)
    (Hsend : sendFailure = None) :
  let s' :=
    snd (handleGlobalMcpMessage now serverIdentifier service codeOf
           sendFailure message s)
  in
  fst (handleGlobalMcpMessage now serverIdentifier service codeOf sendFailure
         message s)
  = Resolved tt /\
  (if globalMcpEnabled s && linkOpen s
   then exists reply,
          s' = mkState true true (sent s ++ [reply]) /\
          lookup "requestId" reply = lookup "requestId" message /\
          (lookup "type" reply = Some (JStr "response")
           \/ lookup "type" reply = Some (JStr "error")) /\
          lookup "server" reply = Some (JStr serverIdentifier)
   else s' = s) /\
  (forall type,
     In type [ "analyze_block"; "account_tokens"; "account_nfts";
               "account_activities" ] ->
     In type capabilities /\
     (lookup "type" message = Some (JStr type) ->
      codeOf (mkError ("Unsupported message type: " ++ type)%string) = None ->
      globalMcpEnabled s && linkOpen s = true ->
      sent s'
      = sent s
        ++ [unsupported now serverIdentifier type
              (lookup "requestId" message)])).
Proof.
  subst sendFailure. cbv zeta. repeat split.
  - destruct (@handleGlobalMcpMessage_sends now serverIdentifier service
                codeOf message s) as (kind & key & payload & _ & _ & _ & _ & ->).
    now rewrite sendGlobalMcpMessage_eq.
  - destruct (@handleGlobalMcpMessage_sends now serverIdentifier service
                codeOf message s)
      as (kind & key & payload & Hk & Hr & Ht & Hs & ->).
    rewrite sendGlobalMcpMessage_eq. cbn [snd].
    destruct (globalMcpEnabled s) eqn:He, (linkOpen s) eqn:Ho; cbn [andb];
      try reflexivity.
    eexists. split; [reflexivity|].
    apply String.eqb_neq in Hr, Ht, Hs.
    destruct (lookup "requestId" message) as [rid|], payload as [p|];
      cbn [app json lookup]; rewrite ?Hr, ?Ht, ?Hs;
      (repeat split; [destruct Hk as [-> | ->]; [now left | now right]]).
  - destruct H as [<-|[<-|[<-|[<-|[]]]]]; cbn; auto 10.
  - intros Ht Hcode Hopen.
    rewrite (@unsupported_type now serverIdentifier service codeOf message
               type s Ht);
      try (destruct H as [<-|[<-|[<-|[<-|[]]]]]; reflexivity);
      [|exact Hcode].
    cbn [snd]. now rewrite Hopen.
Qed.

Lemma global_mcp_answers_once_witness :
  sent
    (snd (handleGlobalMcpMessage 1700000000000 "mcp-1"
            (mkService (fun _ _ => Resolved None) (Resolved None)
               (fun _ => Resolved None) (fun _ => Resolved None)
               (fun _ _ => Resolved None) (fun _ _ => Resolved None))
            (fun _ => None) None
            [ ("type", JStr "analyze_block"); ("requestId", JNum 4) ]
            (mkState true true [])))
  = [unsupported 1700000000000 "mcp-1" "analyze_block" (Some (JNum 4))].
Proof.
  apply (proj2 (proj2 (proj2
           (@global_mcp_answers_once 1700000000000 "mcp-1"
              (mkService (fun _ _ => Resolved None) (Resolved None)
                 (fun _ => Resolved None) (fun _ => Resolved None)
                 (fun _ _ => Resolved None) (fun _ _ => Resolved None))
              (fun _ => None) None
              [ ("type", JStr "analyze_block"); ("requestId", JNum 4) ]
              (mkState true true []) eq_refl))
           "analyze_block" (or_introl eq_refl))).
  - reflexivity.
  - reflexivity.
  - reflexivity.
Defined.

End GlobalMcpExtras.
